(** * Workout tracker: composition, previous performance, progress

    A shallow embedding of the three screens that carry the logic of the
    application (CreateWorkoutScreen, WorkoutDetailScreen,
    WorkoutHistoryScreen) together with the relational store they talk to,
    followed by the properties of the composer, the performance matcher and
    the progress aggregator.

    Conventions.
    - Row identifiers (UUIDs in the schema) are natural numbers handed out by
      a counter of the store; timestamps are integers (milliseconds).
    - A string is a sequence of code units below 256.
    - ECMAScript Numbers are [JS.number]: the exact value of a double, or
      NaN, or an infinity.  [Math.floor], [Math.max], [||] and [Math.round]
      are exact on doubles and are defined on exact values; division and
      multiplication round, and are taken from the binary64 primitives.
    - Every request to the store is recorded in a log, and the environment
      decides, per request, whether the store answers with an error.  The
      store checks what the schema declares: VARCHAR(255), the range of
      INTEGER, the precision and scale of DECIMAL(5,2), NOT NULL, UNIQUE
      and the foreign keys.
    - A query that does not order its rows returns them in the order of the
      table; the tables are arbitrary lists, so this is any order.
    - The screens are mounted for a signed-in user and talk to the store as
      that user; the policies of row level security are not modelled. *)

From Stdlib Require Import ZArith QArith Qround Qabs Lqa String Ascii Floats Uint63.
From Stdlib Require Import DecimalString.
From Stdlib Require Import Sorted Permutation.
From stdpp Require Import base option list gmap strings.

Local Open Scope Z_scope.
Local Open Scope nat_scope.
Local Open Scope string_scope.
Local Open Scope list_scope.

(** ** The ECMAScript values the screens compute with *)

Module JS.

Inductive number : Type :=
| Fin (q : Q)
| NaN
| PosInf
| NegInf.

Definition of_Z (z : Z) : number := Fin (inject_Z z).

(** ToBoolean of a Number: zero and NaN are falsy. *)
Definition truthy (x : number) : bool :=
  match x with
  | Fin q => negb (Qeq_bool q 0)
  | NaN => false
  | PosInf | NegInf => true
  end.

(** [x || y] on Numbers. *)
Definition or_else (x y : number) : number := if truthy x then x else y.

Definition isNaN (x : number) : bool :=
  match x with NaN => true | _ => false end.

Definition Math_floor (x : number) : number :=
  match x with
  | Fin q => Fin (inject_Z (Qfloor q))
  | _ => x
  end.

Definition Math_max (a b : number) : number :=
  match a, b with
  | NaN, _ | _, NaN => NaN
  | PosInf, _ | _, PosInf => PosInf
  | NegInf, y => y
  | x, NegInf => x
  | Fin p, Fin q => if Qle_bool p q then Fin q else Fin p
  end.

(** [Math.round]: the nearest integer, a tie going towards +infinity. *)
Definition Math_round (x : number) : number :=
  match x with
  | Fin q => Fin (inject_Z (Qfloor (q + (1 # 2))))
  | _ => x
  end.

(** The exact value of a binary64 double. *)
Definition of_float (f : float) : number :=
  match Prim2SF f with
  | S754_zero _ => Fin 0
  | S754_infinity false => PosInf
  | S754_infinity true => NegInf
  | S754_nan => NaN
  | S754_finite s m e =>
      let mag : Q :=
        match e with
        | Z0 => inject_Z (Zpos m)
        | Zpos p => inject_Z (Zpos m * 2 ^ Zpos p)
        | Zneg p => Zpos m # (2 ^ p)
        end in
      Fin (if s then Qopp mag else mag)
  end.

(** The double of a count (exact below 2^53; a list is never that long). *)
Definition float_of_nat (n : nat) : float :=
  PrimFloat.of_uint63 (Uint63.of_Z (Z.of_nat n)).

(** [JSON.stringify] of a Number: a non-finite Number is written [null]. *)
Definition json_number (x : number) : option Q :=
  match x with Fin q => Some q | _ => None end.

(** The integer a finite Number denotes, if it denotes one. *)
Definition as_integer (q : Q) : option Z :=
  if Qeq_bool q (inject_Z (Qfloor q)) then Some (Qfloor q) else None.

(** White space and line terminators of [String.prototype.trim] among the
    code units below 256: TAB, LF, VT, FF, CR, SP and NBSP. *)
Definition is_white_space (c : ascii) : bool :=
  let n := nat_of_ascii c in
  (Nat.eqb n 9 || Nat.eqb n 10 || Nat.eqb n 11 || Nat.eqb n 12
   || Nat.eqb n 13 || Nat.eqb n 32 || Nat.eqb n 160)%bool.

Fixpoint trimStart (s : string) : string :=
  match s with
  | EmptyString => EmptyString
  | String c r => if is_white_space c then trimStart r else s
  end.

Fixpoint trimEnd (s : string) : string :=
  match s with
  | EmptyString => EmptyString
  | String c r =>
      match trimEnd r with
      | EmptyString => if is_white_space c then EmptyString else String c EmptyString
      | r' => String c r'
      end
  end.

Definition trim (s : string) : string := trimEnd (trimStart s).

(** ToBoolean of a String: only the empty string is falsy. *)
Definition truthy_string (s : string) : bool :=
  match s with EmptyString => false | _ => true end.

End JS.

(** ** The relational store (supabase-schema.sql) and its requests *)

Module Store.

Record Exercise : Type := {
  e_id : nat;
  e_name : string;
  e_description : option string }.

Record Workout : Type := {
  w_id : nat;
  w_user_id : nat;
  w_name : string;
  w_description : option string;
  w_created_at : Z;
  w_completed_at : option Z }.

Record WorkoutExercise : Type := {
  we_id : nat;
  we_workout_id : nat;
  we_exercise_id : nat;
  we_order : Z;
  we_created_at : Z }.

(** A row of [sets]: [weight] is nullable, [reps] is INTEGER NOT NULL. *)
Record SetRow : Type := {
  s_id : nat;
  s_workout_exercise_id : nat;
  s_weight : option Q;
  s_reps : Z;
  s_completed : bool;
  s_created_at : Z }.

(** The tables; [users] holds the identifiers of [auth.users]. *)
Record Tables : Type := {
  users : list nat;
  exercises : list Exercise;
  workouts : list Workout;
  workout_exercises : list WorkoutExercise;
  sets : list SetRow;
  next_id : nat }.

(** The object handed to [insert] on [sets]; an absent [weight] is sent as
    no value at all. *)
Record NewSet : Type := {
  ns_workout_exercise_id : nat;
  ns_weight : option JS.number;
  ns_reps : JS.number;
  ns_completed : bool }.

Inductive HistoryFilter : Type := FilterAll | FilterCompleted | FilterIncomplete.

Inductive Request : Type :=
| InsertWorkout (name : string) (description : option string) (user_id : nat)
| InsertWorkoutExercise (workout_id exercise_id order : nat)
| InsertSets (rows : list NewSet)
| SelectWorkout (id : nat)
| SelectWorkoutExercises (workout_id : nat)
| SelectPrevious (exercise_id : nat) (before : Z) (user_id : nat)
| SelectHistory (user_id : nat) (f : HistoryFilter)
| UpdateSetCompleted (id : nat) (completed : bool)
| UpdateSetReps (id : nat) (reps : JS.number)
| UpdateSetWeight (id : nat) (weight : option JS.number)
| UpdateWorkoutCompletedAt (id : nat) (at_ : Z).

(** What the screens cannot control: whether the [n]-th request is answered
    with an error (network, policy), and the store's clock at that request. *)
Record Env : Type := {
  fault : nat -> option string;
  clock : nat -> Z }.

(** An alert raised with [Alert.alert (title, message)]. *)
Definition Alert : Type := (string * string)%type.

Record World : Type := {
  tables : Tables;
  log : list (Request * option string);
  alerts : list Alert }.

(** The answer [{ data, error }] of a request: an error or the data. *)
Definition Response (A : Type) : Type := (string + A)%type.

(** *** Ordering *)

Fixpoint insert_by {A : Type} (le : A -> A -> bool) (x : A) (l : list A) : list A :=
  match l with
  | [] => [x]
  | y :: r => if le x y then x :: l else y :: insert_by le x r
  end.

(** A stable sort: equal elements keep their relative order. *)
Definition sort_by {A : Type} (le : A -> A -> bool) (l : list A) : list A :=
  foldr (insert_by le) [] l.

(** *** What the store answers when it refuses *)

Definition unique_violation : string :=
  "duplicate key value violates unique constraint".
Definition not_null_violation : string :=
  "null value violates not-null constraint".
Definition integer_syntax : string :=
  "invalid input syntax for type integer".
Definition single_row_expected : string :=
  "JSON object requested, multiple (or no) rows returned".
Definition value_too_long : string :=
  "value too long for type character varying(255)".
Definition foreign_key_violation : string :=
  "insert or update on table violates foreign key constraint".
Definition integer_out_of_range : string :=
  "value is out of range for type integer".
Definition numeric_overflow : string :=
  "numeric field overflow".

(** *** The types of the columns *)

(** INTEGER: 32 bits, signed. *)
Definition int4 (z : Z) : bool :=
  (Z.leb (-2147483648) z && Z.leb z 2147483647)%bool.

(** The value of an INTEGER column for an integer. *)
Definition integer (z : Z) : Response Z :=
  if int4 z then inr z else inl integer_out_of_range.

(** The value of an INTEGER NOT NULL column for a Number sent as JSON: a
    Number that is not finite is written [null]; one with a fraction, or
    one of 10^21 and more, which is written with an exponent, is not the
    text of an integer. *)
Definition integer_not_null (x : JS.number) : Response Z :=
  match JS.json_number x with
  | None => inl not_null_violation
  | Some q =>
      match JS.as_integer q with
      | None => inl integer_syntax
      | Some z =>
          if Z.ltb (Z.abs z) (10 ^ 21) then integer z else inl integer_syntax
      end
  end.

(** Rounding to the nearest integer, a tie going away from zero, as
    [numeric] rounds. *)
Definition round_half_away (q : Q) : Z :=
  if Qle_bool 0 q then Qfloor (q + (1 # 2)) else Z.opp (Qfloor (Qopp q + (1 # 2))).

(** [z] hundredths, as the one fraction in lowest terms. *)
Definition hundredths (z : Z) : Q := Qred (z # 100).

(** The value of a DECIMAL(5,2) column: rounded to two decimals, and
    refused when the rounded value does not fit in five digits. *)
Definition decimal_5_2 (q : Q) : Response Q :=
  let z := round_half_away (q * 100) in
  if Z.ltb (Z.abs z) 100000 then inr (hundredths z) else inl numeric_overflow.

(** The value of the nullable [weight] column for what is sent: nothing,
    or a Number as JSON ([null] when it is not finite). *)
Definition nullable_decimal (x : option JS.number) : Response (option Q) :=
  match x with
  | None => inr None
  | Some n =>
      match JS.json_number n with
      | None => inr None
      | Some q =>
          match decimal_5_2 q with
          | inl e => inl e
          | inr r => inr (Some r)
          end
      end
  end.

(** *** Statements on the tables *)

(** [name] is VARCHAR(255); [user_id] REFERENCES auth.users. *)
Definition insert_workout (name : string) (description : option string)
    (user_id : nat) (now : Z) (t : Tables) : Response (Workout * Tables) :=
  if Nat.ltb 255 (String.length name) then inl value_too_long
  else if negb (existsb (Nat.eqb user_id) (users t)) then inl foreign_key_violation
  else
    let row := {| w_id := next_id t; w_user_id := user_id; w_name := name;
                  w_description := description; w_created_at := now;
                  w_completed_at := None |} in
    inr (row, {| users := users t;
                 exercises := exercises t;
                 workouts := workouts t ++ [row];
                 workout_exercises := workout_exercises t;
                 sets := sets t;
                 next_id := S (next_id t) |}).

(** ["order"] is INTEGER; UNIQUE (workout_id, exercise_id); [workout_id]
    REFERENCES workouts and [exercise_id] REFERENCES exercises. *)
Definition insert_workout_exercise (workout_id exercise_id order : nat)
    (now : Z) (t : Tables) : Response (WorkoutExercise * Tables) :=
  match integer (Z.of_nat order) with
  | inl e => inl e
  | inr order_ =>
      if existsb (fun r => Nat.eqb (we_workout_id r) workout_id
                           && Nat.eqb (we_exercise_id r) exercise_id)
           (workout_exercises t)
      then inl unique_violation
      else if negb (existsb (fun w => Nat.eqb (w_id w) workout_id) (workouts t)
                    && existsb (fun e => Nat.eqb (e_id e) exercise_id) (exercises t))
      then inl foreign_key_violation
      else
        let row := {| we_id := next_id t; we_workout_id := workout_id;
                      we_exercise_id := exercise_id; we_order := order_;
                      we_created_at := now |} in
        inr (row, {| users := users t;
                     exercises := exercises t;
                     workouts := workouts t;
                     workout_exercises := workout_exercises t ++ [row];
                     sets := sets t;
                     next_id := S (next_id t) |})
  end.

(** The rows of one INSERT into [sets]: all of them, or none when one is
    refused ([reps] INTEGER NOT NULL, [weight] DECIMAL(5,2),
    [workout_exercise_id] REFERENCES workout_exercises). *)
Fixpoint set_rows (t : Tables) (now : Z) (next : nat) (rows : list NewSet)
    : Response (list SetRow) :=
  match rows with
  | [] => inr []
  | r :: rest =>
      match integer_not_null (ns_reps r) with
      | inl e => inl e
      | inr reps =>
          match nullable_decimal (ns_weight r) with
          | inl e => inl e
          | inr weight =>
              if negb (existsb (fun j => Nat.eqb (we_id j) (ns_workout_exercise_id r))
                         (workout_exercises t))
              then inl foreign_key_violation
              else
                match set_rows t now (S next) rest with
                | inl e => inl e
                | inr l =>
                    inr ({| s_id := next;
                            s_workout_exercise_id := ns_workout_exercise_id r;
                            s_weight := weight;
                            s_reps := reps;
                            s_completed := ns_completed r;
                            s_created_at := now |} :: l)
                end
          end
      end
  end.

Definition insert_sets (rows : list NewSet) (now : Z) (t : Tables)
    : Response (unit * Tables) :=
  match set_rows t now (next_id t) rows with
  | inl e => inl e
  | inr l =>
      inr (tt, {| users := users t;
                  exercises := exercises t;
                  workouts := workouts t;
                  workout_exercises := workout_exercises t;
                  sets := sets t ++ l;
                  next_id := next_id t + length l |})
  end.

Definition with_sets (t : Tables) (l : list SetRow) : Tables :=
  {| users := users t; exercises := exercises t; workouts := workouts t;
     workout_exercises := workout_exercises t; sets := l;
     next_id := next_id t |}.

(** [update(...).eq('id', id)] on [sets]. *)
Definition update_set (id : nat) (f : SetRow -> SetRow) (t : Tables) : Tables :=
  with_sets t (map (fun s => if Nat.eqb (s_id s) id then f s else s) (sets t)).

Definition with_completed (b : bool) (s : SetRow) : SetRow :=
  {| s_id := s_id s; s_workout_exercise_id := s_workout_exercise_id s;
     s_weight := s_weight s; s_reps := s_reps s; s_completed := b;
     s_created_at := s_created_at s |}.

Definition with_reps (z : Z) (s : SetRow) : SetRow :=
  {| s_id := s_id s; s_workout_exercise_id := s_workout_exercise_id s;
     s_weight := s_weight s; s_reps := z; s_completed := s_completed s;
     s_created_at := s_created_at s |}.

Definition with_weight (w : option Q) (s : SetRow) : SetRow :=
  {| s_id := s_id s; s_workout_exercise_id := s_workout_exercise_id s;
     s_weight := w; s_reps := s_reps s; s_completed := s_completed s;
     s_created_at := s_created_at s |}.

Definition update_set_completed (id : nat) (b : bool) (now : Z) (t : Tables)
    : Response (unit * Tables) :=
  inr (tt, update_set id (with_completed b) t).

Definition update_set_reps (id : nat) (reps : JS.number) (now : Z) (t : Tables)
    : Response (unit * Tables) :=
  match integer_not_null reps with
  | inl e => inl e
  | inr z => inr (tt, update_set id (with_reps z) t)
  end.

Definition update_set_weight (id : nat) (weight : option JS.number) (now : Z)
    (t : Tables) : Response (unit * Tables) :=
  match nullable_decimal weight with
  | inl e => inl e
  | inr stored => inr (tt, update_set id (with_weight stored) t)
  end.

Definition with_completed_at (c : option Z) (w : Workout) : Workout :=
  {| w_id := w_id w; w_user_id := w_user_id w; w_name := w_name w;
     w_description := w_description w; w_created_at := w_created_at w;
     w_completed_at := c |}.

Definition update_workout_completed_at (id : nat) (at_ : Z) (now : Z)
    (t : Tables) : Response (unit * Tables) :=
  inr (tt, {| users := users t;
              exercises := exercises t;
              workouts := map (fun w => if Nat.eqb (w_id w) id
                                        then with_completed_at (Some at_) w
                                        else w) (workouts t);
              workout_exercises := workout_exercises t;
              sets := sets t;
              next_id := next_id t |}).

(** *** Queries *)

(** [.eq('id', id).single()] on [workouts]. *)
Definition select_workout (id : nat) (now : Z) (t : Tables)
    : Response (Workout * Tables) :=
  match List.filter (fun w => Nat.eqb (w_id w) id) (workouts t) with
  | [w] => inr (w, t)
  | _ => inl single_row_expected
  end.

Definition sets_of (t : Tables) (workout_exercise_id : nat) : list SetRow :=
  List.filter (fun s => Nat.eqb (s_workout_exercise_id s) workout_exercise_id)
    (sets t).

Definition exercise_of (t : Tables) (exercise_id : nat) : option Exercise :=
  List.find (fun e => Nat.eqb (e_id e) exercise_id) (exercises t).

Definition workout_of (t : Tables) (workout_id : nat) : option Workout :=
  List.find (fun w => Nat.eqb (w_id w) workout_id) (workouts t).

(** A [workout_exercises] row with its embedded exercise and sets. *)
Record ExerciseWithSets : Type := {
  ews_id : nat;
  ews_order : Z;
  ews_exercises : option Exercise;
  ews_sets : list SetRow }.

Definition embed_exercise (t : Tables) (r : WorkoutExercise) : ExerciseWithSets :=
  {| ews_id := we_id r; ews_order := we_order r;
     ews_exercises := exercise_of t (we_exercise_id r);
     ews_sets := sets_of t (we_id r) |}.

(** [.eq('workout_id', id).order('order')]. *)
Definition select_workout_exercises (workout_id : nat) (now : Z) (t : Tables)
    : Response (list ExerciseWithSets * Tables) :=
  inr (sort_by (fun a b => Z.leb (ews_order a) (ews_order b))
         (map (embed_exercise t)
            (List.filter (fun r => Nat.eqb (we_workout_id r) workout_id)
               (workout_exercises t))), t).

(** A [workout_exercises] row with its sets and its parent workout
    ([workouts!inner]). *)
Record PreviousRow : Type := {
  pr_id : nat;
  pr_sets : list SetRow;
  pr_workouts : Workout }.

(** The inner join: a row whose parent is missing does not appear. *)
Definition join_parent (t : Tables) (r : WorkoutExercise) : option PreviousRow :=
  match workout_of t (we_workout_id r) with
  | None => None
  | Some w => Some {| pr_id := we_id r; pr_sets := sets_of t (we_id r);
                      pr_workouts := w |}
  end.

(** The rows kept by [.eq('exercise_id', e)], [.lt('workouts.created_at', b)]
    and [.eq('workouts.user_id', u)]. *)
Definition previous_candidates (exercise_id : nat) (before : Z) (user_id : nat)
    (t : Tables) : list PreviousRow :=
  List.filter
    (fun p => Z.ltb (w_created_at (pr_workouts p)) before
              && Nat.eqb (w_user_id (pr_workouts p)) user_id)
    (omap (join_parent t)
       (List.filter (fun r => Nat.eqb (we_exercise_id r) exercise_id)
          (workout_exercises t))).

(** ... then [.order('created_at', { referencedTable: 'workouts',
    ascending: false })] and [.limit(1)].  The order names a referenced
    table, so it is sent as [workouts.order=created_at.desc] and orders the
    workouts embedded in each row, of which there is one; the limit names
    none, so it is sent as [limit=1] and cuts the rows themselves, which
    nothing has ordered. *)
Definition select_previous (exercise_id : nat) (before : Z) (user_id : nat)
    (now : Z) (t : Tables) : Response (list PreviousRow * Tables) :=
  inr (take 1 (previous_candidates exercise_id before user_id t), t).

(** A workout of the history query with its embedded exercises and sets. *)
Record HistoryExercise : Type := {
  he_exercises : option string;
  he_sets : list SetRow }.

Record HistoryRow : Type := {
  hr_workout : Workout;
  hr_workout_exercises : list HistoryExercise }.

Definition embed_history (t : Tables) (w : Workout) : HistoryRow :=
  {| hr_workout := w;
     hr_workout_exercises :=
       map (fun r => {| he_exercises := e_name <$> exercise_of t (we_exercise_id r);
                        he_sets := sets_of t (we_id r) |})
         (List.filter (fun r => Nat.eqb (we_workout_id r) (w_id w))
            (workout_exercises t)) |}.

(** The condition a history filter adds to the query. *)
Definition history_condition (f : HistoryFilter) (w : Workout) : bool :=
  match f with
  | FilterAll => true
  | FilterCompleted => match w_completed_at w with Some _ => true | None => false end
  | FilterIncomplete => match w_completed_at w with Some _ => false | None => true end
  end.

(** [.eq('user_id', u).order('created_at', { ascending: false })] and the
    filter's condition. *)
Definition select_history (user_id : nat) (f : HistoryFilter) (now : Z)
    (t : Tables) : Response (list HistoryRow * Tables) :=
  inr (map (embed_history t)
         (sort_by (fun a b => Z.leb (w_created_at b) (w_created_at a))
            (List.filter
               (fun w => Nat.eqb (w_user_id w) user_id && history_condition f w)
               (workouts t))), t).

(** *** Issuing a request *)

Definition record_request (rq : Request) (e : option string) (t : Tables)
    (w : World) : World :=
  {| tables := t; log := log w ++ [(rq, e)]; alerts := alerts w |}.

(** The [n]-th request is logged with its outcome; when the environment or
    the statement itself answers with an error the tables are left as they
    were. *)
Definition request {A : Type} (env : Env) (rq : Request)
    (exec : Z -> Tables -> Response (A * Tables)) (w : World)
    : Response A * World :=
  let n := length (log w) in
  match fault env n with
  | Some msg => (inl msg, record_request rq (Some msg) (tables w) w)
  | None =>
      match exec (clock env n) (tables w) with
      | inl msg => (inl msg, record_request rq (Some msg) (tables w) w)
      | inr (a, t') => (inr a, record_request rq None t' w)
      end
  end.

Definition alert (title message : string) (w : World) : World :=
  {| tables := tables w; log := log w; alerts := alerts w ++ [(title, message)] |}.

(** *** Asynchronous code that may throw

    The body of a [try] block: a computation on the world that either
    yields a value or stops at the first [throw] with the error's message. *)

Definition M (A : Type) : Type := World -> Response A * World.

Definition ret {A : Type} (a : A) : M A := fun w => (inr a, w).

Definition bind {A B : Type} (m : M A) (k : A -> M B) : M B :=
  fun w =>
    match m w with
    | (inl e, w') => (inl e, w')
    | (inr a, w') => k a w'
    end.

(** [const { data, error } = await rq; if (error) throw error;] *)
Definition await_or_throw {A : Type} (rq : World -> Response A * World) : M A := rq.

Definition tell (title message : string) : M unit :=
  fun w => (inr tt, alert title message w).


End Store.

Notation "x <~ m ;; k" := (Store.bind m (fun x => k))
  (at level 100, m at next level, right associativity).

(** ** CreateWorkoutScreen.tsx *)

Module CreateWorkoutScreen.
Import Store.

Record CreateSetForm : Type := {
  csf_weight : option JS.number;
  csf_reps : JS.number }.

Record CreateExerciseForm : Type := {
  cef_exercise_id : nat;
  cef_sets : list CreateSetForm }.

(** The state of the screen; the screen is mounted for a signed-in user
    only, whose identifier is [user_id]. *)
Record State : Type := {
  workoutName : string;
  workoutDescription : string;
  selectedExercises : list CreateExerciseForm;
  loading : bool;
  user_id : nat }.

Definition setLoading (b : bool) (st : State) : State :=
  {| workoutName := workoutName st;
     workoutDescription := workoutDescription st;
     selectedExercises := selectedExercises st;
     loading := b;
     user_id := user_id st |}.

(** [workoutDescription.trim() || null] *)
Definition description_or_null (s : string) : option string :=
  if JS.truthy_string (JS.trim s) then Some (JS.trim s) else None.

Definition setsToInsert (workout_exercise_id : nat) (exerciseForm : CreateExerciseForm)
    : list NewSet :=
  map (fun set => {| ns_workout_exercise_id := workout_exercise_id;
                     ns_weight := csf_weight set;
                     ns_reps := csf_reps set;
                     ns_completed := false |})
    (cef_sets exerciseForm).

(** The loop [for (let i = 0; i < selectedExercises.length; i++)], entered
    at index [i] with the selections from [i] on. *)
Fixpoint add_exercises (env : Env) (workout_id : nat) (i : nat)
    (forms : list CreateExerciseForm) : M unit :=
  match forms with
  | [] => ret tt
  | exerciseForm :: rest =>
      workoutExerciseData <~
        await_or_throw
          (request env
             (InsertWorkoutExercise workout_id (cef_exercise_id exerciseForm) i)
             (insert_workout_exercise workout_id (cef_exercise_id exerciseForm) i)) ;;
      _ <~
        await_or_throw
          (request env
             (InsertSets (setsToInsert (we_id workoutExerciseData) exerciseForm))
             (insert_sets (setsToInsert (we_id workoutExerciseData) exerciseForm))) ;;
      add_exercises env workout_id (S i) rest
  end.

(** The [try] block of [createWorkout]. *)
Definition create (env : Env) (st : State) : M unit :=
  workoutData <~
    await_or_throw
      (request env
         (InsertWorkout (JS.trim (workoutName st))
            (description_or_null (workoutDescription st)) (user_id st))
         (insert_workout (JS.trim (workoutName st))
            (description_or_null (workoutDescription st)) (user_id st))) ;;
  _ <~ add_exercises env (w_id workoutData) 0 (selectedExercises st) ;;
  tell "Success" "Workout created successfully!".

Definition createWorkout (env : Env) (st : State) (w : World) : State * World :=
  if negb (JS.truthy_string (JS.trim (workoutName st))) then
    (st, alert "Error" "Please enter a workout name" w)
  else if Nat.eqb (length (selectedExercises st)) 0 then
    (st, alert "Error" "Please add at least one exercise" w)
  else
    match create env (setLoading true st) w with
    | (inr _, w') => (setLoading false st, w')
    | (inl message, w') => (setLoading false st, alert "Error" message w')
    end.

End CreateWorkoutScreen.

(** ** WorkoutDetailScreen (fetching, editing sets, completing) *)

Module WorkoutDetailScreen.
Import Store.

(** A set as the screen holds it, decoded from the store's answer. *)
Record SetType : Type := {
  set_id : nat;
  set_weight : option JS.number;
  set_reps : JS.number;
  set_completed : bool;
  set_created_at : Z }.

Definition decode_set (s : SetRow) : SetType :=
  {| set_id := s_id s;
     set_weight := JS.Fin <$> s_weight s;
     set_reps := JS.of_Z (s_reps s);
     set_completed := s_completed s;
     set_created_at := s_created_at s |}.

(** An element of [WorkoutWithExercises.exercises]. *)
Record ExerciseView : Type := {
  workout_exercise_id : nat;
  ex_id : nat;
  ex_name : string;
  ex_description : option string;
  ex_sets : list SetType }.

Record WorkoutWithExercises : Type := {
  wk_row : Workout;
  wk_exercises : list ExerciseView }.

Record PreviousSet : Type := {
  prev_weight : option JS.number;
  prev_reps : option JS.number }.

(** The texts of the two inputs of a set; either may be absent. *)
Record Inputs : Type := {
  in_weight : option string;
  in_reps : option string }.

Record State : Type := {
  workoutId : nat;
  workout : option WorkoutWithExercises;
  loading : bool;
  updating : bool;
  inputValues : gmap nat Inputs;
  previousByExerciseId : gmap nat (list PreviousSet) }.

Definition setLoading (b : bool) (st : State) : State :=
  {| workoutId := workoutId st; workout := workout st; loading := b;
     updating := updating st; inputValues := inputValues st;
     previousByExerciseId := previousByExerciseId st |}.

Definition setUpdating (b : bool) (st : State) : State :=
  {| workoutId := workoutId st; workout := workout st; loading := loading st;
     updating := b; inputValues := inputValues st;
     previousByExerciseId := previousByExerciseId st |}.

Definition setWorkout (wk : option WorkoutWithExercises) (st : State) : State :=
  {| workoutId := workoutId st; workout := wk; loading := loading st;
     updating := updating st; inputValues := inputValues st;
     previousByExerciseId := previousByExerciseId st |}.

Definition setInputValues (f : gmap nat Inputs -> gmap nat Inputs) (st : State) : State :=
  {| workoutId := workoutId st; workout := workout st; loading := loading st;
     updating := updating st; inputValues := f (inputValues st);
     previousByExerciseId := previousByExerciseId st |}.

Definition setPreviousByExerciseId (m : gmap nat (list PreviousSet)) (st : State) : State :=
  {| workoutId := workoutId st; workout := workout st; loading := loading st;
     updating := updating st; inputValues := inputValues st;
     previousByExerciseId := m |}.

Definition no_inputs : Inputs := {| in_weight := None; in_reps := None |}.

(** [{ ...(prev[setId] || {}), weight: t }] and its counterpart for reps. *)
Definition with_weight_text (t : string) (m : gmap nat Inputs) (setId : nat) : Inputs :=
  {| in_weight := Some t; in_reps := in_reps (default no_inputs (m !! setId)) |}.

Definition with_reps_text (t : string) (m : gmap nat Inputs) (setId : nat) : Inputs :=
  {| in_weight := in_weight (default no_inputs (m !! setId)); in_reps := Some t |}.

(** The update of the held workout shared by the three set editors. *)
Definition map_set (setId : nat) (f : SetType -> SetType)
    (wk : WorkoutWithExercises) : WorkoutWithExercises :=
  {| wk_row := wk_row wk;
     wk_exercises :=
       map (fun exercise =>
              {| workout_exercise_id := workout_exercise_id exercise;
                 ex_id := ex_id exercise;
                 ex_name := ex_name exercise;
                 ex_description := ex_description exercise;
                 ex_sets := map (fun set => if Nat.eqb (set_id set) setId
                                            then f set else set)
                              (ex_sets exercise) |})
         (wk_exercises wk) |}.

Definition put_completed (b : bool) (s : SetType) : SetType :=
  {| set_id := set_id s; set_weight := set_weight s; set_reps := set_reps s;
     set_completed := b; set_created_at := set_created_at s |}.

Definition put_reps (r : JS.number) (s : SetType) : SetType :=
  {| set_id := set_id s; set_weight := set_weight s; set_reps := r;
     set_completed := set_completed s; set_created_at := set_created_at s |}.

Definition put_weight (x : option JS.number) (s : SetType) : SetType :=
  {| set_id := set_id s; set_weight := x; set_reps := set_reps s;
     set_completed := set_completed s; set_created_at := set_created_at s |}.

(** The comparator [new Date(a.created_at).getTime() -
    new Date(b.created_at).getTime()], as the order it sorts by. *)
Definition by_created_at (a b : SetRow) : bool := Z.leb (s_created_at a) (s_created_at b).

(** [{ weight: s.weight ?? null, reps: s.reps ?? null }] *)
Definition project (s : SetRow) : PreviousSet :=
  {| prev_weight := JS.Fin <$> s_weight s;
     prev_reps := Some (JS.of_Z (s_reps s)) |}.

(** What one exercise's lookup stores in [prevMap], given the answer. *)
Definition previous_sets (answer : Response (list PreviousRow)) : list PreviousSet :=
  match answer with
  | inr (first :: _) => map project (sort_by by_created_at (pr_sets first))
  | inr [] => []
  | inl _ => []
  end.

(** The lookups of [Promise.all (exercises.map (...))], issued in the order
    of the exercises; none of them throws. *)
Fixpoint fetch_previous (env : Env) (created_at : Z) (user_id : nat)
    (exercises : list ExerciseView) (prevMap : gmap nat (list PreviousSet))
    (w : World) : gmap nat (list PreviousSet) * World :=
  match exercises with
  | [] => (prevMap, w)
  | ex :: rest =>
      let (answer, w') :=
        request env (SelectPrevious (ex_id ex) created_at user_id)
          (select_previous (ex_id ex) created_at user_id) w in
      fetch_previous env created_at user_id rest
        (<[ex_id ex := previous_sets answer]> prevMap) w'
  end.

Definition null_exercise : string := "Cannot read properties of null".

(** The transformation of the joined rows; reading a field of an absent
    exercise throws. *)
Fixpoint transform (rows : list ExerciseWithSets) : Response (list ExerciseView) :=
  match rows with
  | [] => inr []
  | we :: rest =>
      match ews_exercises we with
      | None => inl null_exercise
      | Some e =>
          match transform rest with
          | inl m => inl m
          | inr l =>
              inr ({| workout_exercise_id := ews_id we;
                      ex_id := e_id e;
                      ex_name := e_name e;
                      ex_description := e_description e;
                      ex_sets := map decode_set
                                   (sort_by by_created_at (ews_sets we)) |} :: l)
          end
      end
  end.

Section Runtime.

(** The conversions of the language between Numbers and Strings:
    [String (n)] (also used by template literals) and [Number (s)]. *)
Variable String_of_number : JS.number -> string.
Variable Number_of_string : string -> JS.number.

Definition initial_input (s : SetType) : Inputs :=
  {| in_weight := Some match set_weight s with
                       | Some x => String_of_number x
                       | None => ""
                       end;
     in_reps := Some (String_of_number (set_reps s)) |}.

Definition initialInputs (exercises : list ExerciseView) : gmap nat Inputs :=
  foldl (fun m ex => foldl (fun m s => <[set_id s := initial_input s]> m) m (ex_sets ex))
    ∅ exercises.

(** The [try] block of [fetchWorkoutDetails]. *)
Definition fetch (env : Env) (st : State) : M State :=
  workoutData <~
    await_or_throw (request env (SelectWorkout (workoutId st))
                      (select_workout (workoutId st))) ;;
  workoutExercises <~
    await_or_throw (request env (SelectWorkoutExercises (workoutId st))
                      (select_workout_exercises (workoutId st))) ;;
  exercises <~ (fun w => (transform workoutExercises, w)) ;;
  fun w =>
    let (prevMap, w') :=
      fetch_previous env (w_created_at workoutData) (w_user_id workoutData)
        exercises ∅ w in
    (inr (setWorkout (Some {| wk_row := workoutData; wk_exercises := exercises |})
            (setInputValues (fun _ => initialInputs exercises)
               (setPreviousByExerciseId prevMap st))), w').

Definition fetchWorkoutDetails (env : Env) (st : State) (w : World) : State * World :=
  match fetch env st w with
  | (inr st', w') => (setLoading false st', w')
  | (inl message, w') => (setLoading false st, alert "Error" message w')
  end.

Definition toggleSetCompletion (env : Env) (setId : nat) (completed : bool)
    (st : State) (w : World) : State * World :=
  match await_or_throw
          (request env (UpdateSetCompleted setId (negb completed))
             (update_set_completed setId (negb completed))) w with
  | (inr _, w') =>
      (setUpdating false
         (setWorkout (map_set setId (put_completed (negb completed)) <$> workout st) st),
       w')
  | (inl message, w') => (setUpdating false st, alert "Error" message w')
  end.

(** [Math.max (0, Math.floor (newReps || 0))] *)
Definition safeReps (newReps : JS.number) : JS.number :=
  JS.Math_max (JS.of_Z 0) (JS.Math_floor (JS.or_else newReps (JS.of_Z 0))).

Definition updateSetReps (env : Env) (setId : nat) (newReps : JS.number)
    (st : State) (w : World) : State * World :=
  match await_or_throw
          (request env (UpdateSetReps setId (safeReps newReps))
             (update_set_reps setId (safeReps newReps))) w with
  | (inr _, w') =>
      (setUpdating false
         (setInputValues
            (fun prev => <[setId := with_reps_text (String_of_number (safeReps newReps))
                                      prev setId]> prev)
            (setWorkout (map_set setId (put_reps (safeReps newReps)) <$> workout st) st)),
       w')
  | (inl message, w') => (setUpdating false st, alert "Error" message w')
  end.

(** [newWeight === undefined || isNaN (newWeight) ? null : Number (newWeight)] *)
Definition weightValue (newWeight : option JS.number) : option JS.number :=
  match newWeight with
  | None => None
  | Some x => if JS.isNaN x then None else Some x
  end.

Definition updateSetWeight (env : Env) (setId : nat) (newWeight : option JS.number)
    (st : State) (w : World) : State * World :=
  match await_or_throw
          (request env (UpdateSetWeight setId (weightValue newWeight))
             (update_set_weight setId (weightValue newWeight))) w with
  | (inr _, w') =>
      (setUpdating false
         (setInputValues
            (fun prev => <[setId := with_weight_text
                                      match weightValue newWeight with
                                      | Some x => String_of_number x
                                      | None => ""
                                      end prev setId]> prev)
            (setWorkout (map_set setId (put_weight (weightValue newWeight)) <$> workout st) st)),
       w')
  | (inl message, w') => (setUpdating false st, alert "Error" message w')
  end.

(** [completeWorkout]; [now] is [new Date ()] on the device. *)
Definition completeWorkout (env : Env) (now : Z) (st : State) (w : World)
    : State * World :=
  match await_or_throw
          (request env (UpdateWorkoutCompletedAt (workoutId st) now)
             (update_workout_completed_at (workoutId st) now)) w with
  | (inr _, w') => (st, alert "Success" "Workout completed!" w')
  | (inl message, w') => (st, alert "Error" message w')
  end.

(** *** What is rendered *)

Definition getTotalSets (st : State) : nat :=
  match workout st with
  | None => 0
  | Some wk => foldl (fun total exercise => total + length (ex_sets exercise)) 0
                 (wk_exercises wk)
  end.

Definition getCompletedSets (st : State) : nat :=
  match workout st with
  | None => 0
  | Some wk =>
      foldl (fun total exercise =>
               total + length (List.filter set_completed (ex_sets exercise)))
        0 (wk_exercises wk)
  end.

(** [totalSets > 0 ? (completedSets / totalSets) * 100 : 0] *)
Definition progressPercentage (st : State) : float :=
  if Nat.ltb 0 (getTotalSets st)
  then PrimFloat.mul
         (PrimFloat.div (JS.float_of_nat (getCompletedSets st))
            (JS.float_of_nat (getTotalSets st)))
         100%float
  else 0%float.

(** The number shown before "% complete". *)
Definition percent_complete (st : State) : JS.number :=
  JS.Math_round (JS.of_float (progressPercentage st)).

(** The cell under "Previous" for the set at [setIndex]. *)
Definition prevText (prevSets : list PreviousSet) (setIndex : nat) : string :=
  match prevSets !! setIndex with
  | Some {| prev_weight := Some weight; prev_reps := Some reps |} =>
      (String_of_number weight ++ "x" ++ String_of_number reps)%string
  | _ => "-"
  end.

(** The cells under "Previous" of one exercise card, one per current set. *)
Definition previous_column (st : State) (exercise : ExerciseView) : list string :=
  let prevSets := default [] (previousByExerciseId st !! ex_id exercise) in
  imap (fun setIndex _ => prevText prevSets setIndex) (ex_sets exercise).

(** The "Complete Workout" button: absent while loading, without a workout
    or once [completed_at] is set; otherwise present, with its [disabled]
    flag. *)
Definition complete_button (st : State) : option bool :=
  if loading st then None
  else
    match workout st with
    | None => None
    | Some wk =>
        match w_completed_at (wk_row wk) with
        | Some _ => None
        | None => Some (negb (Nat.eqb (getCompletedSets st) (getTotalSets st)))
        end
    end.

(** The set with identifier [setId] among those rendered. *)
Definition rendered_set (st : State) (setId : nat) : option SetType :=
  if loading st then None
  else
    match workout st with
    | None => None
    | Some wk =>
        List.find (fun s => Nat.eqb (set_id s) setId)
          (concat (map ex_sets (wk_exercises wk)))
    end.

(** What the user and the framework can do to the mounted screen. *)
Inductive Event : Type :=
| Mount
| PressSet (setId : nat)
| ChangeWeightText (setId : nat) (t : string)
| ChangeRepsText (setId : nat) (t : string)
| EndEditingWeight (setId : nat)
| EndEditingReps (setId : nat)
| PressCompleteWorkout (now : Z).

(** [onEndEditing] of the weight input. *)
Definition weight_of_input (currentInputs : Inputs) : option JS.number :=
  match in_weight currentInputs with
  | None => None
  | Some t => if String.eqb t "" then None else Some (Number_of_string t)
  end.

(** [onEndEditing] of the reps input. *)
Definition reps_of_input (currentInputs : Inputs) : JS.number :=
  match in_reps currentInputs with
  | None => JS.of_Z 0
  | Some t => if String.eqb t "" then JS.of_Z 0 else Number_of_string t
  end.

Definition handle (env : Env) (ev : Event) (st : State) (w : World) : State * World :=
  match ev with
  | Mount => fetchWorkoutDetails env st w
  | PressSet setId =>
      match rendered_set st setId with
      | Some set =>
          if updating st then (st, w)
          else toggleSetCompletion env setId (set_completed set) st w
      | None => (st, w)
      end
  | ChangeWeightText setId t =>
      match rendered_set st setId with
      | Some _ =>
          if updating st then (st, w)
          else (setInputValues (fun prevVals => <[setId := with_weight_text t prevVals setId]> prevVals) st, w)
      | None => (st, w)
      end
  | ChangeRepsText setId t =>
      match rendered_set st setId with
      | Some _ =>
          if updating st then (st, w)
          else (setInputValues (fun prevVals => <[setId := with_reps_text t prevVals setId]> prevVals) st, w)
      | None => (st, w)
      end
  | EndEditingWeight setId =>
      match rendered_set st setId with
      | Some _ =>
          if updating st then (st, w)
          else updateSetWeight env setId
                 (weight_of_input (default no_inputs (inputValues st !! setId))) st w
      | None => (st, w)
      end
  | EndEditingReps setId =>
      match rendered_set st setId with
      | Some _ =>
          if updating st then (st, w)
          else updateSetReps env setId
                 (reps_of_input (default no_inputs (inputValues st !! setId))) st w
      | None => (st, w)
      end
  | PressCompleteWorkout now =>
      match complete_button st with
      | Some false => completeWorkout env now st w
      | _ => (st, w)
      end
  end.

End Runtime.

End WorkoutDetailScreen.

(** ** WorkoutHistoryScreen.tsx *)

Module WorkoutHistoryScreen.
Import Store.

(** A workout of the list, with the counts added by the transformation. *)
Record HistoryWorkout : Type := {
  item : HistoryRow;
  totalExercises : nat;
  totalSets : nat;
  completedSets : nat }.

Record State : Type := {
  workouts : list HistoryWorkout;
  loading : bool;
  filter : HistoryFilter;
  user_id : nat }.

Definition completed_at (h : HistoryWorkout) : option Z :=
  w_completed_at (hr_workout (item h)).

Definition setFilter (f : HistoryFilter) (st : State) : State :=
  {| workouts := workouts st; loading := loading st; filter := f;
     user_id := user_id st |}.

Definition transformWorkout (workout : HistoryRow) : HistoryWorkout :=
  {| item := workout;
     totalExercises := length (hr_workout_exercises workout);
     totalSets :=
       foldl (fun total we => total + length (he_sets we)) 0
         (hr_workout_exercises workout);
     completedSets :=
       foldl (fun total we => total + length (List.filter s_completed (he_sets we))) 0
         (hr_workout_exercises workout) |}.

(** [fetchWorkoutHistory]: a failed query is only written to the console. *)
Definition fetchWorkoutHistory (env : Env) (st : State) (w : World) : State * World :=
  match await_or_throw
          (request env (SelectHistory (user_id st) (filter st))
             (select_history (user_id st) (filter st))) w with
  | (inr data, w') =>
      ({| workouts := map transformWorkout data; loading := false;
          filter := filter st; user_id := user_id st |}, w')
  | (inl _, w') =>
      ({| workouts := workouts st; loading := false;
          filter := filter st; user_id := user_id st |}, w')
  end.

(** [total > 0 ? Math.round ((completed / total) * 100) : 0] *)
Definition rate (completed total : nat) : JS.number :=
  if Nat.ltb 0 total
  then JS.Math_round
         (JS.of_float
            (PrimFloat.mul
               (PrimFloat.div (JS.float_of_nat completed) (JS.float_of_nat total))
               100%float))
  else JS.of_Z 0.

Record Stats : Type := {
  stat_totalWorkouts : nat;
  stat_completedWorkouts : nat;
  stat_totalSets : nat;
  stat_completedSets : nat;
  stat_completionRate : JS.number }.

Definition getWorkoutStats (st : State) : Stats :=
  let totalSets_ := foldl (fun sum w => sum + totalSets w) 0 (workouts st) in
  let completedSets_ := foldl (fun sum w => sum + completedSets w) 0 (workouts st) in
  {| stat_totalWorkouts := length (workouts st);
     stat_completedWorkouts :=
       length (List.filter (fun w => bool_decide (is_Some (completed_at w))) (workouts st));
     stat_totalSets := totalSets_;
     stat_completedSets := completedSets_;
     stat_completionRate := rate completedSets_ totalSets_ |}.

(** The percentage on a workout's card. *)
Definition card_percent (h : HistoryWorkout) : JS.number :=
  rate (completedSets h) (totalSets h).

End WorkoutHistoryScreen.

(** ** A small scenario used to exercise the statements *)

Module Scenario.
Import Store.

Definition squat : Exercise :=
  {| e_id := 0; e_name := "Squat"; e_description := None |}.
Definition bench : Exercise :=
  {| e_id := 1; e_name := "Bench press"; e_description := Some "Flat bench" |}.

Definition empty_tables : Tables :=
  {| users := [7; 8];
     exercises := [squat; bench]; workouts := []; workout_exercises := [];
     sets := []; next_id := 2 |}.

Definition fresh : World := {| tables := empty_tables; log := []; alerts := [] |}.

(** A store that answers every request, and one that refuses the [k]-th. *)
Definition reliable : Env :=
  {| fault := fun _ => None; clock := fun n => (1000 + Z.of_nat n)%Z |}.

Definition failing_at (k : nat) : Env :=
  {| fault := fun n => if Nat.eqb n k then Some "network request failed" else None;
     clock := fun n => (1000 + Z.of_nat n)%Z |}.

Definition squats : CreateWorkoutScreen.CreateExerciseForm :=
  {| CreateWorkoutScreen.cef_exercise_id := 0;
     CreateWorkoutScreen.cef_sets :=
       [ {| CreateWorkoutScreen.csf_weight := None;
            CreateWorkoutScreen.csf_reps := JS.of_Z 8 |};
         {| CreateWorkoutScreen.csf_weight := Some (JS.Fin (201 # 2));
            CreateWorkoutScreen.csf_reps := JS.of_Z 6 |} ] |}.

Definition presses : CreateWorkoutScreen.CreateExerciseForm :=
  {| CreateWorkoutScreen.cef_exercise_id := 1;
     CreateWorkoutScreen.cef_sets :=
       [ {| CreateWorkoutScreen.csf_weight := None;
            CreateWorkoutScreen.csf_reps := JS.of_Z 8 |} ] |}.

Definition leg_day : CreateWorkoutScreen.State :=
  {| CreateWorkoutScreen.workoutName := "  Leg day ";
     CreateWorkoutScreen.workoutDescription := "   ";
     CreateWorkoutScreen.selectedExercises := [squats; presses];
     CreateWorkoutScreen.loading := false;
     CreateWorkoutScreen.user_id := 7 |}.


Definition unnamed : CreateWorkoutScreen.State :=
  {| CreateWorkoutScreen.workoutName := "   ";
     CreateWorkoutScreen.workoutDescription := "";
     CreateWorkoutScreen.selectedExercises := CreateWorkoutScreen.selectedExercises leg_day;
     CreateWorkoutScreen.loading := false;
     CreateWorkoutScreen.user_id := 7 |}.

(** [String (n)] for the Numbers of the scenario: integers and short
    decimal fractions. *)
Fixpoint fraction (fuel : nat) (num den : Z) : string :=
  match fuel with
  | O => ""
  | S fuel' =>
      if (num =? 0)%Z then ""
      else NilZero.string_of_int (Z.to_int (10 * num / den))
           ++ fraction fuel' ((10 * num) mod den)%Z den
  end.

Definition decimal (x : JS.number) : string :=
  match x with
  | JS.NaN => "NaN"
  | JS.PosInf => "Infinity"
  | JS.NegInf => "-Infinity"
  | JS.Fin q =>
      let n := Z.abs (Qnum q) in
      let d := Zpos (Qden q) in
      (if (Qnum q <? 0)%Z then "-" else "")
      ++ NilZero.string_of_int (Z.to_int (n / d))
      ++ (if (n mod d =? 0)%Z then "" else "." ++ fraction 20 (n mod d) d)
  end.

(** [Number (s)] for the texts of the scenario: the empty text is 0, a run
    of digits is its value, anything else is NaN. *)
Fixpoint digits_value (s : string) (acc : Z) : option Z :=
  match s with
  | EmptyString => Some acc
  | String c r =>
      let n := nat_of_ascii c in
      if (Nat.leb 48 n && Nat.leb n 57)%bool
      then digits_value r (10 * acc + Z.of_nat (n - 48))%Z
      else None
  end.

Definition number_of_text (s : string) : JS.number :=
  match digits_value s 0%Z with
  | Some z => JS.of_Z z
  | None => JS.NaN
  end.

Definition row (id workout_exercise_id : nat) (weight : option Q) (reps : Z)
    (completed : bool) (created_at : Z) : SetRow :=
  {| s_id := id; s_workout_exercise_id := workout_exercise_id; s_weight := weight;
     s_reps := reps; s_completed := completed; s_created_at := created_at |}.

(** User 7 did squats on Monday and on Wednesday, and has squats and bench
    presses on Friday's workout; user 8 has a workout of their own; a
    workout of user 7 has no exercise at all. *)
Definition gym : Tables :=
  {| users := [7; 8];
     exercises := [squat; bench];
     workouts :=
       [ {| w_id := 10; w_user_id := 7; w_name := "Monday"; w_description := None;
            w_created_at := 100; w_completed_at := Some 150%Z |};
         {| w_id := 11; w_user_id := 7; w_name := "Wednesday"; w_description := None;
            w_created_at := 200; w_completed_at := None |};
         {| w_id := 12; w_user_id := 8; w_name := "Theirs"; w_description := None;
            w_created_at := 250; w_completed_at := None |};
         {| w_id := 13; w_user_id := 7; w_name := "Friday"; w_description := None;
            w_created_at := 300; w_completed_at := None |};
         {| w_id := 14; w_user_id := 7; w_name := "Empty"; w_description := None;
            w_created_at := 400; w_completed_at := None |} ];
     workout_exercises :=
       [ {| we_id := 20; we_workout_id := 10; we_exercise_id := 0; we_order := 0;
            we_created_at := 100 |};
         {| we_id := 21; we_workout_id := 11; we_exercise_id := 0; we_order := 0;
            we_created_at := 200 |};
         {| we_id := 22; we_workout_id := 13; we_exercise_id := 0; we_order := 0;
            we_created_at := 300 |};
         {| we_id := 23; we_workout_id := 13; we_exercise_id := 1; we_order := 1;
            we_created_at := 300 |};
         {| we_id := 24; we_workout_id := 12; we_exercise_id := 1; we_order := 0;
            we_created_at := 250 |} ];
     sets :=
       [ row 30 20 (Some 110%Q) 8 true 101; row 31 20 None 6 true 102;
         row 33 21 (Some 105%Q) 6 true 202; row 32 21 (Some 100%Q) 8 true 201;
         row 34 22 None 8 true 301; row 35 22 (Some 100%Q) 8 false 302;
         row 36 22 None 8 false 303;
         row 37 23 None 8 false 304;
         row 38 24 (Some 60%Q) 10 true 251 ];
     next_id := 40 |}.

Definition at_the_gym : World := {| tables := gym; log := []; alerts := [] |}.

Definition opening (workoutId : nat) : WorkoutDetailScreen.State :=
  {| WorkoutDetailScreen.workoutId := workoutId;
     WorkoutDetailScreen.workout := None;
     WorkoutDetailScreen.loading := true;
     WorkoutDetailScreen.updating := false;
     WorkoutDetailScreen.inputValues := ∅;
     WorkoutDetailScreen.previousByExerciseId := ∅ |}.

(** The detail screen once Friday's workout, or the empty one, is loaded. *)
Definition friday : WorkoutDetailScreen.State * World :=
  WorkoutDetailScreen.handle decimal number_of_text reliable
    WorkoutDetailScreen.Mount (opening 13) at_the_gym.

Definition empty_workout : WorkoutDetailScreen.State * World :=
  WorkoutDetailScreen.handle decimal number_of_text reliable
    WorkoutDetailScreen.Mount (opening 14) at_the_gym.

(** A workout with one exercise of forty sets, the first [done_] of them
    completed, as the detail screen holds it. *)
Definition forty_sets (done_ : nat) : WorkoutDetailScreen.State :=
  {| WorkoutDetailScreen.workoutId := 50;
     WorkoutDetailScreen.workout :=
       Some {| WorkoutDetailScreen.wk_row :=
                 {| w_id := 50; w_user_id := 7; w_name := "Volume";
                    w_description := None; w_created_at := 500;
                    w_completed_at := None |};
               WorkoutDetailScreen.wk_exercises :=
                 [ {| WorkoutDetailScreen.workout_exercise_id := 51;
                      WorkoutDetailScreen.ex_id := 0;
                      WorkoutDetailScreen.ex_name := "Squat";
                      WorkoutDetailScreen.ex_description := None;
                      WorkoutDetailScreen.ex_sets :=
                        map (fun k =>
                               {| WorkoutDetailScreen.set_id := 60 + k;
                                  WorkoutDetailScreen.set_weight := None;
                                  WorkoutDetailScreen.set_reps := JS.of_Z 8;
                                  WorkoutDetailScreen.set_completed := Nat.ltb k done_;
                                  WorkoutDetailScreen.set_created_at := 500 |})
                          (seq 0 40) |} ] |};
     WorkoutDetailScreen.loading := false;
     WorkoutDetailScreen.updating := false;
     WorkoutDetailScreen.inputValues := ∅;
     WorkoutDetailScreen.previousByExerciseId := ∅ |}.

Definition history : WorkoutHistoryScreen.State :=
  {| WorkoutHistoryScreen.workouts := [];
     WorkoutHistoryScreen.loading := true;
     WorkoutHistoryScreen.filter := FilterAll;
     WorkoutHistoryScreen.user_id := 7 |}.

End Scenario.

(** * Properties *)

(** ** Requests and the log *)

Module Requests.
Import Store.

(** An entry of the log that records a request the store answered. *)
Definition answered (e : Request * option string) : Prop := e.2 = None.

(** The entries a computation adds to the log, read against its result:
    a computation that returned was never refused; one that threw was
    refused exactly once, by its last request, with the message thrown. *)
Definition ends_with {A : Type} (res : Response A)
    (entries : list (Request * option string)) : Prop :=
  match res with
  | inr _ => Forall answered entries
  | inl message =>
      exists pre rq, entries = pre ++ [(rq, Some message)] /\ Forall answered pre
  end.

Arguments ends_with : simpl never.

Lemma request_inv {A : Type} env rq (exec : Z -> Tables -> Response (A * Tables))
    w res w' :
  request env rq exec w = (res, w') ->
  alerts w' = alerts w /\
  ((exists message, res = inl message /\ tables w' = tables w
                    /\ log w' = log w ++ [(rq, Some message)])
   \/ (exists a, res = inr a /\ fault env (length (log w)) = None
                 /\ exec (clock env (length (log w))) (tables w) = inr (a, tables w')
                 /\ log w' = log w ++ [(rq, None)])).
Proof.
  unfold request, record_request. intros H.
  destruct (fault env (length (log w))) as [msg|] eqn:Hf.
  - inversion H; subst; simpl. split; [done|]. left. by exists msg.
  - destruct (exec _ _) as [msg|[a t']] eqn:He; inversion H; subst; simpl.
    + split; [done|]. left. by exists msg.
    + split; [done|]. right. by exists a.
Qed.

Lemma ends_with_request_failed {A : Type} rq message :
  @ends_with A (inl message) [(rq, Some message)].
Proof. exists [], rq. by split; [|constructor]. Qed.

Lemma ends_with_cons {A : Type} rq (res : Response A) entries :
  ends_with res entries -> ends_with res ((rq, None) :: entries).
Proof.
  destruct res as [m|a]; unfold ends_with.
  - intros (pre & rq' & -> & Hpre). exists ((rq, None) :: pre), rq'.
    split; [done|]. by constructor.
  - intros H. by constructor.
Qed.

End Requests.

(** ** The values the columns hold *)

Module Columns.
Import Store.

(** [r] is [q] rounded to two decimals: a number of hundredths in lowest
    terms, at most half a hundredth from [q], a tie going away from
    zero. *)
Definition rounded_to_cents (q r : Q) : Prop :=
  (exists z : Z, r = Qred (z # 100))
  /\ (Qabs (q - r) <= 1 # 200)%Q
  /\ ((Qabs (q - r) == 1 # 200)%Q -> (Qabs q < Qabs r)%Q).

(** What the [weight] column holds for what was sent: null for nothing and
    for a Number that is not finite, else the Number rounded to two
    decimals. *)
Definition weight_stored (sent : option JS.number) (stored : option Q) : Prop :=
  match sent with
  | Some (JS.Fin q) => exists r, stored = Some r /\ rounded_to_cents q r
  | _ => stored = None
  end.

(** What the [reps] column holds for what was sent: the integer the
    Number is. *)
Definition reps_stored (sent : JS.number) (stored : Z) : Prop :=
  exists q, sent = JS.Fin q /\ (q == inject_Z stored)%Q.

Lemma hundredths_value z : (hundredths z * 100 == inject_Z z)%Q.
Proof.
  unfold hundredths. rewrite Qred_correct. unfold Qeq, Qmult, inject_Z.
  cbn [Qnum Qden]. change (Z.pos (100 * 1)) with 100%Z. ring.
Qed.

Lemma floor_half z : Qfloor (inject_Z z + (1 # 2)) = z.
Proof.
  unfold Qfloor, Qplus, inject_Z. simpl.
  rewrite Z.mul_1_r. change (Z.pos (1 * 2)) with 2%Z.
  rewrite Z.div_add_l by lia. change (1 / 2)%Z with 0%Z. lia.
Qed.

Lemma round_half_away_Z q z : (q == inject_Z z)%Q -> round_half_away q = z.
Proof.
  intros Hq. unfold round_half_away. destruct (Qle_bool 0 q).
  - rewrite (Qfloor_comp _ (inject_Z z + (1 # 2))) by (by rewrite Hq).
    apply floor_half.
  - rewrite (Qfloor_comp _ (inject_Z (- z) + (1 # 2))).
    + rewrite floor_half. lia.
    + rewrite Hq, inject_Z_opp. reflexivity.
Qed.

Lemma round_half_away_near q :
  (Qabs (q - inject_Z (round_half_away q)) <= 1 # 2)%Q
  /\ ((Qabs (q - inject_Z (round_half_away q)) == 1 # 2)%Q ->
      (Qabs q < Qabs (inject_Z (round_half_away q)))%Q).
Proof.
  unfold round_half_away. destruct (Qle_bool 0 q) eqn:Hs.
  - apply Qle_bool_iff in Hs.
    pose proof (Qfloor_le (q + (1 # 2))) as Hlo.
    pose proof (Qlt_floor (q + (1 # 2))) as Hhi.
    rewrite inject_Z_plus in Hhi. change (inject_Z 1) with 1%Q in Hhi.
    set (a := inject_Z (Qfloor (q + (1 # 2)))) in *.
    split.
    + apply Qabs_Qle_condition. split; lra.
    + intros Htie.
      assert (Ha : (a == q + (1 # 2))%Q).
      { destruct (Qlt_le_dec (q - a) 0) as [Hn|Hp].
        - rewrite Qabs_neg in Htie by lra. lra.
        - rewrite Qabs_pos in Htie by lra. lra. }
      rewrite (Qabs_pos q) by lra. rewrite Qabs_pos by lra. lra.
  - assert (Hneg : (q < 0)%Q).
    { apply Qnot_le_lt. intros H. apply Qle_bool_iff in H. congruence. }
    pose proof (Qfloor_le (- q + (1 # 2))) as Hlo.
    pose proof (Qlt_floor (- q + (1 # 2))) as Hhi.
    rewrite inject_Z_plus in Hhi. change (inject_Z 1) with 1%Q in Hhi.
    rewrite inject_Z_opp.
    set (a := inject_Z (Qfloor (- q + (1 # 2)))) in *.
    split.
    + apply Qabs_Qle_condition. split; lra.
    + intros Htie.
      assert (Ha : (a == - q + (1 # 2))%Q).
      { destruct (Qlt_le_dec (q - - a) 0) as [Hn|Hp].
        - rewrite Qabs_neg in Htie by lra. lra.
        - rewrite Qabs_pos in Htie by lra. lra. }
      rewrite (Qabs_neg q) by lra. rewrite Qabs_neg by lra. lra.
Qed.

Lemma decimal_5_2_rounds q r : decimal_5_2 q = inr r -> rounded_to_cents q r.
Proof.
  unfold decimal_5_2. destruct (Z.ltb _ _); [|done]. intros [= <-].
  pose proof (round_half_away_near (q * 100)) as [Hnear Htie].
  pose proof (hundredths_value (round_half_away (q * 100))) as Hv.
  set (z := round_half_away (q * 100)) in *.
  set (r := hundredths z) in *. set (a := inject_Z z) in *.
  assert (Hd : (Qabs (q - r) * 100 == Qabs (q * 100 - a))%Q).
  { rewrite <- Hv.
    assert (He : (q * 100 - r * 100 == (q - r) * 100)%Q) by ring.
    rewrite He, Qabs_Qmult. rewrite (Qabs_pos 100) by lra. reflexivity. }
  assert (Hq : (Qabs q * 100 == Qabs (q * 100))%Q).
  { rewrite Qabs_Qmult. rewrite (Qabs_pos 100) by lra. reflexivity. }
  assert (Hr : (Qabs r * 100 == Qabs a)%Q).
  { rewrite <- Hv. rewrite Qabs_Qmult. rewrite (Qabs_pos 100) by lra. reflexivity. }
  split_and!.
  - by exists z.
  - lra.
  - intros H. assert (Ht : (Qabs (q * 100 - a) == 1 # 2)%Q) by lra.
    apply Htie in Ht. lra.
Qed.

Lemma decimal_5_2_hundredths z :
  decimal_5_2 (hundredths z)
  = if Z.ltb (Z.abs z) 100000 then inr (hundredths z) else inl numeric_overflow.
Proof.
  unfold decimal_5_2. by rewrite (round_half_away_Z _ z (hundredths_value z)).
Qed.

Lemma nullable_decimal_stored x v : nullable_decimal x = inr v -> weight_stored x v.
Proof.
  unfold nullable_decimal, weight_stored. destruct x as [[q| | |]|]; simpl;
    try (by intros [= <-]).
  destruct (decimal_5_2 q) as [e|r] eqn:Hr; [done|]. intros [= <-].
  exists r. split; [done|]. by apply decimal_5_2_rounds.
Qed.

Lemma integer_inv z z' : integer z = inr z' -> z' = z /\ int4 z = true.
Proof. unfold integer. destruct (int4 z); [|done]. by intros [= <-]. Qed.

Lemma integer_not_null_inv x z :
  integer_not_null x = inr z -> reps_stored x z /\ int4 z = true.
Proof.
  unfold integer_not_null, reps_stored, JS.as_integer.
  destruct x as [q| | |]; simpl; try done.
  destruct (Qeq_bool q (inject_Z (Qfloor q))) eqn:Hq; [|done].
  destruct (Z.ltb _ _); [|done].
  intros [-> Hr]%integer_inv. split; [|done].
  exists q. split; [done|]. by apply Qeq_bool_eq.
Qed.

(** Whole numbers of 32 bits are taken as they are; the others are
    refused. *)
Lemma integer_not_null_of_Z z :
  integer_not_null (JS.of_Z z)
  = if int4 z then inr z
    else inl (if Z.ltb (Z.abs z) (10 ^ 21) then integer_out_of_range
              else integer_syntax).
Proof.
  unfold integer_not_null, JS.of_Z, JS.json_number, JS.as_integer, integer.
  rewrite Qfloor_Z, Qeq_bool_refl.
  destruct (int4 z) eqn:Hz; destruct (Z.ltb (Z.abs z) (10 ^ 21)) eqn:Hb; try done.
  unfold int4 in Hz. apply andb_true_iff in Hz as [H1 H2].
  apply Z.leb_le in H1, H2. apply Z.ltb_ge in Hb.
  assert (10 ^ 21 = 1000000000000000000000)%Z by reflexivity. lia.
Qed.

Lemma nullable_decimal_hundredths z :
  nullable_decimal (Some (JS.Fin (hundredths z)))
  = if Z.ltb (Z.abs z) 100000 then inr (Some (hundredths z)) else inl numeric_overflow.
Proof.
  unfold nullable_decimal. simpl. rewrite decimal_5_2_hundredths.
  by destruct (Z.ltb _ _).
Qed.

End Columns.

(** ** The composer *)

Module Composer.
Import Store CreateWorkoutScreen Requests.

(** The junction row made for the selection at position [i]. *)
Definition exercise_row (workout_id i : nat) (form : CreateExerciseForm)
    (r : WorkoutExercise) : Prop :=
  we_workout_id r = workout_id
  /\ we_exercise_id r = cef_exercise_id form
  /\ we_order r = Z.of_nat i.

(** The set row made for a set of the draft under the junction row [r]:
    not completed, the weight the draft gives rounded to two decimals (an
    absent weight is null) and the reps the draft gives. *)
Definition stored_as (r : WorkoutExercise) (f : CreateSetForm) (s : SetRow) : Prop :=
  s_workout_exercise_id s = we_id r
  /\ s_completed s = false
  /\ Columns.weight_stored (csf_weight f) (s_weight s)
  /\ Columns.reps_stored (csf_reps f) (s_reps s).

(** The rows a run of the loop has made from the selections [forms],
    entered at index [i]: a junction row and a group of set rows for each
    selection of a prefix, possibly followed by one junction row whose
    sets are missing. *)
Inductive composed (workout_id : nat)
  : nat -> list CreateExerciseForm -> list WorkoutExercise -> list (list SetRow) -> Prop :=
| composed_stop i forms : composed workout_id i forms [] []
| composed_half i form rest r :
    exercise_row workout_id i form r ->
    composed workout_id i (form :: rest) [r] []
| composed_step i form rest r g wes groups :
    exercise_row workout_id i form r ->
    Forall2 (stored_as r) (cef_sets form) g ->
    composed workout_id (S i) rest wes groups ->
    composed workout_id i (form :: rest) (r :: wes) (g :: groups).

Lemma insert_workout_exercise_inv workout_id exercise_id order now t r t' :
  insert_workout_exercise workout_id exercise_id order now t = inr (r, t') ->
  exercises t' = exercises t /\ workouts t' = workouts t
  /\ workout_exercises t' = workout_exercises t ++ [r]
  /\ sets t' = sets t /\ next_id t' = S (next_id t)
  /\ we_id r = next_id t /\ we_workout_id r = workout_id
  /\ we_exercise_id r = exercise_id /\ we_order r = Z.of_nat order.
Proof.
  unfold insert_workout_exercise.
  destruct (integer (Z.of_nat order)) as [e|z] eqn:Hz; [done|].
  apply Columns.integer_inv in Hz as [-> _].
  destruct (existsb _ (workout_exercises t)); [done|].
  destruct (negb _); [done|].
  intros H. inversion H; subst; simpl. repeat split.
Qed.

Lemma set_rows_inv t now : forall rows next l,
  set_rows t now next rows = inr l ->
  Forall2 (fun ns s => s_workout_exercise_id s = ns_workout_exercise_id ns
                       /\ s_completed s = ns_completed ns
                       /\ Columns.weight_stored (ns_weight ns) (s_weight s)
                       /\ Columns.reps_stored (ns_reps ns) (s_reps s))
    rows l.
Proof.
  induction rows as [|ns rows IH]; intros next l; simpl.
  - intros H. inversion H. constructor.
  - destruct (integer_not_null (ns_reps ns)) as [e|z] eqn:Hz; [done|].
    destruct (nullable_decimal (ns_weight ns)) as [e|v] eqn:Hv; [done|].
    destruct (negb _); [done|].
    destruct (set_rows t now (S next) rows) as [e|l'] eqn:Hl; [done|].
    intros H. inversion H; subst. constructor; [|by eapply IH]. simpl.
    apply Columns.integer_not_null_inv in Hz as [Hz _].
    apply Columns.nullable_decimal_stored in Hv. done.
Qed.

Lemma insert_sets_inv rows now t u t' :
  insert_sets rows now t = inr (u, t') ->
  exists l,
    exercises t' = exercises t /\ workouts t' = workouts t
    /\ workout_exercises t' = workout_exercises t
    /\ sets t' = sets t ++ l /\ next_id t' = next_id t + length l
    /\ set_rows t now (next_id t) rows = inr l.
Proof.
  unfold insert_sets. destruct (set_rows t now (next_id t) rows) as [e|l] eqn:Hl; [done|].
  intros H. inversion H; subst; simpl. by exists l.
Qed.

Lemma setsToInsert_stored t r form l now next :
  set_rows t now next (setsToInsert (we_id r) form) = inr l ->
  Forall2 (stored_as r) (cef_sets form) l.
Proof.
  intros H. apply set_rows_inv in H. unfold setsToInsert in H.
  apply Forall2_fmap_l in H. eapply Forall2_impl; [exact H|].
  intros f s'. simpl. unfold stored_as. tauto.
Qed.

(** What a run of the loop leaves behind, whether it returns or throws. *)
Lemma add_exercises_spec env workout_id : forall forms i w res w',
  add_exercises env workout_id i forms w = (res, w') ->
  exists wes groups entries,
    exercises (tables w') = exercises (tables w)
    /\ workouts (tables w') = workouts (tables w)
    /\ workout_exercises (tables w') = workout_exercises (tables w) ++ wes
    /\ sets (tables w') = sets (tables w) ++ concat groups
    /\ alerts w' = alerts w
    /\ log w' = log w ++ entries
    /\ ends_with res entries
    /\ composed workout_id i forms wes groups
    /\ match res with
       | inr _ => length groups = length forms
       | inl _ => length groups < length forms
       end
    /\ length entries
       = length wes + length groups + match res with inl _ => 1 | inr _ => 0 end
    /\ next_id (tables w) <= next_id (tables w')
    /\ Forall (fun r => next_id (tables w) <= we_id r) wes
    /\ NoDup (map we_id wes).
Proof.
  induction forms as [|form rest IH]; intros i w res w' H; simpl in H.
  - inversion H; subst. exists [], [], []. simpl.
    rewrite !app_nil_r. split_and!; try done; constructor.
  - unfold bind, await_or_throw in H.
    destruct (request env (InsertWorkoutExercise _ _ _) _ w) as [r1 w1] eqn:H1.
    apply request_inv in H1 as [Ha1 [(m & -> & Ht & Hl)|(r & -> & _ & He & Hl)]].
    { injection H as <- <-.
      exists [], [], [(InsertWorkoutExercise workout_id (cef_exercise_id form) i, Some m)].
      rewrite Ht. simpl. rewrite !app_nil_r.
      split_and!; try done.
      - apply ends_with_request_failed.
      - constructor.
      - lia.
      - constructor. }
    apply insert_workout_exercise_inv in He
      as (Hex & Hwo & Hwe & Hse & Hid & Hrid & Hrw & Hre & Hro).
    assert (Hrow : exercise_row workout_id i form r) by done.
    destruct (request env (InsertSets _) _ w1) as [r2 w2] eqn:H2.
    apply request_inv in H2 as [Ha2 [(m & -> & Ht & Hl2)|(u & -> & _ & He2 & Hl2)]].
    { injection H as <- <-.
      exists [r], [], [(InsertWorkoutExercise workout_id (cef_exercise_id form) i, None); (InsertSets (setsToInsert (we_id r) form), Some m)].
      rewrite Ht, Hex, Hwo, Hwe, Hse, Hl2, Hl, Ha2, Ha1. simpl. rewrite !app_nil_r, <- !app_assoc.
      split_and!; try done; try lia.
      - apply ends_with_cons, ends_with_request_failed.
      - by constructor.
      - constructor; [lia|constructor].
      - constructor; [apply not_elem_of_nil|constructor]. }
    apply insert_sets_inv in He2 as (l & Hex2 & Hwo2 & Hwe2 & Hse2 & Hid2 & Hrows).
    apply setsToInsert_stored in Hrows.
    apply IH in H as (wes & groups & entries & Hex3 & Hwo3 & Hwe3 & Hse3 & Ha3
                      & Hl3 & Hend & Hcomp & Hlen & Hcount & Hid3 & Hlo & Hnd).
    exists (r :: wes), (l :: groups),
      ((InsertWorkoutExercise workout_id (cef_exercise_id form) i, None)
       :: (InsertSets (setsToInsert (we_id r) form), None) :: entries).
    rewrite Hex3, Hwo3, Hwe3, Hse3, Ha3, Hl3, Hex2, Hwo2, Hwe2, Hse2, Hl2, Hex, Hwo, Hwe, Hse, Hl, Ha2, Ha1.
    simpl. rewrite <- !app_assoc. simpl.
    assert (Hge : S (next_id (tables w)) <= next_id (tables w2))
      by (rewrite Hid2, Hid; lia).
    split_and!; try done.
    + by do 2 apply ends_with_cons.
    + by constructor.
    + destruct res; simpl; lia.
    + lia.
    + lia.
    + constructor; [lia|]. eapply Forall_impl; [exact Hlo|]. simpl. intros; lia.
    + constructor; [|done]. rewrite list_elem_of_fmap. intros (r' & Heq & Hin).
      rewrite Forall_forall in Hlo. apply Hlo in Hin. lia.
Qed.

Lemma insert_workout_inv name description user_id now t row t' :
  insert_workout name description user_id now t = inr (row, t') ->
  exercises t' = exercises t /\ workouts t' = workouts t ++ [row]
  /\ workout_exercises t' = workout_exercises t
  /\ sets t' = sets t /\ next_id t' = S (next_id t)
  /\ w_id row = next_id t /\ w_name row = name
  /\ w_description row = description /\ w_user_id row = user_id
  /\ w_completed_at row = None.
Proof.
  unfold insert_workout. destruct (Nat.ltb _ _); [done|]. destruct (negb _); [done|].
  intros H. inversion H; subst; simpl. repeat split.
Qed.






Lemma filter_keep {A : Type} (f : A -> bool) l :
  Forall (fun x => f x = true) l -> List.filter f l = l.
Proof. induction 1 as [|x l Hx _ IH]; simpl; [done|]. by rewrite Hx, IH. Qed.

Lemma filter_drop {A : Type} (f : A -> bool) l :
  Forall (fun x => f x = false) l -> List.filter f l = [].
Proof. induction 1 as [|x l Hx _ IH]; simpl; [done|]. by rewrite Hx. Qed.


(** What the [try] block of [createWorkout] leaves behind. *)
Lemma create_spec env st w res w' :
  create env st w = (res, w') ->
  (exists message,
      res = inl message /\ tables w' = tables w /\ alerts w' = alerts w
      /\ log w' = log w ++ [(InsertWorkout (JS.trim (workoutName st))
                               (description_or_null (workoutDescription st))
                               (user_id st), Some message)])
  \/ (exists row wes groups entries,
        w_id row = next_id (tables w)
        /\ w_name row = JS.trim (workoutName st)
        /\ w_description row = description_or_null (workoutDescription st)
        /\ w_user_id row = user_id st
        /\ w_completed_at row = None
        /\ exercises (tables w') = exercises (tables w)
        /\ workouts (tables w') = workouts (tables w) ++ [row]
        /\ workout_exercises (tables w') = workout_exercises (tables w) ++ wes
        /\ sets (tables w') = sets (tables w) ++ concat groups
        /\ log w' = log w ++ (InsertWorkout (JS.trim (workoutName st))
                                (description_or_null (workoutDescription st))
                                (user_id st), None) :: entries
        /\ ends_with res entries
        /\ composed (w_id row) 0 (selectedExercises st) wes groups
        /\ match res with
           | inr _ => length groups = length (selectedExercises st)
                      /\ alerts w' = alerts w ++ [("Success", "Workout created successfully!")]
           | inl _ => length groups < length (selectedExercises st)
                      /\ alerts w' = alerts w
           end
        /\ length entries
           = length wes + length groups + match res with inl _ => 1 | inr _ => 0 end
        /\ Forall (fun r => next_id (tables w) < we_id r) wes
        /\ NoDup (map we_id wes)).
Proof.
  unfold create, bind, await_or_throw. intros H.
  destruct (request env (InsertWorkout _ _ _) _ w) as [r1 w1] eqn:H1.
  apply request_inv in H1 as [Ha1 [(m & -> & Ht & Hl)|(row & -> & _ & He & Hl)]].
  { injection H as <- <-. left. by exists m. }
  right. apply insert_workout_inv in He
    as (Hex & Hwo & Hwe & Hse & Hid & Hrid & Hrn & Hrd & Hru & Hrc).
  destruct (add_exercises env (w_id row) 0 (selectedExercises st) w1) as [r2 w2] eqn:H2.
  apply add_exercises_spec in H2
    as (wes & groups & entries & Hex2 & Hwo2 & Hwe2 & Hse2 & Ha2 & Hl2 & Hend
        & Hcomp & Hlen & Hcount & Hid2 & Hlo & Hnd).
  exists row, wes, groups, entries.
  assert (Hlo' : Forall (fun r => next_id (tables w) < we_id r) wes).
  { eapply Forall_impl; [exact Hlo|]. simpl. intros; lia. }
  destruct r2 as [m|u].
  - injection H as <- <-.
    rewrite Hex2, Hwo2, Hwe2, Hse2, Hl2, Hex, Hwo, Hwe, Hse, Hl, Ha2, Ha1, <- app_assoc.
    by split_and!.
  - unfold tell in H. injection H as <- <-. simpl.
    rewrite Hex2, Hwo2, Hwe2, Hse2, Hl2, Hex, Hwo, Hwe, Hse, Hl, Ha2, Ha1, <- app_assoc.
    by split_and!.
Qed.

(** The two early returns of [createWorkout] issue no request and alert
    an error. *)
Lemma validation_alert env st w :
  JS.trim (workoutName st) = "" \/ selectedExercises st = [] ->
  log (createWorkout env st w).2 = log w
  /\ exists message, alerts (createWorkout env st w).2 = alerts w ++ [("Error", message)].
Proof.
  intros H. unfold createWorkout.
  destruct (JS.truthy_string (JS.trim (workoutName st))) eqn:Hn; simpl.
  - destruct H as [H|H]; [by rewrite H in Hn|]. rewrite H. simpl. eauto.
  - eauto.
Qed.

(** C8. Validation comes before every request: with a blank name (empty
    once trimmed) or with no exercise selected, [createWorkout] raises the
    validation alert and nothing else happens: no request is issued, the
    tables and the screen's state are as before. *)
Theorem createWorkout_validates_first env st w :
  JS.trim (workoutName st) = "" \/ selectedExercises st = [] ->
  (createWorkout env st w).1 = st
  /\ log (createWorkout env st w).2 = log w
  /\ tables (createWorkout env st w).2 = tables w
  /\ alerts (createWorkout env st w).2
     = alerts w ++ [("Error",
                     if decide (JS.trim (workoutName st) = "")
                     then "Please enter a workout name"
                     else "Please add at least one exercise")].
Proof.
  intros H. unfold createWorkout.
  destruct (decide (JS.trim (workoutName st) = "")) as [Hn|Hn].
  - rewrite Hn. simpl. done.
  - destruct H as [H|H]; [done|].
    destruct (JS.trim (workoutName st)) eqn:Ht; [done|]. simpl.
    rewrite H. simpl. done.
Qed.

Lemma createWorkout_validates_first_witness :
  log (createWorkout Scenario.reliable Scenario.unnamed Scenario.fresh).2 = []
  /\ alerts (createWorkout Scenario.reliable Scenario.unnamed Scenario.fresh).2
     = [("Error", "Please enter a workout name")].
Proof.
  destruct (createWorkout_validates_first Scenario.reliable Scenario.unnamed
              Scenario.fresh (or_introl eq_refl)) as (_ & Hl & _ & Ha).
  split; [exact Hl | exact Ha].
Defined.

Lemma createWorkout_cases env st w :
  JS.trim (workoutName st) <> "" -> selectedExercises st <> [] ->
  createWorkout env st w
  = match create env (setLoading true st) w with
    | (inr _, w') => (setLoading false st, w')
    | (inl message, w') => (setLoading false st, alert "Error" message w')
    end.
Proof.
  intros Hn Hs. unfold createWorkout.
  destruct (JS.trim (workoutName st)); [done|]. simpl.
  destruct (selectedExercises st); [done|]. done.
Qed.




(** C7. When a request of [createWorkout] is answered with an error, it is
    the last request the run issues and every request before it was
    answered; its message is the one shown.  Nothing is undone: the rows
    made by the requests that were answered (one workout row, then a
    junction row and a group of set rows per selection of a prefix of the
    draft, and possibly one more junction row) are appended to the tables,
    which otherwise are as they were. *)
Theorem createWorkout_failure env st w entries rq message :
  log (createWorkout env st w).2 = log w ++ entries ->
  (rq, Some message) ∈ entries ->
  exists pre wrows wes groups,
    entries = pre ++ [(rq, Some message)]
    /\ Forall answered pre
    /\ alerts (createWorkout env st w).2 = alerts w ++ [("Error", message)]
    /\ exercises (tables (createWorkout env st w).2) = exercises (tables w)
    /\ workouts (tables (createWorkout env st w).2) = workouts (tables w) ++ wrows
    /\ workout_exercises (tables (createWorkout env st w).2)
       = workout_exercises (tables w) ++ wes
    /\ sets (tables (createWorkout env st w).2) = sets (tables w) ++ concat groups
    /\ length pre = length wrows + length wes + length groups
    /\ (pre <> [] ->
        exists row,
          wrows = [row]
          /\ w_name row = JS.trim (workoutName st)
          /\ w_user_id row = user_id st
          /\ w_completed_at row = None
          /\ composed (w_id row) 0 (selectedExercises st) wes groups
          /\ length groups < length (selectedExercises st)).
Proof.
  intros Hlog Hin.
  assert (Hlast : forall pre' rq' m', Forall answered pre' ->
            entries = pre' ++ [(rq', Some m')] -> pre' ++ [(rq', Some m')] = pre' ++ [(rq, Some message)]).
  { intros pre' rq' m' Hpre ->. apply elem_of_app in Hin as [Hin|Hin].
    - rewrite Forall_forall in Hpre. apply Hpre in Hin. done.
    - apply list_elem_of_singleton in Hin. by rewrite Hin. }
  destruct (decide (JS.trim (workoutName st) = "")) as [Hn|Hn].
  { destruct (validation_alert env st w (or_introl Hn)) as (Hl' & _).
    rewrite Hl' in Hlog. rewrite <- (app_nil_r (log w)) in Hlog at 1.
    apply app_inv_head in Hlog. subst entries. by apply not_elem_of_nil in Hin. }
  destruct (decide (selectedExercises st = [])) as [Hs|Hs].
  { destruct (validation_alert env st w (or_intror Hs)) as (Hl' & _).
    rewrite Hl' in Hlog. rewrite <- (app_nil_r (log w)) in Hlog at 1.
    apply app_inv_head in Hlog. subst entries. by apply not_elem_of_nil in Hin. }
  rewrite createWorkout_cases in Hlog |- * by done.
  destruct (create env (setLoading true st) w) as [res w'] eqn:Hc.
  apply create_spec in Hc as [(m & -> & Ht & Ha' & Hl)|Hc].
  { simpl in Hlog |- *. rewrite Hl in Hlog. apply app_inv_head in Hlog.
    specialize (Hlast [] _ m ltac:(constructor) (eq_sym Hlog)). simpl in Hlast.
    injection Hlast as <- <-.
    exists [], [], [], []. rewrite Ht, Ha'. simpl. rewrite !app_nil_r.
    split_and!; try done. }
  destruct Hc as (row & wes & groups & entries' & Hrid & Hrn & Hrd & Hru & Hrc & Hex
                  & Hwo & Hwe & Hse & Hl & Hend & Hcomp & Hres & Hcount & Hlo & Hnd).
  simpl in Hrn, Hrd, Hru, Hcomp, Hres.
  destruct res as [m|u]; simpl in Hlog |- *.
  - rewrite Hl in Hlog. apply app_inv_head in Hlog.
    destruct Hend as (pre & rq' & -> & Hpre). destruct Hres as [Hlen Ha'].
    assert (Hpre' : Forall answered ((InsertWorkout (JS.trim (workoutName st))
              (description_or_null (workoutDescription st)) (user_id st), None) :: pre))
      by (by constructor).
    specialize (Hlast _ _ m Hpre' (eq_sym Hlog)).
    apply app_inj_tail in Hlast as [_ Heq]. injection Heq as -> ->.
    eexists _, [row], wes, groups. rewrite Hex, Hwo, Hwe, Hse, Ha'.
    split_and!; try done.
    + by rewrite <- Hlog.
    + simpl. rewrite length_app in Hcount. simpl in Hcount. lia.
    + intros _. exists row. split_and!; done.
  - rewrite Hl in Hlog. apply app_inv_head in Hlog. subst entries.
    apply elem_of_cons in Hin as [Hin|Hin]; [done|].
    unfold ends_with in Hend. rewrite Forall_forall in Hend. apply Hend in Hin. done.
Qed.

(** Composing a workout never touches the workout rows already there. *)
Lemma createWorkout_keeps_workouts env st w k row :
  workouts (tables w) !! k = Some row ->
  workouts (tables (createWorkout env st w).2) !! k = Some row.
Proof.
  intros Hk. unfold createWorkout.
  destruct (JS.truthy_string (JS.trim (workoutName st))); simpl; [|done].
  destruct (Nat.eqb (length (selectedExercises st)) 0); [done|].
  destruct (create env (setLoading true st) w) as [res w'] eqn:Hc.
  apply create_spec in Hc as [(m & -> & Ht & _)|Hc].
  - simpl. by rewrite Ht.
  - destruct Hc as (r & wes & groups & entries & _ & _ & _ & _ & _ & _ & Hwo & _).
    assert (Hk' : workouts (tables w') !! k = Some row).
    { rewrite Hwo. by apply lookup_app_l_Some. }
    by destruct res.
Qed.

Lemma createWorkout_failure_witness :
  alerts (createWorkout (Scenario.failing_at 2) Scenario.leg_day Scenario.fresh).2
  = [("Error", "network request failed")]
  /\ length (workouts (tables (createWorkout (Scenario.failing_at 2) Scenario.leg_day
                                 Scenario.fresh).2)) = 1
  /\ length (workout_exercises (tables (createWorkout (Scenario.failing_at 2)
                                          Scenario.leg_day Scenario.fresh).2)) = 1
  /\ sets (tables (createWorkout (Scenario.failing_at 2) Scenario.leg_day
                     Scenario.fresh).2) = [].
Proof.
  assert (Hin : (InsertSets (setsToInsert 3 Scenario.squats), Some "network request failed")
                ∈ log (createWorkout (Scenario.failing_at 2) Scenario.leg_day
                         Scenario.fresh).2).
  { vm_compute. do 2 apply list_elem_of_further. apply list_elem_of_here. }
  destruct (createWorkout_failure (Scenario.failing_at 2) Scenario.leg_day Scenario.fresh
              _ _ _ eq_refl Hin)
    as (pre & wrows & wes & groups & _ & _ & Ha & _ & _ & _ & _ & _ & _).
  split; [exact Ha|]. vm_compute. done.
Defined.

End Composer.

(** ** The stable sort *)

Module Sorting.
Import Store.

Section Order.
Context {A : Type} (le : A -> A -> bool).
Hypothesis le_total : forall a b, le a b = false -> le b a = true.
Hypothesis le_trans : forall a b c, le a b = true -> le b c = true -> le a c = true.

Lemma insert_by_perm x l : insert_by le x l ≡ₚ x :: l.
Proof using Type.
  induction l as [|y l IH]; simpl; [done|].
  destruct (le x y); [done|]. rewrite IH. apply Permutation_swap.
Qed.

Lemma sort_by_perm l : sort_by le l ≡ₚ l.
Proof using Type.
  unfold sort_by. induction l as [|x l IH]; simpl; [done|].
  rewrite insert_by_perm. by constructor.
Qed.

Lemma insert_by_sorted x l :
  StronglySorted (fun a b => le a b = true) l ->
  StronglySorted (fun a b => le a b = true) (insert_by le x l).
Proof using le_total le_trans.
  induction 1 as [|y l Hl IH Hy]; simpl.
  - repeat constructor.
  - destruct (le x y) eqn:Hxy.
    + constructor; [by constructor|]. constructor; [done|].
      eapply Forall_impl; [exact Hy|]. simpl. eauto.
    + constructor; [done|]. rewrite insert_by_perm. constructor; [|done]. eauto.
Qed.

Lemma sort_by_sorted l : StronglySorted (fun a b => le a b = true) (sort_by le l).
Proof using le_total le_trans.
  unfold sort_by. induction l as [|x l IH]; simpl; [constructor|].
  by apply insert_by_sorted.
Qed.

Lemma insert_by_below x l :
  Forall (fun z => le x z = true) l -> insert_by le x l = x :: l.
Proof using Type. destruct 1 as [|z l Hz _]; simpl; [done|]. by rewrite Hz. Qed.

Lemma filter_insert_by (p : A -> bool) x l :
  StronglySorted (fun a b => le a b = true) l ->
  List.filter p (insert_by le x l)
  = if p x then insert_by le x (List.filter p l) else List.filter p l.
Proof using le_trans.
  induction 1 as [|y l Hl IH Hy].
  - simpl. by destruct (p x).
  - cbn [insert_by]. destruct (le x y) eqn:Hxy.
    + change (List.filter p (x :: y :: l))
        with (if p x then x :: List.filter p (y :: l) else List.filter p (y :: l)).
      destruct (p x); [|done]. rewrite insert_by_below; [done|].
      assert (Hall : Forall (fun z => le x z = true) (y :: l)).
      { constructor; [done|]. eapply Forall_impl; [exact Hy|]. simpl. eauto. }
      rewrite Forall_forall in Hall |- *. intros z Hz. apply Hall.
      apply list_elem_of_In in Hz. apply filter_In in Hz as [Hz _].
      by apply list_elem_of_In.
    + change (List.filter p (y :: insert_by le x l))
        with (if p y then y :: List.filter p (insert_by le x l)
              else List.filter p (insert_by le x l)).
      rewrite IH. simpl. destruct (p x), (p y); simpl; by rewrite ?Hxy.
Qed.

(** Filtering commutes with the stable sort. *)
Lemma filter_sort_by (p : A -> bool) l :
  List.filter p (sort_by le l) = sort_by le (List.filter p l).
Proof using le_total le_trans.
  induction l as [|x l IH]; simpl; [done|].
  change (sort_by le (x :: l)) with (insert_by le x (sort_by le l)).
  rewrite filter_insert_by by apply sort_by_sorted.
  rewrite IH. by destruct (p x).
Qed.

(** The first element of the sorted list is below every element. *)
Lemma sort_by_first x l' l :
  sort_by le l = x :: l' -> forall y, y ∈ l -> le x y = true \/ y = x.
Proof using le_total le_trans.
  intros Hs y Hy. pose proof (sort_by_sorted l) as Hsorted.
  rewrite <- (sort_by_perm l), Hs in Hy. rewrite Hs in Hsorted.
  apply StronglySorted_inv in Hsorted as [_ Hall].
  apply elem_of_cons in Hy as [->|Hy]; [by right|left].
  rewrite Forall_forall in Hall. by apply Hall.
Qed.

End Order.

Lemma Z_leb_total (a b : Z) : Z.leb a b = false -> Z.leb b a = true.
Proof. rewrite Z.leb_gt, Z.leb_le. lia. Qed.

Lemma Z_leb_trans (a b c : Z) : Z.leb a b = true -> Z.leb b c = true -> Z.leb a c = true.
Proof. rewrite !Z.leb_le. lia. Qed.

End Sorting.

(** ** The history filters *)

Module History.
Import Store WorkoutHistoryScreen.

Lemma filter_map {A B : Type} (f : A -> B) (p : B -> bool) l :
  List.filter p (map f l) = map f (List.filter (fun x => p (f x)) l).
Proof.
  induction l as [|x l IH]; simpl; [done|]. rewrite IH. by destruct (p (f x)).
Qed.

Lemma filter_filter {A : Type} (p q : A -> bool) l :
  List.filter p (List.filter q l) = List.filter (fun x => q x && p x) l.
Proof.
  induction l as [|x l IH]; simpl; [done|].
  destruct (q x); simpl; [|done]. rewrite IH. by destruct (p x).
Qed.

Lemma filter_ext_bool {A : Type} (p q : A -> bool) l :
  (forall x, p x = q x) -> List.filter p l = List.filter q l.
Proof. intros H. induction l as [|x l IH]; simpl; [done|]. by rewrite H, IH. Qed.

Lemma filter_split_perm {A : Type} (p : A -> bool) l :
  List.filter p l ++ List.filter (fun x => negb (p x)) l ≡ₚ l.
Proof.
  induction l as [|x l IH]; simpl; [done|].
  destruct (p x); simpl.
  - by constructor.
  - rewrite <- Permutation_middle. by constructor.
Qed.

(** The list shown after [setFilter f] and the fetch it triggers. *)
Definition shown (env : Env) (f : HistoryFilter) (st : State) (w : World)
    : list HistoryWorkout :=
  workouts (fetchWorkoutHistory env (setFilter f st) w).1.

Definition is_completed (h : HistoryWorkout) : bool :=
  match completed_at h with Some _ => true | None => false end.

Lemma shown_answered env f st w :
  fault env (length (log w)) = None ->
  shown env f st w
  = map (fun x => transformWorkout (embed_history (tables w) x))
      (sort_by (fun a b => Z.leb (w_created_at b) (w_created_at a))
         (List.filter (fun x => Nat.eqb (w_user_id x) (user_id st) && history_condition f x)
            (Store.workouts (tables w)))).
Proof.
  intros Hf. unfold shown, fetchWorkoutHistory, await_or_throw, request.
  rewrite Hf. simpl. by rewrite map_map.
Qed.

(** C6. For any store, when the three queries are answered: the list
    under 'completed' is the list under 'all' restricted to the workouts
    whose [completed_at] is set, the list under 'incomplete' is the list
    under 'all' restricted to those whose [completed_at] is null, no
    workout is in both, and together they are a rearrangement of the list
    under 'all' (nothing lost, nothing repeated). *)
Theorem history_filters_partition env st w :
  fault env (length (log w)) = None ->
  shown env FilterCompleted st w = List.filter is_completed (shown env FilterAll st w)
  /\ shown env FilterIncomplete st w
     = List.filter (fun h => negb (is_completed h)) (shown env FilterAll st w)
  /\ (forall h, h ∈ shown env FilterCompleted st w -> completed_at h <> None)
  /\ (forall h, h ∈ shown env FilterIncomplete st w -> completed_at h = None)
  /\ (forall h, h ∈ shown env FilterCompleted st w ->
                h ∈ shown env FilterIncomplete st w -> False)
  /\ shown env FilterCompleted st w ++ shown env FilterIncomplete st w
     ≡ₚ shown env FilterAll st w.
Proof.
  intros Hf.
  assert (Hc : shown env FilterCompleted st w
               = List.filter is_completed (shown env FilterAll st w)).
  { rewrite !shown_answered by done.
    rewrite filter_map, Sorting.filter_sort_by, filter_filter;
      [|intros a b; apply Sorting.Z_leb_total
       |intros a b c H1 H2; exact (Sorting.Z_leb_trans _ _ _ H2 H1)].
    do 2 f_equal.
    apply filter_ext_bool. intros x. unfold is_completed, completed_at. simpl.
    by destruct (w_completed_at x); rewrite ?andb_true_r. }
  assert (Hi : shown env FilterIncomplete st w
               = List.filter (fun h => negb (is_completed h)) (shown env FilterAll st w)).
  { rewrite !shown_answered by done.
    rewrite filter_map, Sorting.filter_sort_by, filter_filter;
      [|intros a b; apply Sorting.Z_leb_total
       |intros a b c H1 H2; exact (Sorting.Z_leb_trans _ _ _ H2 H1)].
    do 2 f_equal.
    apply filter_ext_bool. intros x. unfold is_completed, completed_at. simpl.
    by destruct (w_completed_at x); rewrite ?andb_true_r. }
  assert (Hc' : forall h, h ∈ shown env FilterCompleted st w -> completed_at h <> None).
  { intros h. rewrite Hc, list_elem_of_In, filter_In. unfold is_completed.
    intros [_ Hh]. by destruct (completed_at h). }
  assert (Hi' : forall h, h ∈ shown env FilterIncomplete st w -> completed_at h = None).
  { intros h. rewrite Hi, list_elem_of_In, filter_In. unfold is_completed.
    intros [_ Hh]. by destruct (completed_at h). }
  split_and!; try done.
  - intros h H1 H2. apply Hc' in H1. by apply Hi' in H2.
  - rewrite Hc, Hi. apply filter_split_perm.
Qed.

Lemma history_filters_partition_witness :
  map (fun h => w_id (hr_workout (item h)))
    (shown Scenario.reliable FilterCompleted Scenario.history Scenario.at_the_gym) = [10]
  /\ map (fun h => w_id (hr_workout (item h)))
       (shown Scenario.reliable FilterIncomplete Scenario.history Scenario.at_the_gym)
     = [14; 13; 11]
  /\ shown Scenario.reliable FilterCompleted Scenario.history Scenario.at_the_gym
     ++ shown Scenario.reliable FilterIncomplete Scenario.history Scenario.at_the_gym
     ≡ₚ shown Scenario.reliable FilterAll Scenario.history Scenario.at_the_gym.
Proof.
  destruct (history_filters_partition Scenario.reliable Scenario.history
              Scenario.at_the_gym eq_refl) as (_ & _ & _ & _ & _ & Hp).
  split; [reflexivity|]. split; [reflexivity|]. exact Hp.
Defined.

End History.

(** ** The performance matcher *)

Module Matcher.
Import Store WorkoutDetailScreen.

(** One exercise's lookup: the request and what is kept of its answer. *)
Definition lookup (env : Env) (exercise_id : nat) (before : Z) (user_id : nat)
    (w : World) : list PreviousSet :=
  previous_sets
    (request env (SelectPrevious exercise_id before user_id)
       (select_previous exercise_id before user_id) w).1.

(** The most recent first. *)
Definition newest_first (a b : PreviousRow) : bool :=
  Z.leb (w_created_at (pr_workouts b)) (w_created_at (pr_workouts a)).

(** The lookup in the words of the specification: of the qualifying rows
    the one whose parent workout was created most recently, its sets in
    ascending order of creation, each reduced to its weight and reps;
    nothing when no row qualifies. *)
Definition most_recent_previous (exercise_id : nat) (before : Z) (user_id : nat)
    (t : Tables) : list PreviousSet :=
  match sort_by newest_first (previous_candidates exercise_id before user_id t) with
  | p :: _ =>
      map (fun s => {| prev_weight := JS.Fin <$> s_weight s;
                       prev_reps := Some (JS.of_Z (s_reps s)) |})
        (sort_by by_created_at (pr_sets p))
  | [] => []
  end.

Lemma candidates_spec exercise_id before user_id t p :
  p ∈ previous_candidates exercise_id before user_id t
  <-> exists r parent,
        r ∈ workout_exercises t
        /\ we_exercise_id r = exercise_id
        /\ workout_of t (we_workout_id r) = Some parent
        /\ w_user_id parent = user_id
        /\ (w_created_at parent < before)%Z
        /\ p = {| pr_id := we_id r; pr_sets := sets_of t (we_id r);
                  pr_workouts := parent |}.
Proof.
  unfold previous_candidates.
  rewrite list_elem_of_In, filter_In, <- list_elem_of_In, list_elem_of_omap.
  rewrite andb_true_iff, Z.ltb_lt, Nat.eqb_eq. split.
  - intros [(r & Hr & Hj) [Hlt Hu]].
    apply list_elem_of_In, filter_In in Hr as [Hr He].
    apply Nat.eqb_eq in He. apply list_elem_of_In in Hr.
    unfold join_parent in Hj.
    destruct (workout_of t (we_workout_id r)) as [parent|] eqn:Hp; [|done].
    injection Hj as <-. simpl in Hlt, Hu. by exists r, parent.
  - intros (r & parent & Hr & He & Hp & Hu & Hlt & ->). simpl.
    split; [|done]. exists r. split.
    + apply list_elem_of_In, filter_In. split; [by apply list_elem_of_In|].
      by apply Nat.eqb_eq.
    + unfold join_parent. by rewrite Hp.
Qed.

Lemma sorted_by_created_at l :
  StronglySorted (fun a b => (s_created_at a <= s_created_at b)%Z)
    (sort_by by_created_at l).
Proof.
  assert (H : StronglySorted (fun a b => by_created_at a b = true)
                (sort_by by_created_at l)).
  { apply Sorting.sort_by_sorted; unfold by_created_at.
    - intros a b. apply Sorting.Z_leb_total.
    - intros a b c. apply Sorting.Z_leb_trans. }
  induction H as [|x l' _ IH Hx]; constructor; [done|].
  eapply Forall_impl; [exact Hx|]. simpl. unfold by_created_at.
  intros b. apply Z.leb_le.
Qed.

(** The qualifying rows come in the order of the table. *)
Lemma candidates_in_table_order exercise_id before user_id t :
  map pr_id (previous_candidates exercise_id before user_id t)
  `sublist_of` map we_id (workout_exercises t).
Proof.
  unfold previous_candidates.
  induction (workout_exercises t) as [|r l IH]; simpl; [done|].
  destruct (Nat.eqb (we_exercise_id r) exercise_id); simpl.
  - unfold join_parent at 1. destruct (workout_of t (we_workout_id r)); simpl.
    + destruct (_ && _)%bool; simpl; [by apply sublist_skip|by apply sublist_cons].
    + by apply sublist_cons.
  - by apply sublist_cons.
Qed.

(** Entries of the map for other exercises survive the loop. *)
Lemma fetch_previous_other env created_at user_id k : forall exercises prevMap w,
  k ∉ map ex_id exercises ->
  (fetch_previous env created_at user_id exercises prevMap w).1 !! k = prevMap !! k.
Proof.
  intros exs. induction exs as [|ex rest IH]; intros prevMap w Hk; simpl; [done|].
  destruct (request env _ _ w) as [answer w1].
  apply not_elem_of_cons in Hk as [Hne Hk].
  rewrite IH by done. by rewrite lookup_insert_ne.
Qed.

(** The loop of lookups reads only, raises no alert, and leaves for every
    exercise the result of that exercise's lookup. *)
Lemma fetch_previous_spec env created_at user_id : forall exercises prevMap w,
  tables (fetch_previous env created_at user_id exercises prevMap w).2 = tables w
  /\ alerts (fetch_previous env created_at user_id exercises prevMap w).2 = alerts w
  /\ forall ex, ex ∈ exercises ->
       exists w0, tables w0 = tables w
         /\ (fetch_previous env created_at user_id exercises prevMap w).1 !! ex_id ex
            = Some (lookup env (ex_id ex) created_at user_id w0).
Proof.
  intros exs. induction exs as [|ex rest IH]; intros prevMap w; simpl.
  - split_and!; try done. intros ex Hex. by apply not_elem_of_nil in Hex.
  - destruct (request env (SelectPrevious (ex_id ex) created_at user_id)
                (select_previous (ex_id ex) created_at user_id) w) as [answer w1] eqn:Hrq.
    assert (Ht : tables w1 = tables w /\ alerts w1 = alerts w).
    { apply Requests.request_inv in Hrq as [Ha [(m & _ & Ht & _)|(a & _ & _ & He & _)]];
        [done|]. unfold select_previous in He. by injection He as _ <-. }
    destruct Ht as [Ht Ha].
    destruct (IH (<[ex_id ex := previous_sets answer]> prevMap) w1) as (IHt & IHa & IHl).
    split_and!; [congruence|congruence|].
    intros ex' Hex'.
    destruct (decide (ex_id ex' ∈ map ex_id rest)) as [Hin|Hnin].
    + apply list_elem_of_fmap in Hin as (ex'' & Heq & Hin).
      destruct (IHl ex'' Hin) as (w0 & Hw0 & Hl).
      exists w0. split; [congruence|]. by rewrite Heq.
    + apply elem_of_cons in Hex' as [->|Hex'].
      * exists w. split; [done|]. rewrite fetch_previous_other by done.
        rewrite lookup_insert_eq. unfold lookup. by rewrite Hrq.
      * exfalso. apply Hnin. apply list_elem_of_fmap. by exists ex'.
Qed.

(** What the lookup does, for every store.  The rows it chooses among are
    the junction rows of that exercise whose parent workout belongs to the
    user and was created strictly before the reference time, in the order
    of the table.  When the request fails, or no row qualifies, the result
    is the empty list.  Otherwise it is taken from the first of these rows,
    whenever its workout was created, and lists that row's sets in
    ascending order of creation, each reduced to its weight and reps.  The
    request changes nothing and raises no alert, and the loop that
    performs the lookups of a workout leaves a result for every exercise
    whether or not its request was answered. *)
Lemma lookup_takes_first_row env exercise_id before user_id w :
  let candidates := previous_candidates exercise_id before user_id (tables w) in
  let found := lookup env exercise_id before user_id w in
  (forall p, p ∈ candidates <->
     exists r parent,
       r ∈ workout_exercises (tables w)
       /\ we_exercise_id r = exercise_id
       /\ workout_of (tables w) (we_workout_id r) = Some parent
       /\ w_user_id parent = user_id
       /\ (w_created_at parent < before)%Z
       /\ p = {| pr_id := we_id r; pr_sets := sets_of (tables w) (we_id r);
                 pr_workouts := parent |})
  /\ map pr_id candidates `sublist_of` map we_id (workout_exercises (tables w))
  /\ (fault env (length (log w)) <> None -> found = [])
  /\ (candidates = [] -> found = [])
  /\ (fault env (length (log w)) = None ->
      forall p rest, candidates = p :: rest ->
      exists sorted,
        sorted ≡ₚ pr_sets p
        /\ StronglySorted (fun a b => (s_created_at a <= s_created_at b)%Z) sorted
        /\ length found = length sorted
        /\ forall k s, sorted !! k = Some s ->
             exists prev, found !! k = Some prev
               /\ prev_weight prev = JS.Fin <$> s_weight s
               /\ prev_reps prev = Some (JS.of_Z (s_reps s)))
  /\ tables (request env (SelectPrevious exercise_id before user_id)
               (select_previous exercise_id before user_id) w).2 = tables w
  /\ alerts (request env (SelectPrevious exercise_id before user_id)
               (select_previous exercise_id before user_id) w).2 = alerts w
  /\ (forall exercises prevMap ex,
        ex ∈ exercises ->
        is_Some ((fetch_previous env before user_id exercises prevMap w).1 !! ex_id ex)
        /\ alerts (fetch_previous env before user_id exercises prevMap w).2 = alerts w).
Proof.
  intros candidates found. subst candidates found. unfold lookup.
  split_and!.
  - intros p. apply candidates_spec.
  - apply candidates_in_table_order.
  - intros Hf. unfold request.
    destruct (fault env (length (log w))); [done|]. by destruct Hf.
  - intros Hc. unfold request, select_previous.
    destruct (fault env (length (log w))); [done|]. by rewrite Hc.
  - intros Hf p rest Hc. unfold request, select_previous. rewrite Hf, Hc. simpl.
    exists (sort_by by_created_at (pr_sets p)). split_and!.
    + apply Sorting.sort_by_perm.
    + apply sorted_by_created_at.
    + by rewrite length_map.
    + intros k s Hk. exists (project s). split; [|done].
      by rewrite list_lookup_fmap, Hk.
  - unfold request, select_previous. by destruct (fault env (length (log w))).
  - unfold request, select_previous. by destruct (fault env (length (log w))).
  - intros exercises prevMap ex Hex.
    destruct (fetch_previous_spec env before user_id exercises prevMap w) as (_ & Ha & Hl).
    split; [|done]. destruct (Hl ex Hex) as (w0 & _ & ->). by eexists.
Qed.

(** C3, where the lookup departs from it.  User 7 did squats on Monday
    (workout created at 100) and on Wednesday (created at 200), and opens
    Friday's workout (created at 300).  Both junction rows qualify, in the
    order of the table Monday's first.  The most recent previous workout
    is Wednesday's, whose sets are 100 x 8 and 105 x 6; the lookup, whose
    limit cuts rows that nothing has ordered, shows Monday's: 110 x 8 and
    a set of 6 without weight. *)
Theorem previous_performance_lookup :
  map (fun p => (pr_id p, w_name (pr_workouts p), w_created_at (pr_workouts p)))
    (previous_candidates 0 300 7 Scenario.gym)
  = [(20, "Monday", 100%Z); (21, "Wednesday", 200%Z)]
  /\ lookup Scenario.reliable 0 300 7 Scenario.at_the_gym
     = [ {| prev_weight := Some (JS.Fin 110); prev_reps := Some (JS.of_Z 8) |};
         {| prev_weight := None; prev_reps := Some (JS.of_Z 6) |} ]
  /\ (previousByExerciseId Scenario.friday.1 !! 0
      = Some (lookup Scenario.reliable 0 300 7 Scenario.at_the_gym))
  /\ most_recent_previous 0 300 7 Scenario.gym
     = [ {| prev_weight := Some (JS.Fin 100); prev_reps := Some (JS.of_Z 8) |};
         {| prev_weight := Some (JS.Fin 105); prev_reps := Some (JS.of_Z 6) |} ].
Proof. by vm_compute. Qed.

(** Nobody but user 8 did bench presses before Friday, so there is nothing
    to show for them; nor is there for a lookup that fails. *)
Example friday_previous :
  lookup Scenario.reliable 1 300 7 Scenario.at_the_gym = []
  /\ lookup (Scenario.failing_at 0) 0 300 7 Scenario.at_the_gym = [].
Proof. by vm_compute. Qed.

Lemma formatted_is_not_placeholder (a b : string) : (a ++ "x" ++ b)%string <> "-".
Proof.
  destruct a as [|c a]; simpl; [done|].
  intros H. injection H as _ H. by destruct a.
Qed.

(** C4, as the screen has it.  The cell shown next to the set at index [k]
    of an exercise is computed from index [k] of that exercise's previous
    sets; when the previous set at [k] has a weight and reps the cell reads
    weight, "x", reps; and the placeholder "-" is shown exactly when
    index [k] is out of range or the previous set at [k] has a null weight
    or null reps. *)
Theorem previous_column_alignment (String_of_number : JS.number -> string)
    (st : State) (exercise : ExerciseView) (k : nat) :
  let prevSets := default [] (previousByExerciseId st !! ex_id exercise) in
  previous_column String_of_number st exercise !! k
  = (fun _ => prevText String_of_number prevSets k) <$> (ex_sets exercise !! k)
  /\ (forall p weight reps,
        prevSets !! k = Some p -> prev_weight p = Some weight ->
        prev_reps p = Some reps ->
        prevText String_of_number prevSets k
        = (String_of_number weight ++ "x" ++ String_of_number reps)%string)
  /\ (prevText String_of_number prevSets k = "-"
      <-> length prevSets <= k
          \/ exists p, prevSets !! k = Some p
                       /\ (prev_weight p = None \/ prev_reps p = None)).
Proof.
  intros prevSets. split_and!.
  - unfold previous_column. by rewrite list_lookup_imap.
  - intros p weight reps Hp Hw Hr. unfold prevText. rewrite Hp.
    destruct p as [pw pr]. simpl in Hw, Hr. by subst.
  - unfold prevText. destruct (prevSets !! k) as [[pw pr]|] eqn:Hp.
    + destruct pw as [weight|]; [destruct pr as [reps|]|].
      * split.
        -- intros H. by apply formatted_is_not_placeholder in H.
        -- intros [Hlen|(p & Hp' & Hnull)].
           ++ apply lookup_ge_None in Hlen. congruence.
           ++ injection Hp' as <-. simpl in Hnull. by destruct Hnull.
      * split; [|done]. intros _. right. eexists. split; [done|]. by right.
      * split; [|done]. intros _. right. eexists. split; [done|]. by left.
    + split; [|done]. intros _. left. by apply lookup_ge_None.
Qed.

(** Before Wednesday the lookup returns Monday's two sets; the second has
    no weight, and its cell is the placeholder although index 1 is in
    range. *)
Lemma placeholder_within_range :
  let prevSets := lookup Scenario.reliable 0 200 7 Scenario.at_the_gym in
  length prevSets = 2
  /\ ~ (prevText Scenario.decimal prevSets 1 = "-" <-> length prevSets < 1 + 1).
Proof.
  split; [reflexivity|]. intros [H _].
  assert (Hlt : 2 < 2) by (apply H; reflexivity). lia.
Qed.

(** Two previous sets, three current ones: the third cell is the
    placeholder, as is the second, whose previous set has no weight. *)
Example friday_previous_column :
  match workout Scenario.friday.1 with
  | Some wk => map (previous_column Scenario.decimal Scenario.friday.1) (wk_exercises wk)
  | None => []
  end = [["110x8"; "-"; "-"]; ["-"]].
Proof. by vm_compute. Qed.

End Matcher.

(** ** Progress and the completion gate *)

Module Aggregator.
Import Store WorkoutDetailScreen.

Lemma foldl_sum {A : Type} (f : A -> nat) (l : list A) (n : nat) :
  foldl (fun total x => total + f x) n l = n + sum_list (map f l).
Proof.
  revert n. induction l as [|x l IH]; intros n; simpl; [lia|].
  rewrite IH. lia.
Qed.

(** The two counts are sums over the workout's exercises. *)
Lemma getTotalSets_sum st wk :
  workout st = Some wk ->
  getTotalSets st = sum_list (map (fun ex => length (ex_sets ex)) (wk_exercises wk)).
Proof. intros H. unfold getTotalSets. rewrite H. by rewrite foldl_sum. Qed.

Lemma getCompletedSets_sum st wk :
  workout st = Some wk ->
  getCompletedSets st
  = sum_list (map (fun ex => length (List.filter set_completed (ex_sets ex)))
                (wk_exercises wk)).
Proof. intros H. unfold getCompletedSets. rewrite H. by rewrite foldl_sum. Qed.

Lemma filter_all_of_length {A : Type} (f : A -> bool) (l : list A) :
  length (List.filter f l) = length l -> Forall (fun x => f x = true) l.
Proof.
  induction l as [|x l IH]; simpl; [constructor|].
  pose proof (List.filter_length_le f l) as Hle.
  destruct (f x) eqn:Hx; simpl; intros H; [|lia].
  constructor; [done|]. apply IH. lia.
Qed.

(** When the counts agree, every set the screen holds is completed. *)
Lemma all_completed st wk :
  workout st = Some wk ->
  getCompletedSets st = getTotalSets st ->
  Forall (fun ex => Forall (fun s => set_completed s = true) (ex_sets ex))
    (wk_exercises wk).
Proof.
  intros Hw. rewrite (getCompletedSets_sum _ _ Hw), (getTotalSets_sum _ _ Hw).
  induction (wk_exercises wk) as [|ex l IH]; simpl; [constructor|].
  intros H.
  pose proof (List.filter_length_le set_completed (ex_sets ex)) as Hle.
  assert (Hl : sum_list (map (fun ex => length (List.filter set_completed (ex_sets ex))) l)
               <= sum_list (map (fun ex => length (ex_sets ex)) l)).
  { clear. induction l as [|e l IH]; simpl; [lia|].
    pose proof (List.filter_length_le set_completed (ex_sets e)). lia. }
  constructor.
  - apply filter_all_of_length. lia.
  - apply IH. lia.
Qed.

(** *** Requests that leave the workouts alone *)

Section Runtime.
Variable String_of_number : JS.number -> string.
Variable Number_of_string : string -> JS.number.

Lemma fetchWorkoutDetails_tables env st w :
  tables (fetchWorkoutDetails String_of_number env st w).2 = tables w.
Proof.
  unfold fetchWorkoutDetails, fetch, bind, await_or_throw.
  destruct (request env (SelectWorkout _) _ w) as [r1 w1] eqn:H1.
  apply Requests.request_inv in H1 as [_ [(m & -> & Ht1 & _)|(row & -> & _ & He1 & _)]];
    [done|].
  assert (Ht1 : tables w1 = tables w).
  { unfold select_workout in He1.
    destruct (List.filter _ _) as [|? [|]]; try done. by injection He1 as _ <-. }
  destruct (request env (SelectWorkoutExercises _) _ w1) as [r2 w2] eqn:H2.
  apply Requests.request_inv in H2 as [_ [(m & -> & Ht2 & _)|(rows & -> & _ & He2 & _)]];
    [simpl; congruence|].
  assert (Ht2 : tables w2 = tables w1).
  { unfold select_workout_exercises in He2. by injection He2 as _ <-. }
  destruct (transform rows) as [m|exs]; [simpl; congruence|].
  destruct (fetch_previous env _ _ exs ∅ w2) as [prevMap w3] eqn:H3.
  pose proof (Matcher.fetch_previous_spec env (w_created_at row) (w_user_id row) exs ∅ w2)
    as (Ht3 & _). rewrite H3 in Ht3. simpl in Ht3 |- *. congruence.
Qed.

Lemma toggleSetCompletion_workouts env setId completed st w :
  workouts (tables (toggleSetCompletion env setId completed st w).2) = workouts (tables w).
Proof.
  unfold toggleSetCompletion, await_or_throw.
  destruct (request env _ _ w) as [r1 w1] eqn:H1.
  apply Requests.request_inv in H1 as [_ [(m & -> & Ht1 & _)|(u & -> & _ & He1 & _)]].
  - unfold alert. simpl. congruence.
  - unfold update_set_completed in He1. simpl. by injection He1 as _ <-.
Qed.

Lemma updateSetReps_workouts env setId x st w :
  workouts (tables (updateSetReps String_of_number env setId x st w).2)
  = workouts (tables w).
Proof.
  unfold updateSetReps, await_or_throw.
  destruct (request env _ _ w) as [r1 w1] eqn:H1.
  apply Requests.request_inv in H1 as [_ [(m & -> & Ht1 & _)|(u & -> & _ & He1 & _)]].
  - unfold alert. simpl. congruence.
  - unfold update_set_reps in He1.
    destruct (integer_not_null _); [done|]. simpl. by injection He1 as _ <-.
Qed.

Lemma updateSetWeight_workouts env setId x st w :
  workouts (tables (updateSetWeight String_of_number env setId x st w).2)
  = workouts (tables w).
Proof.
  unfold updateSetWeight, await_or_throw.
  destruct (request env _ _ w) as [r1 w1] eqn:H1.
  apply Requests.request_inv in H1 as [_ [(m & -> & Ht1 & _)|(u & -> & _ & He1 & _)]].
  - unfold alert. simpl. congruence.
  - unfold update_set_weight in He1.
    destruct (nullable_decimal _); [done|]. simpl. by injection He1 as _ <-.
Qed.

Lemma transform_elem rows : forall exs we,
  transform rows = inr exs -> we ∈ rows ->
  exists ex, ex ∈ exs /\ workout_exercise_id ex = ews_id we
             /\ ex_sets ex = map decode_set (sort_by by_created_at (ews_sets we)).
Proof.
  induction rows as [|row rows IH]; intros exs we Ht Hin.
  - by apply not_elem_of_nil in Hin.
  - simpl in Ht. destruct (ews_exercises row) as [e|]; [|done].
    destruct (transform rows) as [m|l] eqn:Hl; [done|]. injection Ht as <-.
    apply elem_of_cons in Hin as [->|Hin].
    + eexists. split; [by left|]. done.
    + destruct (IH l we eq_refl Hin) as (ex & Hex & Hid & Hsets).
      exists ex. split; [by right|]. done.
Qed.

(** What the screen holds after mounting: for every junction row of the
    workout, an exercise whose sets are the store's, decoded and in order
    of creation. *)
Lemma mounted_sets env st0 w0 st w wk :
  fetchWorkoutDetails String_of_number env st0 w0 = (st, w) ->
  workout st0 = None -> workout st = Some wk ->
  workoutId st = workoutId st0
  /\ forall r, r ∈ workout_exercises (tables w0) -> we_workout_id r = workoutId st0 ->
       exists ex, ex ∈ wk_exercises wk
                  /\ ex_sets ex
                     = map decode_set (sort_by by_created_at (sets_of (tables w0) (we_id r))).
Proof.
  unfold fetchWorkoutDetails, fetch, bind, await_or_throw. intros H Hnone Hwk.
  destruct (request env (SelectWorkout _) _ w0) as [r1 w1] eqn:H1.
  apply Requests.request_inv in H1 as [_ [(m & -> & Ht1 & _)|(row & -> & _ & He1 & _)]].
  { injection H as <- _. simpl in Hwk. congruence. }
  assert (Ht1 : tables w1 = tables w0).
  { unfold select_workout in He1.
    destruct (List.filter _ _) as [|? [|]]; try done. by injection He1 as _ <-. }
  destruct (request env (SelectWorkoutExercises _) _ w1) as [r2 w2] eqn:H2.
  apply Requests.request_inv in H2 as [_ [(m & -> & Ht2 & _)|(rows & -> & _ & He2 & _)]].
  { injection H as <- _. simpl in Hwk. congruence. }
  unfold select_workout_exercises in He2. injection He2 as Hrows _.
  destruct (transform rows) as [m|exs] eqn:Htr.
  { injection H as <- _. simpl in Hwk. congruence. }
  destruct (fetch_previous env _ _ exs ∅ w2) as [prevMap w3].
  injection H as <- _. simpl in Hwk. injection Hwk as <-. simpl.
  split; [done|]. intros r Hr Hid.
  destruct (transform_elem rows exs (embed_exercise (tables w0) r) Htr)
    as (ex & Hex & _ & Hsets).
  { rewrite <- Hrows, Ht1, Sorting.sort_by_perm.
    apply list_elem_of_fmap. exists r. split; [done|].
    apply list_elem_of_In, filter_In. split; [by apply list_elem_of_In|].
    by apply Nat.eqb_eq. }
  by exists ex.
Qed.

(** Every event but the press of "Complete Workout" leaves the workouts
    as they are. *)
Lemma other_events_keep_workouts env ev st w :
  (forall now, ev <> PressCompleteWorkout now) ->
  workouts (tables (handle String_of_number Number_of_string env ev st w).2)
  = workouts (tables w).
Proof.
  intros Hev. destruct ev as [|setId|setId t|setId t|setId|setId|now]; simpl.
  - by rewrite fetchWorkoutDetails_tables.
  - destruct (rendered_set st setId); [|done].
    destruct (updating st); [done|]. apply toggleSetCompletion_workouts.
  - destruct (rendered_set st setId); [|done]. by destruct (updating st).
  - destruct (rendered_set st setId); [|done]. by destruct (updating st).
  - destruct (rendered_set st setId); [|done].
    destruct (updating st); [done|]. apply updateSetWeight_workouts.
  - destruct (rendered_set st setId); [|done].
    destruct (updating st); [done|]. apply updateSetReps_workouts.
  - by destruct (Hev now).
Qed.

(** C1, as the screen has it.  Whatever happens on the detail screen, a
    workout row goes from a null [completed_at] to a set one only through
    a press of "Complete Workout" on that workout, and only while the
    screen holds the workout with a null [completed_at] and counts as many
    completed sets as sets, that is, while every set it holds is completed;
    when the screen holds what mounting read from the store as it is, every
    set row of the workout is completed.  (Nothing requires the workout to
    have a set.) *)
Theorem completion_gate env ev st w k row row' :
  workouts (tables w) !! k = Some row ->
  workouts (tables (handle String_of_number Number_of_string env ev st w).2) !! k
  = Some row' ->
  w_completed_at row = None ->
  w_completed_at row' <> None ->
  exists now wk,
    ev = PressCompleteWorkout now
    /\ w_id row = workoutId st
    /\ w_completed_at row' = Some now
    /\ loading st = false
    /\ workout st = Some wk
    /\ w_completed_at (wk_row wk) = None
    /\ getCompletedSets st = getTotalSets st
    /\ Forall (fun ex => Forall (fun s => set_completed s = true) (ex_sets ex))
         (wk_exercises wk)
    /\ (forall env0 st0 w0,
          workout st0 = None ->
          fetchWorkoutDetails String_of_number env0 st0 w0 = (st, w) ->
          forall r s,
            r ∈ workout_exercises (tables w) -> we_workout_id r = workoutId st ->
            s ∈ sets_of (tables w) (we_id r) -> s_completed s = true).
Proof.
  intros Hk Hk' Hnull Hset.
  assert (Hcase : (exists now, ev = PressCompleteWorkout now)
                  \/ (forall now, ev <> PressCompleteWorkout now)).
  { destruct ev; try (right; discriminate). left. by eexists. }
  destruct Hcase as [[now ->]|Hev].
  2:{ rewrite other_events_keep_workouts in Hk' by done. congruence. }
  simpl in Hk'. unfold complete_button in Hk'.
  destruct (loading st) eqn:Hload; [simpl in Hk'; congruence|].
  destruct (workout st) as [wk|] eqn:Hwk; [|simpl in Hk'; congruence].
  destruct (w_completed_at (wk_row wk)) eqn:Hc; [simpl in Hk'; congruence|].
  destruct (Nat.eqb (getCompletedSets st) (getTotalSets st)) eqn:Heq;
    [|simpl in Hk'; congruence].
  apply Nat.eqb_eq in Heq. simpl in Hk'.
  unfold completeWorkout, await_or_throw in Hk'.
  destruct (request env _ _ w) as [r1 w1] eqn:H1.
  apply Requests.request_inv in H1 as [_ [(m & -> & Ht1 & _)|(u & -> & _ & He1 & _)]].
  { simpl in Hk'. rewrite Ht1 in Hk'. congruence. }
  unfold update_workout_completed_at in He1. injection He1 as _ Ht1.
  simpl in Hk'. rewrite <- Ht1 in Hk'. simpl in Hk'.
  rewrite list_lookup_fmap, Hk in Hk'. simpl in Hk'.
  injection Hk' as <-.
  destruct (Nat.eqb (w_id row) (workoutId st)) eqn:Hid; [|done].
  apply Nat.eqb_eq in Hid.
  pose proof (all_completed _ _ Hwk Heq) as Hall.
  exists now, wk. split_and!; try done.
  intros env0 st0 w0 Hnone Hmount r s Hr Hrid Hs.
  pose proof (fetchWorkoutDetails_tables env0 st0 w0) as Hsame.
  rewrite Hmount in Hsame. simpl in Hsame.
  destruct (mounted_sets _ _ _ _ _ _ Hmount Hnone Hwk) as (Hwid & Hexs).
  destruct (Hexs r) as (ex & Hex & Hsets); [congruence|congruence|].
  rewrite Forall_forall in Hall. specialize (Hall ex Hex).
  rewrite Hsets, <- Hsame, Forall_fmap, Sorting.sort_by_perm in Hall.
  rewrite Forall_forall in Hall. by apply Hall.
Qed.

End Runtime.

Lemma completion_gate_witness :
  exists wk,
    workout Scenario.empty_workout.1 = Some wk
    /\ getCompletedSets Scenario.empty_workout.1 = getTotalSets Scenario.empty_workout.1.
Proof.
  destruct (completion_gate Scenario.decimal Scenario.number_of_text Scenario.reliable
              (PressCompleteWorkout 5000) Scenario.empty_workout.1 Scenario.empty_workout.2
              4 _ _ eq_refl eq_refl eq_refl ltac:(discriminate))
    as (now & wk & _ & _ & _ & _ & Hwk & _ & Hcount & _ & _).
  by exists wk.
Defined.

(** A workout without any set can be completed: the screen counts 0 of 0
    sets, the button is enabled, and the press sets [completed_at]. *)
Lemma empty_workout_completes :
  let st := Scenario.empty_workout.1 in
  let w := Scenario.empty_workout.2 in
  let w' := (handle Scenario.decimal Scenario.number_of_text Scenario.reliable
               (PressCompleteWorkout 5000) st w).2 in
  getTotalSets st = 0
  /\ w_completed_at <$> workout_of (tables w) 14 = Some None
  /\ w_completed_at <$> workout_of (tables w') 14 = Some (Some 5000%Z).
Proof. by vm_compute. Qed.

(** With an incomplete set the press does nothing. *)
Example friday_cannot_complete :
  complete_button Scenario.friday.1 = Some true
  /\ handle Scenario.decimal Scenario.number_of_text Scenario.reliable
       (PressCompleteWorkout 5000) Scenario.friday.1 Scenario.friday.2
     = Scenario.friday.
Proof. by vm_compute. Qed.

(** *** The percentage *)

(** The percentage in the words of the specification:
    round (100 * completedSets / totalSets), halves rounded up, on the
    exact quotient; 0 without sets. *)
Definition spec_percent (completed total : nat) : Z :=
  if Nat.ltb 0 total
  then Qfloor (inject_Z (100 * Z.of_nat completed) / inject_Z (Z.of_nat total) + (1 # 2))
  else 0%Z.

Definition number_eqb (x y : JS.number) : bool :=
  match x, y with
  | JS.Fin p, JS.Fin q => Z.eqb (Qnum p) (Qnum q) && Pos.eqb (Qden p) (Qden q)
  | JS.NaN, JS.NaN | JS.PosInf, JS.PosInf | JS.NegInf, JS.NegInf => true
  | _, _ => false
  end.

Lemma number_eqb_eq x y : number_eqb x y = true -> x = y.
Proof.
  destruct x as [[a b]| | |], y as [[c d]| | |]; simpl; try done.
  rewrite andb_true_iff, Z.eqb_eq, Pos.eqb_eq. by intros [-> ->].
Qed.

Lemma percent_complete_rate st :
  percent_complete st = WorkoutHistoryScreen.rate (getCompletedSets st) (getTotalSets st).
Proof.
  unfold percent_complete, progressPercentage, WorkoutHistoryScreen.rate.
  by destruct (Nat.ltb 0 (getTotalSets st)).
Qed.

(** Without sets both screens show 0. *)
Lemma rate_without_sets completed : WorkoutHistoryScreen.rate completed 0 = JS.of_Z 0.
Proof. done. Qed.

(** Up to 39 sets the number shown is the specification's. *)
Lemma rate_exact_below_40 completed total :
  total < 40 -> completed <= total ->
  WorkoutHistoryScreen.rate completed total = JS.of_Z (spec_percent completed total).
Proof.
  intros Ht Hc.
  assert (H : forallb (fun t => forallb (fun c =>
                number_eqb (WorkoutHistoryScreen.rate c t) (JS.of_Z (spec_percent c t)))
                (seq 0 (S t))) (seq 0 40) = true) by (by vm_compute).
  rewrite forallb_forall in H. specialize (H total).
  rewrite forallb_forall in H. apply number_eqb_eq, H.
  - apply in_seq. lia.
  - apply in_seq. lia.
Qed.

Example two_of_three :
  WorkoutHistoryScreen.rate 2 3 = JS.of_Z 67 /\ spec_percent 2 3 = 67%Z.
Proof. by vm_compute. Qed.

(** C5, where the screens depart from it.  With 23 of 40 sets completed
    the exact percentage is 57.5, which rounds half up to 58; the screens
    compute [(23 / 40) * 100] in binary64, which is 57.49999999999999, and
    show 57. *)
Theorem percent_of_23_in_40 :
  getTotalSets (Scenario.forty_sets 23) = 40
  /\ getCompletedSets (Scenario.forty_sets 23) = 23
  /\ percent_complete (Scenario.forty_sets 23) = JS.of_Z 57
  /\ WorkoutHistoryScreen.rate 23 40 = JS.of_Z 57
  /\ spec_percent 23 40 = 58%Z.
Proof. by vm_compute. Qed.

End Aggregator.

(** ** Editing a set *)

Module SetEditing.
Import Store WorkoutDetailScreen.

(** What [safeReps] computes, case by case: max (0, floor (x or 0)). *)
Definition safe_reps_value (x : JS.number) : option Z :=
  match x with
  | JS.Fin q => Some (Z.max 0 (Qfloor q))
  | JS.NaN | JS.NegInf => Some 0%Z
  | JS.PosInf => None
  end.

Lemma Qle_bool_0_inject_Z z : Qle_bool (inject_Z 0) (inject_Z z) = Z.leb 0 z.
Proof. unfold Qle_bool, inject_Z. cbn [Qnum Qden]. by rewrite !Z.mul_1_r. Qed.

Lemma safeReps_finite q : safeReps (JS.Fin q) = JS.of_Z (Z.max 0 (Qfloor q)).
Proof.
  unfold safeReps, JS.or_else, JS.truthy.
  destruct (Qeq_bool q 0) eqn:Hq; simpl.
  - apply Qeq_bool_eq in Hq. by rewrite (Qfloor_comp q 0 Hq).
  - unfold JS.of_Z. rewrite Qle_bool_0_inject_Z.
    destruct (Z.leb 0 (Qfloor q)) eqn:Hz.
    + apply Z.leb_le in Hz. by rewrite Z.max_r.
    + apply Z.leb_gt in Hz. rewrite Z.max_l by lia. done.
Qed.

Lemma safeReps_value x :
  safeReps x = match safe_reps_value x with
               | Some z => JS.of_Z z
               | None => JS.PosInf
               end.
Proof. destruct x as [q| | |]; [apply safeReps_finite|done..]. Qed.

Lemma safe_reps_value_natural x z : safe_reps_value x = Some z -> (0 <= z)%Z.
Proof. destruct x; simpl; intros H; simplify_eq; lia. Qed.

Lemma int4_natural z : (0 <= z)%Z -> int4 z = true <-> (z <= 2147483647)%Z.
Proof.
  intros Hz. unfold int4. rewrite andb_true_iff, !Z.leb_le. lia.
Qed.

Section Runtime.
Variable String_of_number : JS.number -> string.
Variable Number_of_string : string -> JS.number.

(** What an update of the reps does to the tables: the value sent is
    stored when it is a whole number that fits the INTEGER column, and
    else the update is refused. *)
Lemma updateSetReps_tables env setId x st w :
  (exists message,
      (fault env (length (log w)) = Some message
       \/ (fault env (length (log w)) = None
           /\ integer_not_null (safeReps x) = inl message
           /\ (safe_reps_value x = None
               \/ exists z, safe_reps_value x = Some z /\ (2147483647 < z)%Z)))
      /\ tables (updateSetReps String_of_number env setId x st w).2 = tables w
      /\ log (updateSetReps String_of_number env setId x st w).2
         = log w ++ [(UpdateSetReps setId (safeReps x), Some message)]
      /\ alerts (updateSetReps String_of_number env setId x st w).2
         = alerts w ++ [("Error", message)]
      /\ (updateSetReps String_of_number env setId x st w).1 = setUpdating false st)
  \/ (exists z,
        fault env (length (log w)) = None
        /\ safe_reps_value x = Some z
        /\ (z <= 2147483647)%Z
        /\ tables (updateSetReps String_of_number env setId x st w).2
           = update_set setId (with_reps z) (tables w)
        /\ log (updateSetReps String_of_number env setId x st w).2
           = log w ++ [(UpdateSetReps setId (safeReps x), None)]
        /\ alerts (updateSetReps String_of_number env setId x st w).2 = alerts w).
Proof.
  unfold updateSetReps, await_or_throw, request, update_set_reps.
  destruct (fault env (length (log w))) as [m|] eqn:Hf.
  { left. exists m. simpl. split_and!; try done. by left. }
  rewrite safeReps_value.
  destruct (safe_reps_value x) as [z|] eqn:Hz.
  - pose proof (safe_reps_value_natural _ _ Hz) as Hnat.
    rewrite Columns.integer_not_null_of_Z.
    destruct (int4 z) eqn:Hi.
    + apply int4_natural in Hi; [|done]. right. exists z. simpl. by split_and!.
    + left. eexists. simpl. split_and!; try done. right. split_and!; try done.
      right. exists z. split; [done|].
      destruct (Z.le_gt_cases z 2147483647) as [Hle|Hgt]; [|lia].
      apply int4_natural in Hle; [congruence|done].
  - left. exists not_null_violation. simpl. split_and!; try done.
    right. split_and!; try done. by left.
Qed.

(** C10, as the store has it.  Whatever Number the reps editor is given
    (negative, fractional, NaN, infinite) it sends
    max (0, floor (input or 0)); a blank input counts as 0, and any other
    text as the Number it reads as.  The value sent is stored exactly when
    the store answers and the value is a whole number that fits the
    INTEGER column, that is, at most 2147483647; then the reps of the set
    are that value, a non-negative integer, and no other row changes.
    For +Infinity, which is sent as null, and for a value beyond the
    column, the update is refused: an error is alerted and nothing
    changes.  So the reps of every stored set stay non-negative
    integers. *)
Theorem reps_update_keeps_reps_natural env setId (x : JS.number) st w :
  let after := (updateSetReps String_of_number env setId x st w).2 in
  safeReps x = match safe_reps_value x with
               | Some z => JS.of_Z z
               | None => JS.PosInf
               end
  /\ (forall inputs,
        (in_reps inputs = None \/ in_reps inputs = Some "" ->
         reps_of_input Number_of_string inputs = JS.of_Z 0
         /\ safe_reps_value (reps_of_input Number_of_string inputs) = Some 0%Z)
        /\ (forall t, in_reps inputs = Some t -> t <> "" ->
              reps_of_input Number_of_string inputs = Number_of_string t))
  /\ (log after = log w ++ [(UpdateSetReps setId (safeReps x), None)] ->
      exists z,
        safe_reps_value x = Some z
        /\ (0 <= z <= 2147483647)%Z
        /\ sets (tables after)
           = map (fun s => if Nat.eqb (s_id s) setId then with_reps z s else s)
               (sets (tables w))
        /\ (forall s, s ∈ sets (tables after) -> s_id s = setId -> s_reps s = z))
  /\ (fault env (length (log w)) = None ->
      forall z, safe_reps_value x = Some z -> (z <= 2147483647)%Z ->
      log after = log w ++ [(UpdateSetReps setId (safeReps x), None)])
  /\ (fault env (length (log w)) = None ->
      safe_reps_value x = None
      \/ (exists z, safe_reps_value x = Some z /\ (2147483647 < z)%Z) ->
      exists message,
        log after = log w ++ [(UpdateSetReps setId (safeReps x), Some message)]
        /\ alerts after = alerts w ++ [("Error", message)]
        /\ tables after = tables w)
  /\ (log after <> log w ++ [(UpdateSetReps setId (safeReps x), None)] ->
      tables after = tables w)
  /\ (Forall (fun s => (0 <= s_reps s)%Z) (sets (tables w)) ->
      Forall (fun s => (0 <= s_reps s)%Z) (sets (tables after))).
Proof.
  intros after. subst after.
  assert (Hinput : forall inputs,
            (in_reps inputs = None \/ in_reps inputs = Some "" ->
             reps_of_input Number_of_string inputs = JS.of_Z 0
             /\ safe_reps_value (reps_of_input Number_of_string inputs) = Some 0%Z)
            /\ (forall t, in_reps inputs = Some t -> t <> "" ->
                  reps_of_input Number_of_string inputs = Number_of_string t)).
  { intros inputs. unfold reps_of_input. split.
    - intros [->| ->]; simpl; done.
    - intros t -> Ht. apply String.eqb_neq in Ht. by rewrite Ht. }
  destruct (updateSetReps_tables env setId x st w)
    as [(m & Hwhy & Ht & Hl & Ha & Hst)|(z & Hf & Hz & Hle & Ht & Hl & Ha)].
  - split_and!.
    + apply safeReps_value.
    + exact Hinput.
    + intros Hl'. rewrite Hl in Hl'. apply app_inv_head in Hl'. done.
    + intros Hf z Hz Hle. destruct Hwhy as [Hf'|(_ & _ & [Hv|(z' & Hz' & Hgt)])];
        [congruence|congruence|]. rewrite Hz in Hz'. injection Hz' as <-. lia.
    + intros _ _. by exists m.
    + done.
    + by rewrite Ht.
  - pose proof (safe_reps_value_natural _ _ Hz) as Hnat.
    split_and!.
    + apply safeReps_value.
    + exact Hinput.
    + intros _. exists z. rewrite Ht. split_and!; try done.
      intros s Hs Hid. simpl in Hs. apply list_elem_of_fmap in Hs as (s0 & -> & _).
      destruct (Nat.eqb (s_id s0) setId) eqn:He; [done|].
      apply Nat.eqb_neq in He. done.
    + done.
    + intros _ [Hv|(z' & Hz' & Hgt)]; [congruence|].
      rewrite Hz in Hz'. injection Hz' as <-. lia.
    + intros Hl'. by destruct Hl'.
    + intros Hall. rewrite Ht. simpl. apply Forall_fmap.
      eapply Forall_impl; [exact Hall|]. simpl. intros s Hs.
      by destruct (Nat.eqb (s_id s) setId).
Qed.

(** C9. A blank weight (no text, or the empty text) reaches
    [updateSetWeight] as [undefined], which is sent as null, as is NaN.
    When the update is stored, every row of that set holds a null weight
    (not zero) and is otherwise as before, no row is added or removed, and
    the set read back through the store's query decodes to a set whose
    weight is null and whose weight input is empty; the set held by the
    screen and its input text agree. *)
Theorem blank_weight_reads_back_null env setId st w :
  let after := updateSetWeight String_of_number env setId None st w in
  (forall inputs,
     in_weight inputs = None \/ in_weight inputs = Some "" ->
     weight_of_input Number_of_string inputs = None)
  /\ weightValue None = None
  /\ weightValue (Some JS.NaN) = None
  /\ (fault env (length (log w)) = None ->
      log after.2 = log w ++ [(UpdateSetWeight setId None, None)])
  /\ (log after.2 = log w ++ [(UpdateSetWeight setId None, None)] ->
      sets (tables after.2)
      = map (fun s => if Nat.eqb (s_id s) setId then with_weight None s else s)
          (sets (tables w))
      /\ map s_id (sets (tables after.2)) = map s_id (sets (tables w))
      /\ (forall s, s ∈ sets (tables after.2) -> s_id s = setId ->
            s_weight s = None /\ s_weight s <> Some 0%Q)
      /\ (forall workout_exercise_id s,
            s ∈ sets_of (tables after.2) workout_exercise_id -> s_id s = setId ->
            set_weight (decode_set s) = None
            /\ in_weight (initial_input String_of_number (decode_set s)) = Some "")
      /\ (forall wk ex s,
            workout after.1 = Some wk -> ex ∈ wk_exercises wk -> s ∈ ex_sets ex ->
            set_id s = setId -> set_weight s = None)
      /\ in_weight <$> inputValues after.1 !! setId = Some (Some "")).
Proof.
  intros after. subst after. split_and!.
  - intros inputs Hblank. unfold weight_of_input.
    destruct Hblank as [->| ->]; simpl; done.
  - done.
  - done.
  - intros Hf. unfold updateSetWeight, await_or_throw, request, update_set_weight.
    by rewrite Hf.
  - unfold updateSetWeight, await_or_throw, request, update_set_weight.
    destruct (fault env (length (log w))) as [m|] eqn:Hf; simpl.
    { intros Hl. apply app_inv_head in Hl. done. }
    intros _.
    assert (Hrows : forall s,
              s ∈ map (fun s => if Nat.eqb (s_id s) setId then with_weight None s else s)
                    (sets (tables w)) ->
              s_id s = setId -> s_weight s = None).
    { intros s Hs Hid. apply list_elem_of_fmap in Hs as (s0 & -> & _).
      destruct (Nat.eqb (s_id s0) setId) eqn:He; [done|].
      apply Nat.eqb_neq in He. done. }
    split_and!.
    + done.
    + rewrite map_map. apply map_ext. intros s. by destruct (Nat.eqb (s_id s) setId).
    + intros s Hs Hid. rewrite (Hrows s Hs Hid). done.
    + intros weid s Hs Hid. unfold sets_of in Hs. simpl in Hs.
      apply list_elem_of_In, filter_In in Hs as [Hs _]. apply list_elem_of_In in Hs.
      unfold initial_input, decode_set. simpl. by rewrite (Hrows s Hs Hid).
    + intros wk ex s Hwk Hex Hs Hid.
      destruct (workout st) as [wk0|]; [|done]. simpl in Hwk. injection Hwk as <-.
      simpl in Hex. apply list_elem_of_fmap in Hex as (ex0 & -> & _).
      simpl in Hs. apply list_elem_of_fmap in Hs as (s0 & -> & _).
      destruct (Nat.eqb (set_id s0) setId) eqn:He; [done|].
      apply Nat.eqb_neq in He. done.
    + by rewrite lookup_insert_eq.
Qed.

End Runtime.

(** Typing 3000000000 for the reps of Friday's second squat set and
    leaving the field: the value sent is max (0, floor (3000000000)), the
    INTEGER column refuses it, the error is alerted and the set keeps its
    8 reps.  The same happens to +Infinity, which is sent as null. *)
Lemma reps_beyond_the_column :
  let typed :=
    handle Scenario.decimal Scenario.number_of_text Scenario.reliable
      (ChangeRepsText 35 "3000000000") Scenario.friday.1 Scenario.friday.2 in
  let left :=
    handle Scenario.decimal Scenario.number_of_text Scenario.reliable
      (EndEditingReps 35) typed.1 typed.2 in
  let infinite :=
    updateSetReps Scenario.decimal Scenario.reliable 35 JS.PosInf
      Scenario.friday.1 Scenario.friday.2 in
  safeReps (Scenario.number_of_text "3000000000") = JS.of_Z 3000000000
  /\ s_reps <$> List.find (fun s => Nat.eqb (s_id s) 35) (sets (tables Scenario.friday.2))
     = Some 8%Z
  /\ s_reps <$> List.find (fun s => Nat.eqb (s_id s) 35) (sets (tables left.2))
     = Some 8%Z
  /\ alerts left.2 = [("Error", integer_out_of_range)]
  /\ tables infinite.2 = tables Scenario.friday.2
  /\ alerts infinite.2 = [("Error", not_null_violation)].
Proof. by vm_compute. Qed.

(** Typing -3 stores 0, typing nothing stores 0, and 7.9 stores 7. *)
Example reps_examples :
  safeReps (JS.of_Z (-3)) = JS.of_Z 0
  /\ safeReps (JS.Fin (79 # 10)) = JS.of_Z 7
  /\ safeReps JS.NaN = JS.of_Z 0
  /\ s_reps <$> List.find (fun s => Nat.eqb (s_id s) 35)
       (sets (tables (handle Scenario.decimal Scenario.number_of_text Scenario.reliable
                        (EndEditingReps 35)
                        (handle Scenario.decimal Scenario.number_of_text Scenario.reliable
                           (ChangeRepsText 35 "") Scenario.friday.1 Scenario.friday.2).1
                        Scenario.friday.2).2)) = Some 0%Z.
Proof. by vm_compute. Qed.

(** Clearing the weight of Friday's second squat set (100) stores null. *)
Example weight_example :
  let cleared :=
    handle Scenario.decimal Scenario.number_of_text Scenario.reliable
      (EndEditingWeight 35)
      (handle Scenario.decimal Scenario.number_of_text Scenario.reliable
         (ChangeWeightText 35 "") Scenario.friday.1 Scenario.friday.2).1
      Scenario.friday.2 in
  s_weight <$> List.find (fun s => Nat.eqb (s_id s) 35) (sets (tables Scenario.friday.2))
  = Some (Some 100%Q)
  /\ s_weight <$> List.find (fun s => Nat.eqb (s_id s) 35) (sets (tables cleared.2))
     = Some None
  /\ in_weight <$> inputValues cleared.1 !! 35 = Some (Some "").
Proof. by vm_compute. Qed.

End SetEditing.

(** * The rest of the screens *)

(** ** CreateWorkoutScreen.tsx: editing the draft *)

Module Draft.
Import Store CreateWorkoutScreen.

Definition setSelectedExercises (l : list CreateExerciseForm) (st : State) : State :=
  {| workoutName := workoutName st;
     workoutDescription := workoutDescription st;
     selectedExercises := l;
     loading := loading st;
     user_id := user_id st |}.

(** The set a new exercise or a new set starts with: no weight, 8 reps. *)
Definition default_set : CreateSetForm :=
  {| csf_weight := None; csf_reps := JS.of_Z 8 |}.

Definition addExerciseToWorkout (exercise : Exercise) (st : State) : State :=
  setSelectedExercises
    (selectedExercises st
     ++ [ {| cef_exercise_id := e_id exercise; cef_sets := [default_set] |} ]) st.

(** [selectedExercises.filter ((_, i) => i !== index)] *)
Fixpoint without_index {A : Type} (index : nat) (l : list A) {struct l} : list A :=
  match l, index with
  | [], _ => []
  | _ :: r, O => r
  | x :: r, S i => x :: without_index i r
  end.

Definition removeExerciseFromWorkout (index : nat) (st : State) : State :=
  setSelectedExercises (without_index index (selectedExercises st)) st.

Definition put_sets (l : list CreateSetForm) (form : CreateExerciseForm)
    : CreateExerciseForm :=
  {| cef_exercise_id := cef_exercise_id form; cef_sets := l |}.

(** The three editors of the sets reach into [updatedExercises[exerciseIndex]];
    with no exercise at that index the access throws and the state stays as
    it is. *)
Definition addSetToExercise (exerciseIndex : nat) (st : State) : State :=
  match selectedExercises st !! exerciseIndex with
  | None => st
  | Some form =>
      setSelectedExercises
        (<[exerciseIndex := put_sets (cef_sets form ++ [default_set]) form]>
           (selectedExercises st)) st
  end.

(** [sets.splice (setIndex, 1)] *)
Definition removeSetFromExercise (exerciseIndex setIndex : nat) (st : State) : State :=
  match selectedExercises st !! exerciseIndex with
  | None => st
  | Some form =>
      setSelectedExercises
        (<[exerciseIndex := put_sets (without_index setIndex (cef_sets form)) form]>
           (selectedExercises st)) st
  end.

Inductive Field : Type := Weight | Reps.

Definition put_field (field : Field) (value : JS.number) (set : CreateSetForm)
    : CreateSetForm :=
  match field with
  | Weight => {| csf_weight := Some value; csf_reps := csf_reps set |}
  | Reps => {| csf_weight := csf_weight set; csf_reps := value |}
  end.

(** [updatedExercises[exerciseIndex].sets[setIndex][field] = value]; a
    missing exercise or set throws. *)
Definition updateSet (exerciseIndex setIndex : nat) (field : Field)
    (value : JS.number) (st : State) : State :=
  match selectedExercises st !! exerciseIndex with
  | None => st
  | Some form =>
      match cef_sets form !! setIndex with
      | None => st
      | Some set =>
          setSelectedExercises
            (<[exerciseIndex :=
                 put_sets (<[setIndex := put_field field value set]> (cef_sets form)) form]>
               (selectedExercises st)) st
      end
  end.

(** [selectedExercises.some ((ex) => ex.exercise_id === item.id)] *)
Definition isSelected (item : Exercise) (st : State) : bool :=
  existsb (fun ex => Nat.eqb (cef_exercise_id ex) (e_id item)) (selectedExercises st).

Section Runtime.

(** [parseFloat] and [parseInt] of the language. *)
Variable parseFloat : string -> JS.number.
Variable parseInt : string -> JS.number.

(** What can be done to the draft on the screen. *)
Inductive Event : Type :=
| PressExercise (item : Exercise)
| PressRemove (index : nat)
| PressAddSet (index : nat)
| PressRemoveSet (index setIndex : nat)
| ChangeWeight (index setIndex : nat) (value : string)
| ChangeReps (index setIndex : nat) (value : string).

Definition edit (ev : Event) (st : State) : State :=
  match ev with
  | PressExercise item =>
      if isSelected item st then st else addExerciseToWorkout item st
  | PressRemove index => removeExerciseFromWorkout index st
  | PressAddSet index => addSetToExercise index st
  | PressRemoveSet index setIndex => removeSetFromExercise index setIndex st
  | ChangeWeight index setIndex value =>
      updateSet index setIndex Weight (JS.or_else (parseFloat value) (JS.of_Z 0)) st
  | ChangeReps index setIndex value =>
      updateSet index setIndex Reps (JS.or_else (parseInt value) (JS.of_Z 0)) st
  end.

End Runtime.

End Draft.

(** ** Properties of the draft *)

Module DraftFacts.
Import Store CreateWorkoutScreen Draft.

Lemma without_index_lookup {A : Type} (l : list A) : forall index k,
  without_index index l !! k = if decide (k < index) then l !! k else l !! S k.
Proof.
  induction l as [|x l IH]; intros index k; cbn [without_index].
  - by case_decide.
  - destruct index as [|i].
    + case_decide; [lia|done].
    + destruct k as [|k]; [case_decide; [done|lia]|].
      change ((x :: without_index i l) !! S k) with (without_index i l !! k).
      rewrite IH. repeat case_decide; try done; lia.
Qed.

Lemma without_index_length {A : Type} (l : list A) : forall index,
  length (without_index index l)
  = if decide (index < length l) then length l - 1 else length l.
Proof.
  induction l as [|x l IH]; intros index; cbn [without_index length].
  - by case_decide.
  - destruct index as [|i]; cbn [length].
    + case_decide; lia.
    + rewrite IH. repeat case_decide; lia.
Qed.

Lemma without_index_map {A B : Type} (f : A -> B) (l : list A) : forall index,
  map f (without_index index l) = without_index index (map f l).
Proof.
  induction l as [|x l IH]; intros index; simpl; [done|].
  destruct index; simpl; [done|]. by rewrite IH.
Qed.

Lemma without_index_elem {A : Type} (l : list A) : forall index x,
  x ∈ without_index index l -> x ∈ l.
Proof.
  induction l as [|y l IH]; intros index x; simpl; [done|].
  destruct index; simpl.
  - by right.
  - intros [->|H]%elem_of_cons; [by left|]. right. by eapply IH.
Qed.

Lemma without_index_NoDup {A : Type} (l : list A) : forall index,
  NoDup l -> NoDup (without_index index l).
Proof.
  induction l as [|y l IH]; intros index Hnd; simpl; [done|].
  apply NoDup_cons in Hnd as [Hy Hnd]. destruct index; simpl; [done|].
  apply NoDup_cons. split; [|by apply IH].
  intros H. by apply without_index_elem in H.
Qed.

Lemma ids_insert (l : list CreateExerciseForm) i form sets' :
  l !! i = Some form ->
  map cef_exercise_id (<[i := put_sets sets' form]> l) = map cef_exercise_id l.
Proof.
  intros H. rewrite list_fmap_insert. simpl. apply list_insert_id.
  by rewrite list_lookup_fmap, H.
Qed.

Section Runtime.
Variable parseFloat : string -> JS.number.
Variable parseInt : string -> JS.number.

(** The editors of the sets leave the selected exercises and their order
    as they are. *)
Lemma set_edits_keep_exercises ev st :
  (forall item, ev <> PressExercise item) -> (forall index, ev <> PressRemove index) ->
  map cef_exercise_id (selectedExercises (edit parseFloat parseInt ev st))
  = map cef_exercise_id (selectedExercises st).
Proof.
  intros H1 H2. destruct ev as [item|index|index|index j|index j v|index j v]; simpl.
  - by destruct (H1 item).
  - by destruct (H2 index).
  - unfold addSetToExercise.
    destruct (selectedExercises st !! index) eqn:H; [|done]. simpl. by apply ids_insert.
  - unfold removeSetFromExercise.
    destruct (selectedExercises st !! index) eqn:H; [|done]. simpl. by apply ids_insert.
  - unfold updateSet. destruct (selectedExercises st !! index) as [form|] eqn:H; [|done].
    destruct (cef_sets form !! j); [|done]. simpl. by apply ids_insert.
  - unfold updateSet. destruct (selectedExercises st !! index) as [form|] eqn:H; [|done].
    destruct (cef_sets form !! j); [|done]. simpl. by apply ids_insert.
Qed.

Lemma edit_keeps_distinct ev st :
  NoDup (map cef_exercise_id (selectedExercises st)) ->
  NoDup (map cef_exercise_id (selectedExercises (edit parseFloat parseInt ev st))).
Proof.
  intros Hnd.
  destruct ev as [item|index|index|index j|index j v|index j v];
    try (rewrite set_edits_keep_exercises; done).
  - simpl. unfold isSelected.
    destruct (existsb _ _) eqn:Hsel; [done|]. simpl.
    rewrite map_app. simpl. apply NoDup_app. split_and!; [done| |apply NoDup_singleton].
    intros x Hx Hx'. apply list_elem_of_singleton in Hx'. subst x.
    apply list_elem_of_fmap in Hx as (ex & Heq & Hex).
    assert (Ht : existsb (fun ex => Nat.eqb (cef_exercise_id ex) (e_id item))
                   (selectedExercises st) = true); [|congruence].
    apply existsb_exists. exists ex. split; [by apply list_elem_of_In|].
    by apply Nat.eqb_eq.
  - simpl. rewrite without_index_map. by apply without_index_NoDup.
Qed.

(** X1.  However the draft is edited, starting from no selection, no exercise
    is selected twice: an exercise already in the draft cannot be added
    again. *)
Theorem draft_exercises_distinct (evs : list Event) (st : State) :
  selectedExercises st = [] ->
  NoDup (map cef_exercise_id
           (selectedExercises (foldl (fun s ev => edit parseFloat parseInt ev s) st evs))).
Proof.
  intros Hempty.
  assert (Hnd : NoDup (map cef_exercise_id (selectedExercises st)))
    by (rewrite Hempty; constructor).
  clear Hempty. revert st Hnd.
  induction evs as [|ev evs IH]; intros st Hnd; simpl; [done|].
  apply IH. by apply edit_keeps_distinct.
Qed.

(** X2.  Removing the exercise at [index] drops exactly that one: the
    selections before it stay in place, those after it move up by one, and
    an index beyond the draft changes nothing. *)
Theorem removeExerciseFromWorkout_positions index st :
  (forall k, selectedExercises (removeExerciseFromWorkout index st) !! k
             = if decide (k < index) then selectedExercises st !! k
               else selectedExercises st !! S k)
  /\ length (selectedExercises (removeExerciseFromWorkout index st))
     = (if decide (index < length (selectedExercises st))
        then length (selectedExercises st) - 1
        else length (selectedExercises st))
  /\ (length (selectedExercises st) <= index ->
      removeExerciseFromWorkout index st = st).
Proof.
  split_and!.
  - intros k. apply without_index_lookup.
  - apply without_index_length.
  - intros Hge. destruct st as [n d l ld u]. unfold removeExerciseFromWorkout.
    simpl in *. unfold setSelectedExercises. simpl. f_equal.
    apply list_eq. intros k. rewrite without_index_lookup.
    destruct (decide (k < index)); [done|].
    rewrite !(proj2 (lookup_ge_None _ _)); [done|lia|lia].
Qed.

(** X3.  A weight typed into the draft is a Number, never absent and never NaN:
    text that does not parse to a number other than zero, such as the
    empty text, becomes 0, and 0 (not null) is what a later creation sends
    for it.  The change touches that one field of that one set. *)
Theorem typed_weight_is_never_null index setIndex value st form set :
  selectedExercises st !! index = Some form ->
  cef_sets form !! setIndex = Some set ->
  let weight := JS.or_else (parseFloat value) (JS.of_Z 0) in
  let st' := edit parseFloat parseInt (ChangeWeight index setIndex value) st in
  JS.isNaN weight = false
  /\ (JS.truthy (parseFloat value) = false ->
      nullable_decimal (Some weight) = inr (Some (inject_Z 0)))
  /\ (exists form',
        selectedExercises st' !! index = Some form'
        /\ cef_exercise_id form' = cef_exercise_id form
        /\ cef_sets form' !! setIndex
           = Some {| csf_weight := Some weight; csf_reps := csf_reps set |}
        /\ (forall j, j <> setIndex -> cef_sets form' !! j = cef_sets form !! j))
  /\ (forall k, k <> index -> selectedExercises st' !! k = selectedExercises st !! k).
Proof.
  intros Hform Hset weight st'. subst weight st'. simpl. unfold updateSet.
  rewrite Hform, Hset. simpl. split_and!.
  - unfold JS.or_else. by destruct (parseFloat value) as [q| | |]; simpl;
      [destruct (negb (Qeq_bool q 0))|..].
  - intros Hfalsy. unfold JS.or_else. by rewrite Hfalsy.
  - eexists. split_and!.
    + apply list_lookup_insert_eq. by eapply lookup_lt_Some.
    + done.
    + simpl. apply list_lookup_insert_eq. by eapply lookup_lt_Some.
    + intros j Hj. simpl. by apply list_lookup_insert_ne.
  - intros k Hk. by apply list_lookup_insert_ne.
Qed.

End Runtime.

End DraftFacts.

(** ** When a composition goes through *)

Module ComposerRuns.
Import Store CreateWorkoutScreen Requests Composer.

Lemma request_answered {A : Type} env rq (exec : Z -> Tables -> Response (A * Tables))
    w a t' :
  fault env (length (log w)) = None ->
  exec (clock env (length (log w))) (tables w) = inr (a, t') ->
  request env rq exec w = (inr a, record_request rq None t' w).
Proof. unfold request. by intros -> ->. Qed.

(** Reps that the INTEGER column takes: a whole number of 32 bits. *)
Definition whole_reps (f : CreateSetForm) : Prop :=
  exists q z, csf_reps f = JS.Fin q /\ (q == inject_Z z)%Q
              /\ (-2147483648 <= z <= 2147483647)%Z.

(** A weight that the DECIMAL(5,2) column takes: none, or one that is not
    finite (sent as null), or one that rounds to less than 1000. *)
Definition fitting_weight (f : CreateSetForm) : Prop :=
  match csf_weight f with
  | Some (JS.Fin q) => (Qabs q < 999995 # 1000)%Q
  | _ => True
  end.

Lemma whole_reps_taken f : whole_reps f -> exists z, integer_not_null (csf_reps f) = inr z.
Proof.
  intros (q & z & -> & Hq & Hz). exists z.
  unfold integer_not_null, JS.json_number, JS.as_integer.
  assert (Hfloor : Qfloor q = z) by (rewrite (Qfloor_comp _ _ Hq); apply Qfloor_Z).
  rewrite Hfloor. rewrite (proj2 (Qeq_bool_iff _ _) Hq).
  assert (H21 : (10 ^ 21 = 1000000000000000000000)%Z) by reflexivity.
  rewrite (proj2 (Z.ltb_lt _ _)) by lia.
  unfold integer, int4. by rewrite !(proj2 (Z.leb_le _ _)) by lia.
Qed.

Lemma fitting_weight_taken f :
  fitting_weight f -> exists v, nullable_decimal (csf_weight f) = inr v.
Proof.
  unfold fitting_weight, nullable_decimal.
  destruct (csf_weight f) as [[q| | |]|]; simpl; try (by eexists).
  intros Hq. unfold decimal_5_2.
  destruct (Columns.round_half_away_near (q * 100)) as [Hnear _].
  set (z := round_half_away (q * 100)) in *.
  apply Qabs_Qle_condition in Hnear as [Hlo Hhi].
  apply Qabs_Qlt_condition in Hq as [Hql Hqh].
  assert (Hz : (- 100000 < z < 100000)%Z).
  { split; rewrite Zlt_Qlt.
    - change (inject_Z (-100000)) with (-100000)%Q. lra.
    - change (inject_Z 100000) with 100000%Q. lra. }
  rewrite (proj2 (Z.ltb_lt _ _)) by lia. by eexists.
Qed.

Lemma set_rows_answered t now workout_exercise_id form : forall next,
  Forall whole_reps (cef_sets form) ->
  Forall fitting_weight (cef_sets form) ->
  (exists j, j ∈ workout_exercises t /\ we_id j = workout_exercise_id) ->
  exists l, set_rows t now next (setsToInsert workout_exercise_id form) = inr l.
Proof.
  intros next Hreps Hweights (j & Hj & Hid).
  assert (Hfk : existsb (fun j => Nat.eqb (we_id j) workout_exercise_id)
                  (workout_exercises t) = true).
  { apply existsb_exists. exists j. split; [by apply list_elem_of_In|by apply Nat.eqb_eq]. }
  revert next. unfold setsToInsert.
  induction (cef_sets form) as [|f l IH]; intros next; simpl; [by eexists|].
  apply Forall_cons in Hreps as [[z Hz]%whole_reps_taken Hreps].
  apply Forall_cons in Hweights as [[v Hv]%fitting_weight_taken Hweights].
  rewrite Hz, Hv, Hfk. simpl.
  destruct (IH Hreps Hweights (S next)) as [l' ->]. by eexists.
Qed.

Lemma add_exercises_answered env workout_id : forall forms i w,
  (forall n, fault env n = None) ->
  NoDup (map cef_exercise_id forms) ->
  Forall (fun form => Forall whole_reps (cef_sets form)) forms ->
  Forall (fun form => Forall fitting_weight (cef_sets form)) forms ->
  Forall (fun form => exists e, e ∈ exercises (tables w) /\ e_id e = cef_exercise_id form)
    forms ->
  (exists row, row ∈ workouts (tables w) /\ w_id row = workout_id) ->
  (Z.of_nat (i + length forms) <= 2147483648)%Z ->
  (forall r, r ∈ workout_exercises (tables w) -> we_workout_id r = workout_id ->
             we_exercise_id r ∉ map cef_exercise_id forms) ->
  exists w', add_exercises env workout_id i forms w = (inr tt, w').
Proof.
  induction forms as [|form rest IH];
    intros i w Hok Hnd Hreps Hweights Hexs Hwk Hlen Hfree; simpl.
  - by eexists.
  - apply NoDup_cons in Hnd as [Hhead Hnd]. apply Forall_cons in Hreps as [Hform Hreps].
    apply Forall_cons in Hweights as [Hfit Hweights].
    apply Forall_cons in Hexs as [(e & He & Heid) Hexs].
    destruct Hwk as (row & Hrow & Hrid). simpl in Hlen.
    unfold bind, await_or_throw.
    assert (Hex : existsb (fun r => Nat.eqb (we_workout_id r) workout_id
                                    && Nat.eqb (we_exercise_id r) (cef_exercise_id form))
                    (workout_exercises (tables w)) = false).
    { apply not_true_is_false. intros (r & Hr & Hb)%existsb_exists.
      apply andb_true_iff in Hb as [Hw He']. apply Nat.eqb_eq in Hw, He'.
      apply (Hfree r); [by apply list_elem_of_In|done|]. rewrite He'. by left. }
    assert (Hfw : existsb (fun x => Nat.eqb (w_id x) workout_id) (workouts (tables w))
                  = true).
    { apply existsb_exists. exists row.
      split; [by apply list_elem_of_In|by apply Nat.eqb_eq]. }
    assert (Hfe : existsb (fun x => Nat.eqb (e_id x) (cef_exercise_id form))
                    (exercises (tables w)) = true).
    { apply existsb_exists. exists e.
      split; [by apply list_elem_of_In|by apply Nat.eqb_eq]. }
    assert (Hord : integer (Z.of_nat i) = inr (Z.of_nat i)).
    { unfold integer, int4. by rewrite !(proj2 (Z.leb_le _ _)) by lia. }
    erewrite request_answered;
      [|done|unfold insert_workout_exercise; by rewrite Hord, Hex, Hfw, Hfe].
    match goal with
    | |- context [request env (InsertSets ?rows) _ ?w1] =>
        destruct (set_rows_answered (tables w1) (clock env (length (log w1)))
                    (next_id (tables w)) form (next_id (tables w1)) Hform Hfit)
          as [l Hl]
    end.
    { simpl. eexists. split; [apply elem_of_app; right; by left|done]. }
    simpl in Hl.
    erewrite request_answered; [|done|unfold insert_sets; simpl; by rewrite Hl].
    apply IH; try done; simpl.
    + by exists row.
    + lia.
    + intros r Hr Hw Hin. apply elem_of_app in Hr as [Hr|Hr].
      * apply (Hfree r Hr Hw). by right.
      * apply list_elem_of_singleton in Hr. subst r. simpl in Hin. done.
Qed.

(** X4.  [createWorkout] ends with the success alert whenever the store
    answers its requests and nothing in the draft is against the schema:
    a name that is not blank and has at most 255 characters once trimmed,
    a user known to the store, at least one exercise, every exercise known
    to the store and none twice, whole numbers of reps that fit INTEGER,
    weights that fit DECIMAL(5,2), and no junction row that refers to a
    workout that does not exist yet. *)
Theorem createWorkout_succeeds env st w :
  (forall n, fault env n = None) ->
  JS.trim (workoutName st) <> "" ->
  String.length (JS.trim (workoutName st)) <= 255 ->
  user_id st ∈ users (tables w) ->
  selectedExercises st <> [] ->
  (Z.of_nat (length (selectedExercises st)) <= 2147483648)%Z ->
  NoDup (map cef_exercise_id (selectedExercises st)) ->
  Forall (fun form => exists e, e ∈ exercises (tables w) /\ e_id e = cef_exercise_id form)
    (selectedExercises st) ->
  Forall (fun form => Forall whole_reps (cef_sets form)) (selectedExercises st) ->
  Forall (fun form => Forall fitting_weight (cef_sets form)) (selectedExercises st) ->
  Forall (fun r => we_workout_id r < next_id (tables w)) (workout_exercises (tables w)) ->
  alerts (createWorkout env st w).2
  = alerts w ++ [("Success", "Workout created successfully!")].
Proof.
  intros Hok Hn Hname Huser Hs Hlen Hnd Hexs Hreps Hweights Hfk.
  rewrite createWorkout_cases by done.
  unfold create, bind, await_or_throw.
  assert (Hlong : Nat.ltb 255 (String.length (JS.trim (workoutName st))) = false)
    by (apply Nat.ltb_ge; lia).
  assert (Hknown : existsb (Nat.eqb (user_id st)) (users (tables w)) = true).
  { apply existsb_exists. exists (user_id st).
    split; [by apply list_elem_of_In|apply Nat.eqb_refl]. }
  erewrite request_answered; [|done|unfold insert_workout; simpl; by rewrite Hlong, Hknown].
  simpl.
  match goal with
  | |- context [add_exercises env ?wid ?i ?forms ?w1] =>
      destruct (add_exercises_answered env wid forms i w1) as [w' Hw']
  end; try done.
  { simpl. eexists. split; [apply elem_of_app; right; by left|done]. }
  { simpl. intros r Hr Hw. rewrite Forall_forall in Hfk. apply Hfk in Hr. lia. }
  rewrite Hw'. unfold tell. simpl.
  apply add_exercises_spec in Hw' as (_ & _ & _ & _ & _ & _ & _ & Ha & _). by rewrite Ha.
Qed.

Lemma createWorkout_succeeds_witness :
  alerts (createWorkout Scenario.reliable Scenario.leg_day Scenario.at_the_gym).2
  = [("Success", "Workout created successfully!")].
Proof.
  apply (createWorkout_succeeds Scenario.reliable Scenario.leg_day Scenario.at_the_gym).
  - done.
  - done.
  - simpl. lia.
  - simpl. by left.
  - done.
  - simpl. lia.
  - simpl. apply NoDup_cons_2; [|apply NoDup_singleton].
    intros H. by apply list_elem_of_singleton in H.
  - simpl. constructor; [|constructor; [|constructor]].
    + exists Scenario.squat. split; [by left|done].
    + exists Scenario.bench. split; [right; by left|done].
  - simpl.
    repeat (constructor;
            [ repeat (constructor;
                      [ eexists _, _; split; [reflexivity|]; split; [reflexivity|lia] | ]);
              constructor
            | ]).
    constructor.
  - simpl.
    repeat (constructor;
            [ repeat (constructor;
                      [ unfold fitting_weight; simpl;
                        first [ exact I
                              | apply Qabs_Qlt_condition; split; reflexivity ] | ]);
              constructor
            | ]).
    constructor.
  - repeat constructor; simpl; lia.
Defined.

End ComposerRuns.

(** ** More on the detail screen *)

Module DetailFacts.
Import Store WorkoutDetailScreen.

Lemma transform_total rows :
  Forall (fun we => is_Some (ews_exercises we)) rows ->
  exists exs, transform rows = inr exs /\ length exs = length rows.
Proof.
  induction 1 as [|we rows [e He] _ (exs & Hexs & Hlen)]; simpl.
  - by eexists.
  - rewrite He, Hexs. eexists. split; [done|]. simpl. by rewrite Hlen.
Qed.

Section Runtime.
Variable String_of_number : JS.number -> string.
Variable Number_of_string : string -> JS.number.

(** X5.  The "Complete Workout" button is there and enabled exactly when the
    screen has finished loading, holds a workout without [completed_at],
    and every set it holds is completed. *)
Theorem complete_button_enabled st :
  complete_button st = Some false
  <-> loading st = false
      /\ exists wk, workout st = Some wk
                    /\ w_completed_at (wk_row wk) = None
                    /\ Forall (fun ex => Forall (fun s => set_completed s = true) (ex_sets ex))
                         (wk_exercises wk).
Proof.
  unfold complete_button. split.
  - destruct (loading st); [done|].
    destruct (workout st) as [wk|] eqn:Hwk; [|done].
    destruct (w_completed_at (wk_row wk)) eqn:Hc; [done|].
    destruct (Nat.eqb (getCompletedSets st) (getTotalSets st)) eqn:Heq; [|done].
    intros _. split; [done|]. exists wk. split_and!; try done.
    apply Nat.eqb_eq in Heq. by eapply Aggregator.all_completed.
  - intros (-> & wk & Hwk & Hc & Hall). rewrite Hwk, Hc.
    assert (Heq : getCompletedSets st = getTotalSets st).
    { rewrite (Aggregator.getCompletedSets_sum _ _ Hwk), (Aggregator.getTotalSets_sum _ _ Hwk).
      induction Hall as [|ex l Hex _ IH]; simpl; [done|].
      by rewrite (Composer.filter_keep _ _ Hex), IH. }
    apply Nat.eqb_eq in Heq. by rewrite Heq.
Qed.

(** X6.  Pressing "Complete Workout" writes nothing but [completed_at] of the
    workout the screen was opened for: the other tables are untouched and
    every workout row keeps its identity, owner, name, description and
    creation time. *)
Theorem completion_writes_one_field env now st w :
  let after := tables (handle String_of_number Number_of_string env
                         (PressCompleteWorkout now) st w).2 in
  exercises after = exercises (tables w)
  /\ workout_exercises after = workout_exercises (tables w)
  /\ sets after = sets (tables w)
  /\ next_id after = next_id (tables w)
  /\ length (workouts after) = length (workouts (tables w))
  /\ forall k row row',
       workouts (tables w) !! k = Some row -> workouts after !! k = Some row' ->
       row' = row
       \/ (w_id row = workoutId st /\ row' = with_completed_at (Some now) row).
Proof.
  intros after. subst after. simpl.
  destruct (complete_button st) as [[|]|];
    try (split_and!; try done; intros; simpl in *; left; congruence).
  unfold completeWorkout, await_or_throw, request, update_workout_completed_at.
  destruct (fault env (length (log w))); simpl;
    [split_and!; try done; intros; simpl in *; left; congruence|].
  split_and!; try done.
  - by rewrite length_map.
  - intros k row row' Hk Hk'. rewrite list_lookup_fmap, Hk in Hk'. simpl in Hk'.
    injection Hk' as <-.
    destruct (Nat.eqb (w_id row) (workoutId st)) eqn:Hid; [right|by left].
    by apply Nat.eqb_eq in Hid.
Qed.

(** X7.  While the screen is loading, or holds no workout, nothing but the
    mounting does anything: no request, no alert, no change of state. *)
Theorem nothing_rendered_nothing_done env ev st w :
  loading st = true \/ workout st = None ->
  ev <> Mount ->
  handle String_of_number Number_of_string env ev st w = (st, w).
Proof.
  intros Hidle Hev.
  assert (Hset : forall setId, rendered_set st setId = None).
  { intros setId. unfold rendered_set. destruct Hidle as [-> | ->]; [done|].
    by destruct (loading st). }
  assert (Hbutton : complete_button st = None).
  { unfold complete_button. destruct Hidle as [-> | ->]; [done|].
    by destruct (loading st). }
  destruct ev; simpl; rewrite ?Hset, ?Hbutton; done.
Qed.

(** X8.  Opening the screen for a workout that is not in the store: the first
    query fails, no further request is issued, the error is alerted, and
    the screen ends up loaded without a workout. *)
Theorem mount_without_workout env st w :
  fault env (length (log w)) = None ->
  (forall row, row ∈ workouts (tables w) -> w_id row <> workoutId st) ->
  handle String_of_number Number_of_string env Mount st w
  = (setLoading false st,
     alert "Error" single_row_expected
       (record_request (SelectWorkout (workoutId st)) (Some single_row_expected)
          (tables w) w)).
Proof.
  intros Hf Hnone. simpl.
  unfold fetchWorkoutDetails, fetch, bind, await_or_throw, request, select_workout.
  rewrite Hf.
  rewrite (Composer.filter_drop (fun x => Nat.eqb (w_id x) (workoutId st))); [done|].
  apply Forall_forall. intros row Hrow. apply Nat.eqb_neq. by apply Hnone.
Qed.

(** X9.  Once the workout and its exercises are read, the screen shows them
    whatever becomes of the previous-performance requests: no alert, the
    workout held, one exercise per junction row and a (possibly empty)
    list of previous sets for each. *)
Theorem mount_survives_lookups env st w row :
  fault env (length (log w)) = None ->
  fault env (S (length (log w))) = None ->
  List.filter (fun x => Nat.eqb (w_id x) (workoutId st)) (workouts (tables w)) = [row] ->
  (forall r, r ∈ workout_exercises (tables w) -> we_workout_id r = workoutId st ->
             is_Some (exercise_of (tables w) (we_exercise_id r))) ->
  let after := handle String_of_number Number_of_string env Mount st w in
  alerts after.2 = alerts w
  /\ tables after.2 = tables w
  /\ loading after.1 = false
  /\ exists wk,
       workout after.1 = Some wk
       /\ wk_row wk = row
       /\ length (wk_exercises wk)
          = length (List.filter (fun r => Nat.eqb (we_workout_id r) (workoutId st))
                      (workout_exercises (tables w)))
       /\ forall ex, ex ∈ wk_exercises wk ->
            is_Some (previousByExerciseId after.1 !! ex_id ex).
Proof.
  intros Hf0 Hf1 Hrow Hex after. subst after. simpl.
  unfold fetchWorkoutDetails, fetch, bind, await_or_throw.
  erewrite (ComposerRuns.request_answered env (SelectWorkout _));
    [|done|unfold select_workout; by rewrite Hrow].
  erewrite (ComposerRuns.request_answered env (SelectWorkoutExercises _));
    [| |unfold select_workout_exercises; done].
  2:{ simpl. rewrite length_app. simpl.
      by replace (length (log w) + 1) with (S (length (log w))) by lia. }
  simpl. set (rows := sort_by _ _).
  destruct (transform_total rows) as (exs & Hexs & Hlen).
  { subst rows. rewrite Sorting.sort_by_perm. apply Forall_fmap, Forall_forall.
    intros r Hr. apply list_elem_of_In, filter_In in Hr as [Hr Hid].
    apply Nat.eqb_eq in Hid. simpl. apply Hex; [by apply list_elem_of_In|done]. }
  rewrite Hexs.
  match goal with
  | |- context [fetch_previous ?e ?c ?u ?l ?m ?w0] =>
      pose proof (Matcher.fetch_previous_spec e c u l m w0) as (Ht & Ha & Hl);
      destruct (fetch_previous e c u l m w0) as [prevMap w3] eqn:Hfp
  end.
  simpl in Ht, Ha, Hl |- *. split_and!; try done.
  eexists. split_and!; try done.
  - simpl. rewrite Hlen. subst rows.
    by rewrite (Permutation_length (Sorting.sort_by_perm _ _)), length_map.
  - simpl. intros ex Hin. destruct (Hl ex Hin) as (w0 & _ & ->). by eexists.
Qed.

End Runtime.

End DetailFacts.

(** ** The screen and the store stay in step *)

Module Mirror.
Import Store WorkoutDetailScreen.










Section Runtime.
Variable String_of_number : JS.number -> string.
Variable Number_of_string : string -> JS.number.

(** What a mounting leaves: the tables as they were, and either the
    workout held before (the fetch failed) or the workout and the
    exercises just read. *)
Lemma fetch_result env st w :
  tables (fetchWorkoutDetails String_of_number env st w).2 = tables w
  /\ (workout (fetchWorkoutDetails String_of_number env st w).1 = workout st
      \/ exists row rows exs,
           workout (fetchWorkoutDetails String_of_number env st w).1
           = Some {| wk_row := row; wk_exercises := exs |}
           /\ List.filter (fun x => Nat.eqb (w_id x) (workoutId st)) (workouts (tables w))
              = [row]
           /\ rows ≡ₚ map (embed_exercise (tables w))
                        (List.filter (fun r => Nat.eqb (we_workout_id r) (workoutId st))
                           (workout_exercises (tables w)))
           /\ transform rows = inr exs).
Proof.
  split; [apply Aggregator.fetchWorkoutDetails_tables|].
  unfold fetchWorkoutDetails, fetch, bind, await_or_throw.
  destruct (request env (SelectWorkout _) _ w) as [r1 w1] eqn:H1.
  apply Requests.request_inv in H1 as [_ [(m & -> & Ht1 & _)|(row & -> & _ & He1 & _)]];
    [by left|].
  unfold select_workout in He1.
  destruct (List.filter _ (workouts (tables w))) as [|row' [|]] eqn:Hrow; try done.
  injection He1 as -> Ht1.
  destruct (request env (SelectWorkoutExercises _) _ w1) as [r2 w2] eqn:H2.
  apply Requests.request_inv in H2 as [_ [(m & -> & Ht2 & _)|(rows & -> & _ & He2 & _)]];
    [by left|].
  unfold select_workout_exercises in He2. injection He2 as Hrows _.
  destruct (transform rows) as [m|exs] eqn:Htr; [by left|].
  destruct (fetch_previous env _ _ exs ∅ w2) as [prevMap w3].
  right. exists row, rows, exs. simpl. split_and!; try done.
  rewrite <- Hrows, <- Ht1. apply Sorting.sort_by_perm.
Qed.


End Runtime.

End Mirror.

(** ** Edits of sets as point updates *)

Module Edits.
Import Store WorkoutDetailScreen.

(** The three editors of a set, with the set they address. *)
Inductive Edit : Type :=
| EditReps (setId : nat) (newReps : JS.number)
| EditWeight (setId : nat) (newWeight : option JS.number)
| EditCompleted (setId : nat) (completed : bool).

Definition target (e : Edit) : nat :=
  match e with
  | EditReps setId _ | EditWeight setId _ | EditCompleted setId _ => setId
  end.

Inductive Column : Type := ColumnReps | ColumnWeight | ColumnCompleted.

Definition column (e : Edit) : Column :=
  match e with
  | EditReps _ _ => ColumnReps
  | EditWeight _ _ => ColumnWeight
  | EditCompleted _ _ => ColumnCompleted
  end.

Section Runtime.
Variable String_of_number : JS.number -> string.

Definition perform (env : Env) (e : Edit) (st : State) (w : World) : State * World :=
  match e with
  | EditReps setId newReps => updateSetReps String_of_number env setId newReps st w
  | EditWeight setId newWeight => updateSetWeight String_of_number env setId newWeight st w
  | EditCompleted setId completed => toggleSetCompletion env setId completed st w
  end.

End Runtime.

(** What an answered edit writes: the change of the row, unless the store
    refuses the value. *)
Definition written (e : Edit) : option (SetRow -> SetRow) :=
  match e with
  | EditReps _ newReps =>
      match integer_not_null (safeReps newReps) with
      | inr z => Some (with_reps z)
      | inl _ => None
      end
  | EditWeight _ newWeight =>
      match nullable_decimal (weightValue newWeight) with
      | inr stored => Some (with_weight stored)
      | inl _ => None
      end
  | EditCompleted _ completed => Some (with_completed (negb completed))
  end.

Definition effect (e : Edit) (t : Tables) : Tables :=
  match written e with
  | Some f => update_set (target e) f t
  | None => t
  end.

Lemma perform_tables String_of_number env e st w :
  fault env (length (log w)) = None ->
  tables (perform String_of_number env e st w).2 = effect e (tables w)
  /\ length (log (perform String_of_number env e st w).2) = S (length (log w)).
Proof.
  intros Hf. unfold effect. destruct e as [setId x|setId x|setId c]; simpl.
  - unfold updateSetReps, await_or_throw, request, update_set_reps. rewrite Hf.
    destruct (integer_not_null (safeReps x)); simpl; rewrite length_app; simpl;
      split; try done; lia.
  - unfold updateSetWeight, await_or_throw, request, update_set_weight. rewrite Hf.
    destruct (nullable_decimal (weightValue x)); simpl; rewrite length_app; simpl;
      split; try done; lia.
  - unfold toggleSetCompletion, await_or_throw, request, update_set_completed. rewrite Hf.
    simpl. rewrite length_app. simpl. split; [done|lia].
Qed.

Lemma written_keeps_id e f s : written e = Some f -> s_id (f s) = s_id s.
Proof.
  destruct e as [setId x|setId x|setId c]; simpl.
  - destruct (integer_not_null _); [done|]. by intros [= <-].
  - destruct (nullable_decimal _); [done|]. by intros [= <-].
  - by intros [= <-].
Qed.

Lemma written_commute e1 e2 f g s :
  column e1 <> column e2 -> written e1 = Some f -> written e2 = Some g ->
  f (g s) = g (f s).
Proof.
  destruct e1 as [a x|a x|a c], e2 as [b y|b y|b d]; simpl; try done;
    repeat match goal with
           | |- context [integer_not_null ?v] => destruct (integer_not_null v); [done|]
           | |- context [nullable_decimal ?v] => destruct (nullable_decimal v); [done|]
           end;
    by intros _ [= <-] [= <-].
Qed.

Lemma update_set_commute a f b g t :
  (forall s, s_id (f s) = s_id s) -> (forall s, s_id (g s) = s_id s) ->
  (a <> b \/ forall s, f (g s) = g (f s)) ->
  update_set a f (update_set b g t) = update_set b g (update_set a f t).
Proof.
  intros Hf Hg Hind. unfold update_set, Store.with_sets. simpl. f_equal.
  rewrite !map_map. apply map_ext. intros s.
  destruct (Nat.eqb (s_id s) a) eqn:Ha, (Nat.eqb (s_id s) b) eqn:Hb;
    rewrite ?Hf, ?Hg, ?Ha, ?Hb; try done.
  apply Nat.eqb_eq in Ha, Hb. destruct Hind as [Hne|Hcomm]; [congruence|done].
Qed.

(** X11.  Edits are point updates that do not interfere: two edits of
    different sets, or of different fields of one set, leave the same
    tables in either order when the store answers both. *)
Theorem edits_commute String_of_number env e1 e2 st w :
  (forall n, fault env n = None) ->
  target e1 <> target e2 \/ column e1 <> column e2 ->
  let first12 := perform String_of_number env e1 st w in
  let first21 := perform String_of_number env e2 st w in
  tables (perform String_of_number env e2 first12.1 first12.2).2
  = tables (perform String_of_number env e1 first21.1 first21.2).2.
Proof.
  intros Hok Hind first12 first21. subst first12 first21.
  rewrite !(proj1 (perform_tables _ _ _ _ _ (Hok _))).
  unfold effect.
  destruct (written e1) as [f|] eqn:H1, (written e2) as [g|] eqn:H2; try done.
  symmetry. apply update_set_commute.
  - intros s. by eapply written_keeps_id.
  - intros s. by eapply written_keeps_id.
  - destruct Hind as [Hne|Hcol]; [by left|right].
    intros s. by eapply written_commute.
Qed.

(** X12.  Repeating an edit changes nothing more: the tables after the same
    edit twice are the tables after it once. *)
Theorem edit_twice String_of_number env e st st' w :
  (forall n, fault env n = None) ->
  tables (perform String_of_number env e st'
            (perform String_of_number env e st w).2).2
  = tables (perform String_of_number env e st w).2.
Proof.
  intros Hok. rewrite !(proj1 (perform_tables _ _ _ _ _ (Hok _))).
  unfold effect. destruct (written e) as [f|] eqn:He; [|done].
  unfold update_set, Store.with_sets. simpl. f_equal.
  rewrite map_map. apply map_ext. intros s.
  destruct (Nat.eqb (s_id s) (target e)) eqn:Hs; rewrite ?Hs; [|done].
  rewrite (written_keeps_id _ _ _ He), Hs.
  destruct e as [setId x|setId x|setId c]; simpl in He.
  - destruct (integer_not_null _); [done|]. by injection He as <-.
  - destruct (nullable_decimal _); [done|]. by injection He as <-.
  - by injection He as <-.
Qed.

End Edits.

(** ** More on the history *)

Module HistoryFacts.
Import Store WorkoutHistoryScreen History.

Lemma sorted_map {A B : Type} (f : A -> B) (R : B -> B -> Prop) l :
  StronglySorted (fun a b => R (f a) (f b)) l -> StronglySorted R (map f l).
Proof.
  induction 1 as [|x l _ IH Hx]; simpl; constructor; [done|].
  by apply Forall_fmap.
Qed.

Lemma sorted_impl {A : Type} (P Q : A -> A -> Prop) l :
  (forall a b, P a b -> Q a b) -> StronglySorted P l -> StronglySorted Q l.
Proof.
  intros HPQ. induction 1 as [|x l _ IH Hx]; [constructor|].
  constructor; [done|]. eapply Forall_impl; [exact Hx|]. apply HPQ.
Qed.

(** Every workout listed is the user's, passes the filter and is in the
    store. *)
Lemma shown_items env f st w :
  fault env (length (log w)) = None ->
  Forall (fun h => w_user_id (hr_workout (item h)) = user_id st
                   /\ history_condition f (hr_workout (item h)) = true
                   /\ hr_workout (item h) ∈ Store.workouts (tables w))
    (shown env f st w).
Proof.
  intros Hf. rewrite shown_answered by done.
  apply Forall_fmap. rewrite Sorting.sort_by_perm. apply Forall_forall. intros x Hx. simpl.
  apply list_elem_of_In, filter_In in Hx as [Hx Hc].
  apply andb_true_iff in Hc as [Hu Hc]. apply Nat.eqb_eq in Hu.
  split_and!; try done. by apply list_elem_of_In.
Qed.

(** X13.  The history lists the signed-in user's workouts that pass the filter,
    each once, the most recently created first. *)
Theorem history_is_own_and_newest_first env f st w :
  fault env (length (log w)) = None ->
  Forall (fun h => w_user_id (hr_workout (item h)) = user_id st
                   /\ history_condition f (hr_workout (item h)) = true
                   /\ hr_workout (item h) ∈ Store.workouts (tables w))
    (shown env f st w)
  /\ StronglySorted
       (fun a b => (w_created_at (hr_workout (item b))
                    <= w_created_at (hr_workout (item a)))%Z)
       (shown env f st w)
  /\ map (fun h => hr_workout (item h)) (shown env f st w)
     ≡ₚ List.filter
          (fun x => Nat.eqb (w_user_id x) (user_id st) && history_condition f x)
          (Store.workouts (tables w)).
Proof.
  intros Hf. rewrite shown_answered by done.
  set (le := fun a b : Workout => Z.leb (w_created_at b) (w_created_at a)).
  set (l := List.filter _ _).
  assert (Hperm : sort_by le l ≡ₚ l) by apply Sorting.sort_by_perm.
  split_and!.
  - subst l le. rewrite <- (shown_answered env f st w Hf). by apply shown_items.
  - apply sorted_map. simpl.
    assert (Hs : StronglySorted (fun a b => le a b = true) (sort_by le l)).
    { apply Sorting.sort_by_sorted; subst le; simpl.
      - intros a b. apply Sorting.Z_leb_total.
      - intros a b c H1 H2. exact (Sorting.Z_leb_trans _ _ _ H2 H1). }
    eapply sorted_impl; [|exact Hs]. subst le. simpl. intros a b. apply Z.leb_le.
  - rewrite map_map. simpl. by rewrite map_id.
Qed.

Lemma count_completed (l : list HistoryWorkout) :
  length (List.filter (fun w => bool_decide (is_Some (completed_at w))) l)
  = length (List.filter is_completed l).
Proof.
  f_equal. apply filter_ext_bool. intros h. unfold is_completed.
  destruct (completed_at h); [by apply bool_decide_eq_true|].
  apply bool_decide_eq_false. by intros [? ?].
Qed.

Lemma card_counts (h : HistoryRow) :
  completedSets (transformWorkout h) <= totalSets (transformWorkout h).
Proof.
  unfold transformWorkout. simpl. rewrite !Aggregator.foldl_sum. simpl.
  induction (hr_workout_exercises h) as [|we l IH]; simpl; [done|].
  pose proof (List.filter_length_le s_completed (he_sets we)). lia.
Qed.

Lemma cards_counts (l : list HistoryRow) :
  sum_list (map completedSets (map transformWorkout l))
  <= sum_list (map totalSets (map transformWorkout l)).
Proof.
  induction l as [|x l IH]; [done|]. cbn [map sum_list].
  apply Nat.add_le_mono; [apply card_counts|exact IH].
Qed.

(** X14.  The figures above the list after a change of filter.  When the
    query is answered they are taken over the list as filtered: under
    'completed' every listed workout counts as completed, under
    'incomplete' none does, and the completed sets never exceed the sets.
    When the query is refused the list is the one shown before, with the
    new filter selected, and the figures are the old ones. *)
Theorem stats_follow_the_filter env f st w :
  let after := (fetchWorkoutHistory env (setFilter f st) w).1 in
  let stats := getWorkoutStats after in
  stat_totalWorkouts stats = length (workouts after)
  /\ stat_completedWorkouts stats <= stat_totalWorkouts stats
  /\ (fault env (length (log w)) = None ->
      (f = FilterCompleted -> stat_completedWorkouts stats = stat_totalWorkouts stats)
      /\ (f = FilterIncomplete -> stat_completedWorkouts stats = 0)
      /\ stat_completedSets stats <= stat_totalSets stats)
  /\ (fault env (length (log w)) <> None ->
      workouts after = workouts st
      /\ filter after = f
      /\ stats = getWorkoutStats st).
Proof.
  intros after stats. subst stats after. split_and!.
  - done.
  - apply List.filter_length_le.
  - intros Hf. unfold getWorkoutStats. simpl.
    fold (shown env f st w). rewrite count_completed.
    pose proof (shown_items env f st w Hf) as Hitems.
    split_and!.
    + intros ->. rewrite Composer.filter_keep; [done|].
      eapply Forall_impl; [exact Hitems|]. simpl. intros h (_ & Hc & _).
      unfold is_completed, completed_at. by destruct (w_completed_at _).
    + intros ->. rewrite Composer.filter_drop; [done|].
      eapply Forall_impl; [exact Hitems|]. simpl. intros h (_ & Hc & _).
      unfold is_completed, completed_at. by destruct (w_completed_at _).
    + rewrite !Aggregator.foldl_sum. rewrite shown_answered by done.
      rewrite <- (map_map (embed_history (tables w)) transformWorkout).
      pose proof (cards_counts
                    (map (embed_history (tables w))
                       (sort_by (fun a b => Z.leb (w_created_at b) (w_created_at a))
                          (List.filter
                             (fun x => Nat.eqb (w_user_id x) (user_id st)
                                       && history_condition f x)
                             (Store.workouts (tables w)))))).
      simpl in *. lia.
  - intros Hf. unfold fetchWorkoutHistory, await_or_throw, request.
    destruct (fault env (length (log w))); [done|]. by destruct Hf.
Qed.

End HistoryFacts.

(** ** The same workout on two screens *)

Module Counts.
Import Store.

Lemma sum_list_perm (l1 l2 : list nat) : l1 ≡ₚ l2 -> sum_list l1 = sum_list l2.
Proof.
  induction 1 as [|x l1 l2 _ IH|x y l|l1 l2 l3 _ IH1 _ IH2]; simpl; unfold id in *; lia.
Qed.

Lemma completed_decoded (l : list SetRow) :
  length (List.filter WorkoutDetailScreen.set_completed
            (map WorkoutDetailScreen.decode_set
               (sort_by WorkoutDetailScreen.by_created_at l)))
  = length (List.filter s_completed l).
Proof.
  rewrite History.filter_map, length_map. simpl.
  rewrite Sorting.filter_sort_by.
  - by rewrite (Permutation_length (Sorting.sort_by_perm _ _)).
  - intros a b. apply Sorting.Z_leb_total.
  - intros a b c. apply Sorting.Z_leb_trans.
Qed.

(** The counts of the exercises the detail screen builds are the counts
    of the joined rows it read. *)
Lemma transform_counts rows : forall exs,
  WorkoutDetailScreen.transform rows = inr exs ->
  length exs = length rows
  /\ map (fun ex => length (WorkoutDetailScreen.ex_sets ex)) exs
     = map (fun we => length (ews_sets we)) rows
  /\ map (fun ex => length (List.filter WorkoutDetailScreen.set_completed
                              (WorkoutDetailScreen.ex_sets ex))) exs
     = map (fun we => length (List.filter s_completed (ews_sets we))) rows.
Proof.
  induction rows as [|row rows IH]; intros exs Ht; simpl in Ht.
  - by injection Ht as <-.
  - destruct (ews_exercises row) as [e|]; [|done].
    destruct (WorkoutDetailScreen.transform rows) as [m|l] eqn:Hl; [done|].
    injection Ht as <-. destruct (IH l eq_refl) as (H1 & H2 & H3). simpl.
    rewrite H1, H2, H3, completed_decoded, length_map.
    by rewrite (Permutation_length (Sorting.sort_by_perm _ _)).
Qed.

(** X15.  A workout opened on the detail screen shows the counts its card in
    the history shows: as many exercises, as many sets, as many completed
    sets. *)
Theorem detail_and_history_agree (String_of_number : JS.number -> string) env st w wk :
  WorkoutDetailScreen.workout st = None ->
  WorkoutDetailScreen.workout
    (WorkoutDetailScreen.fetchWorkoutDetails String_of_number env st w).1 = Some wk ->
  let opened := (WorkoutDetailScreen.fetchWorkoutDetails String_of_number env st w).1 in
  let card :=
    WorkoutHistoryScreen.transformWorkout
      (embed_history (tables w) (WorkoutDetailScreen.wk_row wk)) in
  length (WorkoutDetailScreen.wk_exercises wk) = WorkoutHistoryScreen.totalExercises card
  /\ WorkoutDetailScreen.getTotalSets opened = WorkoutHistoryScreen.totalSets card
  /\ WorkoutDetailScreen.getCompletedSets opened = WorkoutHistoryScreen.completedSets card.
Proof.
  intros Hnone Hwk opened card. subst opened card.
  destruct (Mirror.fetch_result String_of_number env st w)
    as [_ [Hsame|(row & rows & exs & Hwk' & Hrow & Hperm & Htr)]]; [congruence|].
  rewrite Hwk in Hwk'. injection Hwk' as ->.
  assert (Hid : w_id row = WorkoutDetailScreen.workoutId st).
  { assert (Hin : In row (List.filter
                            (fun x => Nat.eqb (w_id x) (WorkoutDetailScreen.workoutId st))
                            (workouts (tables w)))) by (rewrite Hrow; by left).
    apply filter_In in Hin as [_ Hin]. by apply Nat.eqb_eq in Hin. }
  destruct (transform_counts rows exs Htr) as (Hlen & Htot & Hdone).
  rewrite (Aggregator.getTotalSets_sum _ _ Hwk), (Aggregator.getCompletedSets_sum _ _ Hwk).
  unfold WorkoutHistoryScreen.transformWorkout, embed_history. simpl.
  rewrite !Aggregator.foldl_sum, Hid, Htot, Hdone, Hlen. simpl.
  rewrite !map_map. simpl. split_and!.
  - by rewrite (Permutation_length Hperm), !length_map.
  - apply sum_list_perm. rewrite Hperm. by rewrite map_map.
  - apply sum_list_perm. rewrite Hperm. by rewrite map_map.
Qed.

End Counts.

(** ** The store stays well formed *)

Module Soundness.
Import Store.

(** The constraints of the schema that the tables must keep: primary keys
    are distinct and were issued by the counter, references point to
    issued identifiers, and a workout has an exercise at most once. *)
Record sound (t : Tables) : Prop := {
  workout_keys : NoDup (map w_id (workouts t));
  workout_issued : Forall (fun r => w_id r < next_id t) (workouts t);
  junction_keys : NoDup (map we_id (workout_exercises t));
  junction_issued :
    Forall (fun r => we_id r < next_id t /\ we_workout_id r < next_id t)
      (workout_exercises t);
  junction_unique :
    NoDup (map (fun r => (we_workout_id r, we_exercise_id r)) (workout_exercises t));
  set_keys : NoDup (map s_id (sets t));
  set_issued :
    Forall (fun s => s_id s < next_id t /\ s_workout_exercise_id s < next_id t) (sets t) }.

Lemma fresh_key {A : Type} (key : A -> nat) (l : list A) (n : nat) :
  Forall (fun x => key x < n) l -> forall m, n <= m -> m ∉ map key l.
Proof.
  intros Hall m Hm (x & -> & Hx)%list_elem_of_fmap.
  rewrite Forall_forall in Hall. apply Hall in Hx. lia.
Qed.

Lemma keys_app {A : Type} (key : A -> nat) (l new : list A) (n : nat) :
  Forall (fun x => key x < n) l -> NoDup (map key l) ->
  map key new = seq n (length new) ->
  NoDup (map key (l ++ new)).
Proof.
  intros Hall Hnd Hnew. rewrite map_app. apply NoDup_app. split_and!; [done| |].
  - intros m Hm. rewrite Hnew. intros Hin%list_elem_of_In%in_seq.
    by apply (fresh_key key l n Hall m); [lia|].
  - rewrite Hnew. apply NoDup_ListNoDup, List.seq_NoDup.
Qed.

Lemma set_rows_keys t now : forall rows next l,
  set_rows t now next rows = inr l ->
  map s_id l = seq next (length l)
  /\ map s_workout_exercise_id l = map ns_workout_exercise_id rows.
Proof.
  induction rows as [|ns rows IH]; intros next l; simpl.
  - by intros [= <-].
  - destruct (integer_not_null (ns_reps ns)); [done|].
    destruct (nullable_decimal (ns_weight ns)); [done|].
    destruct (negb _); [done|].
    destruct (set_rows t now (S next) rows) as [e|l'] eqn:Hl; [done|].
    intros [= <-]. destruct (IH _ _ Hl) as [H1 H2]. simpl. by rewrite H1, H2.
Qed.

Lemma sound_insert_workout name description user_id now t row t' :
  insert_workout name description user_id now t = inr (row, t') -> sound t -> sound t'.
Proof.
  unfold insert_workout. destruct (Nat.ltb _ _); [done|]. destruct (negb _); [done|].
  intros [= <- <-] [H1 H2 H3 H4 H5 H6 H7].
  constructor; simpl; try done.
  - apply (keys_app w_id _ [_] (next_id t)); done.
  - apply Forall_app. split; [|by repeat constructor].
    eapply Forall_impl; [exact H2|]. simpl. lia.
  - eapply Forall_impl; [exact H4|]. simpl. lia.
  - eapply Forall_impl; [exact H7|]. simpl. lia.
Qed.

Lemma sound_insert_workout_exercise workout_id exercise_id order now t row t' :
  insert_workout_exercise workout_id exercise_id order now t = inr (row, t') ->
  workout_id < next_id t -> sound t -> sound t'.
Proof.
  unfold insert_workout_exercise. destruct (integer _); [done|].
  destruct (existsb _ (workout_exercises t)) eqn:Hex; [done|].
  destruct (negb _); [done|].
  intros [= <- <-] Hwid [H1 H2 H3 H4 H5 H6 H7].
  constructor; simpl; try done.
  - eapply Forall_impl; [exact H2|]. simpl. lia.
  - apply (keys_app we_id _ [_] (next_id t)); try done.
    eapply Forall_impl; [exact H4|]. simpl. tauto.
  - apply Forall_app. split; [|repeat constructor; simpl; lia].
    eapply Forall_impl; [exact H4|]. simpl. lia.
  - rewrite map_app. simpl. apply NoDup_app. split_and!; [done| |apply NoDup_singleton].
    intros p Hp Hp'. apply list_elem_of_singleton in Hp'. subst p.
    apply list_elem_of_fmap in Hp as (r & Heq & Hr). injection Heq as Hw He.
    assert (Ht : existsb (fun r => Nat.eqb (we_workout_id r) workout_id
                                   && Nat.eqb (we_exercise_id r) exercise_id)
                   (workout_exercises t) = true); [|congruence].
    apply existsb_exists. exists r. split; [by apply list_elem_of_In|].
    apply andb_true_iff. split; by apply Nat.eqb_eq.
  - eapply Forall_impl; [exact H7|]. simpl. lia.
Qed.

Lemma sound_insert_sets rows now t u t' :
  insert_sets rows now t = inr (u, t') ->
  Forall (fun ns => ns_workout_exercise_id ns < next_id t) rows ->
  sound t -> sound t'.
Proof.
  unfold insert_sets. destruct (set_rows t now (next_id t) rows) as [e|l] eqn:Hl; [done|].
  intros Heq Hrefs [H1 H2 H3 H4 H5 H6 H7]. simplify_eq.
  destruct (set_rows_keys _ _ _ _ _ Hl) as [Hkeys Hweid].
  constructor; simpl; try done.
  - eapply Forall_impl; [exact H2|]. simpl. lia.
  - eapply Forall_impl; [exact H4|]. simpl. lia.
  - apply (keys_app s_id _ l (next_id t)); try done.
    eapply Forall_impl; [exact H7|]. simpl. tauto.
  - apply Forall_app. split.
    + eapply Forall_impl; [exact H7|]. simpl. lia.
    + apply Forall_forall. intros s Hs. split.
      * assert (Hin : s_id s ∈ seq (next_id t) (length l))
          by (rewrite <- Hkeys; apply list_elem_of_fmap; by exists s).
        apply list_elem_of_In, in_seq in Hin. lia.
      * assert (Hin : s_workout_exercise_id s ∈ map ns_workout_exercise_id rows)
          by (rewrite <- Hweid; apply list_elem_of_fmap; by exists s).
        apply list_elem_of_fmap in Hin as (ns & -> & Hns).
        rewrite Forall_forall in Hrefs. apply Hrefs in Hns. lia.
Qed.

Lemma sound_update_set id f t :
  (forall s, s_id (f s) = s_id s) ->
  (forall s, s_workout_exercise_id (f s) = s_workout_exercise_id s) ->
  sound t -> sound (update_set id f t).
Proof.
  intros Hid Hweid [H1 H2 H3 H4 H5 H6 H7].
  assert (Hkeep : forall (key : SetRow -> nat),
            (forall s, key (f s) = key s) ->
            map key (map (fun s => if Nat.eqb (s_id s) id then f s else s) (sets t))
            = map key (sets t)).
  { intros key Hkey. rewrite map_map. apply map_ext. intros s.
    by destruct (Nat.eqb (s_id s) id). }
  constructor; simpl; try done.
  - by rewrite Hkeep.
  - apply Forall_fmap. eapply Forall_impl; [exact H7|]. simpl. intros s.
    destruct (Nat.eqb (s_id s) id); [|done]. by rewrite Hid, Hweid.
Qed.

Lemma sound_update_workout_completed_at id at_ now t u t' :
  update_workout_completed_at id at_ now t = inr (u, t') -> sound t -> sound t'.
Proof.
  unfold update_workout_completed_at. intros Heq [H1 H2 H3 H4 H5 H6 H7].
  simplify_eq. constructor; simpl; try done.
  - rewrite map_map. erewrite map_ext; [exact H1|].
    intros r. simpl. by destruct (Nat.eqb (w_id r) id).
  - apply Forall_fmap. eapply Forall_impl; [exact H2|]. simpl. intros r.
    by destruct (Nat.eqb (w_id r) id).
Qed.

Lemma request_keeps {A : Type} (P : Tables -> Prop) env rq
    (exec : Z -> Tables -> Response (A * Tables)) w :
  (forall a t', exec (clock env (length (log w))) (tables w) = inr (a, t') -> P t') ->
  P (tables w) -> P (tables (request env rq exec w).2).
Proof.
  intros Hexec HP. unfold request.
  destruct (fault env (length (log w))); [done|].
  destruct (exec _ _) as [m|[a t']] eqn:He; [done|]. simpl. by eapply Hexec.
Qed.

Lemma add_exercises_sound env workout_id : forall forms i w,
  workout_id < next_id (tables w) -> sound (tables w) ->
  sound (tables (CreateWorkoutScreen.add_exercises env workout_id i forms w).2).
Proof.
  induction forms as [|form rest IH]; intros i w Hwid Hs; simpl; [done|].
  unfold bind, await_or_throw.
  destruct (request env (InsertWorkoutExercise _ _ _) _ w) as [r1 w1] eqn:H1.
  pose proof H1 as H1'.
  apply Requests.request_inv in H1 as [_ [(m & -> & Ht & _)|(r & -> & _ & He & _)]].
  { simpl. by rewrite Ht. }
  pose proof (sound_insert_workout_exercise _ _ _ _ _ _ _ He Hwid Hs) as Hs1.
  apply Composer.insert_workout_exercise_inv in He
    as (_ & _ & _ & _ & Hnext & Hrid & _).
  destruct (request env (InsertSets _) _ w1) as [r2 w2] eqn:H2.
  apply Requests.request_inv in H2 as [_ [(m & -> & Ht & _)|(u & -> & _ & He2 & _)]].
  { simpl. by rewrite Ht. }
  assert (Hs2 : sound (tables w2)).
  { eapply sound_insert_sets; [exact He2| |done].
    unfold CreateWorkoutScreen.setsToInsert. apply Forall_fmap, Forall_forall.
    intros f _. simpl. lia. }
  apply IH; [|done].
  apply Composer.insert_sets_inv in He2 as (l & _ & _ & _ & _ & Hnext2 & _). lia.
Qed.

Section Runtime.
Variable String_of_number : JS.number -> string.
Variable Number_of_string : string -> JS.number.

(** X16.  Whatever the composer and the detail screen do, and whatever the
    store answers, the tables stay well formed: keys distinct and issued
    by the counter, references to issued identifiers, and no exercise
    twice in a workout. *)
Theorem screens_keep_the_store_sound env w :
  sound (tables w) ->
  (forall st, sound (tables (CreateWorkoutScreen.createWorkout env st w).2))
  /\ (forall ev st,
        sound (tables (WorkoutDetailScreen.handle String_of_number Number_of_string
                         env ev st w).2))
  /\ (forall st, tables (WorkoutHistoryScreen.fetchWorkoutHistory env st w).2 = tables w).
Proof.
  intros Hs. split_and!.
  - intros st. unfold CreateWorkoutScreen.createWorkout.
    destruct (negb _); [done|]. destruct (Nat.eqb _ 0); [done|].
    assert (Hc : sound (tables (CreateWorkoutScreen.create env
                                  (CreateWorkoutScreen.setLoading true st) w).2)).
    { unfold CreateWorkoutScreen.create, bind, await_or_throw.
      destruct (request env (InsertWorkout _ _ _) _ w) as [r1 w1] eqn:H1.
      apply Requests.request_inv in H1 as [_ [(m & -> & Ht & _)|(row & -> & _ & He & _)]].
      { simpl. by rewrite Ht. }
      pose proof (sound_insert_workout _ _ _ _ _ _ _ He Hs) as Hs1.
      apply Composer.insert_workout_inv in He as (_ & _ & _ & _ & Hnext & Hrid & _).
      pose proof (add_exercises_sound env (w_id row)
                    (CreateWorkoutScreen.selectedExercises
                       (CreateWorkoutScreen.setLoading true st)) 0 w1
                    ltac:(lia) Hs1) as Hs2.
      destruct (CreateWorkoutScreen.add_exercises env (w_id row) 0 _ w1) as [[m|u] w2];
        done. }
    by destruct (CreateWorkoutScreen.create env _ w) as [[m|u] w'].
  - intros ev st.
    destruct ev as [|setId|setId t|setId t|setId|setId|now]; simpl.
    + by rewrite Aggregator.fetchWorkoutDetails_tables.
    + destruct (WorkoutDetailScreen.rendered_set st setId); [|done].
      destruct (WorkoutDetailScreen.updating st); [done|].
      unfold WorkoutDetailScreen.toggleSetCompletion, await_or_throw.
      pose proof (request_keeps sound env
                    (UpdateSetCompleted setId (negb (WorkoutDetailScreen.set_completed s)))
                    (update_set_completed setId (negb (WorkoutDetailScreen.set_completed s)))
                    w) as Hk.
      destruct (request env _ _ w) as [[m|u] w']; simpl in *; apply Hk; try done;
        intros a t' Heq; injection Heq as _ <-; by apply sound_update_set.
    + destruct (WorkoutDetailScreen.rendered_set st setId); [|done].
      by destruct (WorkoutDetailScreen.updating st).
    + destruct (WorkoutDetailScreen.rendered_set st setId); [|done].
      by destruct (WorkoutDetailScreen.updating st).
    + destruct (WorkoutDetailScreen.rendered_set st setId); [|done].
      destruct (WorkoutDetailScreen.updating st); [done|].
      unfold WorkoutDetailScreen.updateSetWeight, await_or_throw.
      match goal with
      | |- context [request env ?rq ?exec w] =>
          pose proof (request_keeps sound env rq exec w) as Hk;
          destruct (request env rq exec w) as [[m|u] w']
      end; simpl in *; apply Hk; try done;
        unfold update_set_weight; intros a t'; destruct (nullable_decimal _); try done;
        intros Heq; injection Heq as _ <-; by apply sound_update_set.
    + destruct (WorkoutDetailScreen.rendered_set st setId); [|done].
      destruct (WorkoutDetailScreen.updating st); [done|].
      unfold WorkoutDetailScreen.updateSetReps, await_or_throw.
      match goal with
      | |- context [request env ?rq ?exec w] =>
          pose proof (request_keeps sound env rq exec w) as Hk;
          destruct (request env rq exec w) as [[m|u] w']
      end; simpl in *; apply Hk; try done;
        unfold update_set_reps; intros a t'; destruct (integer_not_null _); try done;
        intros Heq; injection Heq as _ <-; by apply sound_update_set.
    + destruct (WorkoutDetailScreen.complete_button st) as [[|]|]; try done.
      unfold WorkoutDetailScreen.completeWorkout, await_or_throw.
      match goal with
      | |- context [request env ?rq ?exec w] =>
          pose proof (request_keeps sound env rq exec w) as Hk;
          destruct (request env rq exec w) as [[m|u] w']
      end; simpl in *; apply Hk; try done;
        intros a t' He; by eapply sound_update_workout_completed_at.
  - intros st. unfold WorkoutHistoryScreen.fetchWorkoutHistory, await_or_throw, request.
    destruct (fault env (length (log w))); [done|]. done.
Qed.

End Runtime.

End Soundness.

(** ** Leaving a field without typing *)

Module Untouched.
Import Store WorkoutDetailScreen.




Section Runtime.
Variable String_of_number : JS.number -> string.
Variable Number_of_string : string -> JS.number.







End Runtime.

End Untouched.

(** ** The properties at work on the scenario *)

Module Examples.
Import Store.

(** The composer as it opens: nothing typed, nothing selected. *)
Definition blank : CreateWorkoutScreen.State :=
  {| CreateWorkoutScreen.workoutName := "";
     CreateWorkoutScreen.workoutDescription := "";
     CreateWorkoutScreen.selectedExercises := [];
     CreateWorkoutScreen.loading := false;
     CreateWorkoutScreen.user_id := 7 |}.

(** [parseFloat] and [parseInt] on the texts typed in the scenario, which
    are empty or runs of digits: the empty text is NaN, a run of digits is
    its value. *)
Definition digits (s : string) : JS.number :=
  if String.eqb s "" then JS.NaN else Scenario.number_of_text s.

(** Squat, bench press, squat again, one more set, bench press removed
    and added again: the draft holds each exercise once. *)
Lemma draft_exercises_distinct_witness :
  let evs := [ Draft.PressExercise Scenario.squat; Draft.PressExercise Scenario.bench;
               Draft.PressExercise Scenario.squat; Draft.PressAddSet 0;
               Draft.PressRemove 1; Draft.PressExercise Scenario.bench ] in
  CreateWorkoutScreen.selectedExercises blank = []
  /\ NoDup (map CreateWorkoutScreen.cef_exercise_id
              (CreateWorkoutScreen.selectedExercises
                 (foldl (fun s ev => Draft.edit digits digits ev s) blank evs))).
Proof.
  intros evs. split; [reflexivity|].
  apply (DraftFacts.draft_exercises_distinct digits digits evs blank). reflexivity.
Defined.

(** Clearing the weight of the second set of squats leaves 0, not null. *)
Lemma typed_weight_is_never_null_witness :
  CreateWorkoutScreen.selectedExercises Scenario.leg_day !! 0 = Some Scenario.squats
  /\ CreateWorkoutScreen.cef_sets Scenario.squats !! 1
     = Some {| CreateWorkoutScreen.csf_weight := Some (JS.Fin (201 # 2));
               CreateWorkoutScreen.csf_reps := JS.of_Z 6 |}
  /\ nullable_decimal (Some (JS.or_else (digits "") (JS.of_Z 0)))
     = inr (Some (inject_Z 0)).
Proof.
  split; [reflexivity|split; [reflexivity|]].
  destruct (DraftFacts.typed_weight_is_never_null digits digits 0 1 "" Scenario.leg_day
              Scenario.squats _ eq_refl eq_refl) as (_ & Hzero & _).
  apply Hzero. reflexivity.
Defined.

(** A press on a set before the workout is loaded does nothing. *)
Lemma nothing_rendered_nothing_done_witness :
  WorkoutDetailScreen.loading (Scenario.opening 13) = true
  /\ WorkoutDetailScreen.handle Scenario.decimal Scenario.number_of_text Scenario.reliable
       (WorkoutDetailScreen.PressSet 35) (Scenario.opening 13) Scenario.at_the_gym
     = (Scenario.opening 13, Scenario.at_the_gym).
Proof.
  split; [reflexivity|].
  apply DetailFacts.nothing_rendered_nothing_done; [left; reflexivity|discriminate].
Defined.

(** Workout 99 is not in the store. *)
Lemma mount_without_workout_witness :
  WorkoutDetailScreen.handle Scenario.decimal Scenario.number_of_text Scenario.reliable
    WorkoutDetailScreen.Mount (Scenario.opening 99) Scenario.at_the_gym
  = (WorkoutDetailScreen.setLoading false (Scenario.opening 99),
     alert "Error" single_row_expected
       (record_request (SelectWorkout 99) (Some single_row_expected) Scenario.gym
          Scenario.at_the_gym)).
Proof.
  apply (DetailFacts.mount_without_workout Scenario.decimal Scenario.number_of_text
           Scenario.reliable (Scenario.opening 99) Scenario.at_the_gym).
  - reflexivity.
  - intros row Hrow. simpl in Hrow.
    repeat (apply elem_of_cons in Hrow as [-> | Hrow]; [simpl; lia|]).
    by apply elem_of_nil in Hrow.
Defined.

(** Friday's workout opens although the first previous-performance
    request is refused. *)
Lemma mount_survives_lookups_witness :
  let after :=
    WorkoutDetailScreen.handle Scenario.decimal Scenario.number_of_text
      (Scenario.failing_at 2) WorkoutDetailScreen.Mount (Scenario.opening 13)
      Scenario.at_the_gym in
  fault (Scenario.failing_at 2) 2 = Some "network request failed"
  /\ alerts after.2 = []
  /\ WorkoutDetailScreen.loading after.1 = false
  /\ exists wk, WorkoutDetailScreen.workout after.1 = Some wk
                /\ length (WorkoutDetailScreen.wk_exercises wk) = 2.
Proof.
  intros after. split; [reflexivity|].
  destruct (DetailFacts.mount_survives_lookups Scenario.decimal Scenario.number_of_text
              (Scenario.failing_at 2) (Scenario.opening 13) Scenario.at_the_gym
              {| w_id := 13; w_user_id := 7; w_name := "Friday"; w_description := None;
                 w_created_at := 300; w_completed_at := None |})
    as (Ha & _ & Hl & wk & Hwk & _ & Hlen & _).
  - reflexivity.
  - reflexivity.
  - reflexivity.
  - intros r Hr Hid. simpl in Hr.
    repeat (apply elem_of_cons in Hr as [-> | Hr]; [by eexists|]).
    by apply elem_of_nil in Hr.
  - split_and!; [exact Ha|exact Hl|]. exists wk. split; [exact Hwk|exact Hlen].
Defined.


(** Ten reps and a tick on set 35, in either order. *)
Lemma edits_commute_witness :
  let e1 := Edits.EditReps 35 (JS.of_Z 10) in
  let e2 := Edits.EditCompleted 35 true in
  let first12 := Edits.perform Scenario.decimal Scenario.reliable e1
                   Scenario.friday.1 Scenario.friday.2 in
  let first21 := Edits.perform Scenario.decimal Scenario.reliable e2
                   Scenario.friday.1 Scenario.friday.2 in
  Edits.column e1 <> Edits.column e2
  /\ tables (Edits.perform Scenario.decimal Scenario.reliable e2 first12.1 first12.2).2
     = tables (Edits.perform Scenario.decimal Scenario.reliable e1 first21.1 first21.2).2.
Proof.
  intros e1 e2 first12 first21. split; [discriminate|].
  apply (Edits.edits_commute Scenario.decimal Scenario.reliable e1 e2
           Scenario.friday.1 Scenario.friday.2).
  - reflexivity.
  - right. discriminate.
Defined.

(** 102.5 on set 35, saved twice. *)
Lemma edit_twice_witness :
  let e := Edits.EditWeight 35 (Some (JS.Fin (205 # 2))) in
  let once := Edits.perform Scenario.decimal Scenario.reliable e
                Scenario.friday.1 Scenario.friday.2 in
  tables (Edits.perform Scenario.decimal Scenario.reliable e once.1 once.2).2
  = tables once.2.
Proof.
  intros e once.
  apply (Edits.edit_twice Scenario.decimal Scenario.reliable e Scenario.friday.1 once.1
           Scenario.friday.2).
  reflexivity.
Defined.

(** User 7's workouts in progress: the empty one, Friday's, Wednesday's. *)
Lemma history_is_own_and_newest_first_witness :
  map (fun h => w_name (hr_workout (WorkoutHistoryScreen.item h)))
    (History.shown Scenario.reliable FilterIncomplete Scenario.history Scenario.at_the_gym)
  = ["Empty"; "Friday"; "Wednesday"]
  /\ StronglySorted
       (fun a b => (w_created_at (hr_workout (WorkoutHistoryScreen.item b))
                    <= w_created_at (hr_workout (WorkoutHistoryScreen.item a)))%Z)
       (History.shown Scenario.reliable FilterIncomplete Scenario.history
          Scenario.at_the_gym).
Proof.
  split; [reflexivity|].
  destruct (HistoryFacts.history_is_own_and_newest_first Scenario.reliable FilterIncomplete
              Scenario.history Scenario.at_the_gym eq_refl) as (_ & Hsorted & _).
  exact Hsorted.
Defined.

(** Under 'completed' the one workout listed is the one counted. *)
Lemma stats_follow_the_filter_witness :
  let stats :=
    WorkoutHistoryScreen.getWorkoutStats
      (WorkoutHistoryScreen.fetchWorkoutHistory Scenario.reliable
         (WorkoutHistoryScreen.setFilter FilterCompleted Scenario.history)
         Scenario.at_the_gym).1 in
  WorkoutHistoryScreen.stat_totalWorkouts stats = 1
  /\ WorkoutHistoryScreen.stat_completedWorkouts stats
     = WorkoutHistoryScreen.stat_totalWorkouts stats.
Proof.
  intros stats. split; [reflexivity|].
  destruct (HistoryFacts.stats_follow_the_filter Scenario.reliable FilterCompleted
              Scenario.history Scenario.at_the_gym) as (_ & _ & Hanswered & _).
  destruct (Hanswered eq_refl) as (Hall & _).
  exact (Hall eq_refl).
Defined.

(** Friday's workout: two exercises, four sets, one of them completed, on
    the detail screen as on its card. *)
Lemma detail_and_history_agree_witness :
  let opened :=
    (WorkoutDetailScreen.fetchWorkoutDetails Scenario.decimal Scenario.reliable
       (Scenario.opening 13) Scenario.at_the_gym).1 in
  exists wk,
    WorkoutDetailScreen.workout opened = Some wk
    /\ WorkoutDetailScreen.getTotalSets opened = 4
    /\ WorkoutDetailScreen.getTotalSets opened
       = WorkoutHistoryScreen.totalSets
           (WorkoutHistoryScreen.transformWorkout
              (embed_history Scenario.gym (WorkoutDetailScreen.wk_row wk)))
    /\ WorkoutDetailScreen.getCompletedSets opened
       = WorkoutHistoryScreen.completedSets
           (WorkoutHistoryScreen.transformWorkout
              (embed_history Scenario.gym (WorkoutDetailScreen.wk_row wk))).
Proof.
  intros opened.
  destruct (WorkoutDetailScreen.workout opened) as [wk|] eqn:Hwk; [|discriminate Hwk].
  exists wk. split; [reflexivity|]. split; [reflexivity|].
  destruct (Counts.detail_and_history_agree Scenario.decimal Scenario.reliable
              (Scenario.opening 13) Scenario.at_the_gym wk eq_refl Hwk)
    as (_ & Htotal & Hdone).
  split; [exact Htotal|exact Hdone].
Defined.

Ltac distinct :=
  repeat (apply NoDup_cons_2;
          [ let H := fresh in
            intros H;
            repeat (apply elem_of_cons in H as [H|H]; [discriminate H|]);
            by apply elem_of_nil in H
          | ]);
  apply NoDup_nil_2.


(** The gym's tables are well formed, and still are after leg day is
    created. *)
Lemma screens_keep_the_store_sound_witness :
  Soundness.sound Scenario.gym
  /\ Soundness.sound
       (tables (CreateWorkoutScreen.createWorkout Scenario.reliable Scenario.leg_day
                  Scenario.at_the_gym).2).
Proof.
  assert (Hs : Soundness.sound Scenario.gym).
  { constructor; simpl; try distinct; repeat constructor; simpl; lia. }
  split; [exact Hs|].
  destruct (Soundness.screens_keep_the_store_sound Scenario.decimal Scenario.number_of_text
              Scenario.reliable Scenario.at_the_gym Hs) as (Hcreate & _).
  apply Hcreate.
Defined.

End Examples.
